(** * AliveCor ECG file parser (src/lib/parser.ts): model and properties

    The parser of [parser.ts] is written declaratively on top of the
    [binary-parser] package (2.x: reads through a [DataView], slices with
    [Buffer.subarray], decodes text with [TextDecoder]).  The development
    has three layers:

    - [JS]           the few JavaScript notions the code relies on (strings
                     as UTF-16 code units, [String.prototype.trim],
                     truthiness, thrown values);
    - [BinaryParser] the combinators of the package the code uses, as a
                     cursor-over-remaining-bytes monad;
    - [AliveCor]     [createAliveCorEcgParser] itself: the six declarative
                     parsers and the [parse] function with its nested
                     helpers, in the order the source has them. *)

From Stdlib Require Import List ZArith Lia Bool String Ascii.
From Stdlib Require Import Strings.Byte.
From Stdlib Require Import Permutation.
Import ListNotations.
Local Open Scope Z_scope.

(* ===================================================================== *)
(** ** JavaScript values used by the parser                              *)
(* ===================================================================== *)

Module JS.

(** A JavaScript string is a sequence of UTF-16 code units. *)
Definition jsstring := list Z.

(** A string literal of the source (ASCII only) as code units. *)
Definition lit (s : string) : jsstring :=
  map (fun a => Z.of_N (N_of_ascii a)) (list_ascii_of_string s).

(** [a === b] on strings. *)
Fixpoint strict_eq (a b : jsstring) : bool :=
  match a, b with
  | [], [] => true
  | x :: a', y :: b' => (x =? y) && strict_eq a' b'
  | _, _ => false
  end.

(** The values a bit field can hold once its formatter has run: a number
    (no formatter, or the [mainsFrequency] formatter) or a boolean
    ([convertToBoolean]).  [===] never identifies the two. *)
Inductive value : Type :=
| Num (n : Z)
| Boolean (b : bool).

(** Truthiness of a number, as in [f ? 60 : 50]. *)
Definition truthy_num (n : Z) : bool := negb (n =? 0).

(** Code units removed by [String.prototype.trim]: WhiteSpace and
    LineTerminator of ECMA-262. *)
Definition is_whitespace (c : Z) : bool :=
  ((9 <=? c) && (c <=? 13)) || (c =? 32) || (c =? 160) || (c =? 5760)
  || ((8192 <=? c) && (c <=? 8202)) || (c =? 8232) || (c =? 8233)
  || (c =? 8239) || (c =? 8287) || (c =? 12288) || (c =? 65279).

Fixpoint dropWhile {A : Type} (p : A -> bool) (l : list A) : list A :=
  match l with
  | [] => []
  | x :: l' => if p x then dropWhile p l' else l
  end.

Definition dropWhileEnd {A : Type} (p : A -> bool) (l : list A) : list A :=
  rev (dropWhile p (rev l)).

(** [s.trim()]. *)
Definition trim (s : jsstring) : jsstring :=
  dropWhileEnd is_whitespace (dropWhile is_whitespace s).

(** [s.replace(/\x00+$/g, '')]: what [stripNull: true] does. *)
Definition stripTrailingNulls (s : jsstring) : jsstring :=
  dropWhileEnd (fun c => c =? 0) s.

(** What a call can do: return, throw, or never come back. *)
Inductive exn : Type :=
| Error (message : string)        (* [throw new Error(message)] of parser.ts *)
| RangeError (parser : string).   (* out-of-bounds [DataView] read inside
                                     the named declarative parser *)

Inductive result (A : Type) : Type :=
| Returns (a : A)
| Throws (e : exn)
| Hangs.

Arguments Returns {A} a.
Arguments Throws {A} e.
Arguments Hangs {A}.

Definition bind {A B : Type} (r : result A) (k : A -> result B) : result B :=
  match r with
  | Returns a => k a
  | Throws e => Throws e
  | Hangs => Hangs
  end.

(** [xs.map(f)] where [f] may throw: elements are visited left to right and
    the first exception aborts the traversal. *)
Fixpoint mapM {A B : Type} (f : A -> result B) (xs : list A) : result (list B) :=
  match xs with
  | [] => Returns []
  | x :: xs' =>
      bind (f x) (fun y => bind (mapM f xs') (fun ys => Returns (y :: ys)))
  end.

(** [({ ...acc, [key]: v })] on an object kept as an association list in
    property order: an existing key keeps its place, a new one goes last. *)
Fixpoint assign {V : Type} (acc : list (string * V)) (key : string) (v : V)
  : list (string * V) :=
  match acc with
  | [] => [(key, v)]
  | (k, w) :: acc' =>
      if String.eqb k key then (k, v) :: acc' else (k, w) :: assign acc' key v
  end.

(** [buf.toString('hex')]. *)
Definition hexdigit (n : N) : ascii :=
  match n with
  | 0 => "0" | 1 => "1" | 2 => "2" | 3 => "3" | 4 => "4" | 5 => "5"
  | 6 => "6" | 7 => "7" | 8 => "8" | 9 => "9" | 10 => "a" | 11 => "b"
  | 12 => "c" | 13 => "d" | 14 => "e" | _ => "f"
  end%N%char.

Fixpoint toString_hex (buf : list byte) : string :=
  match buf with
  | [] => EmptyString
  | b :: buf' =>
      String (hexdigit (Byte.to_N b / 16))
        (String (hexdigit (Byte.to_N b mod 16)) (toString_hex buf'))
  end.

End JS.

(* ===================================================================== *)
(** ** The [binary-parser] combinators the code uses                     *)
(* ===================================================================== *)

Module BinaryParser.
Import JS.

(** The generated parsing function keeps the input buffer and an [offset]
    that only grows.  Here the state is the part of the buffer at and after
    [offset]: it is [[]] exactly when [offset >= buffer.length].  A numeric
    read needs all its bytes inside the buffer ([DataView] throws a
    [RangeError] otherwise); [subarray] clamps instead and never throws,
    while [offset] still advances by the requested length. *)
Inductive outcome (A : Type) : Type :=
| Done (a : A) (rest : list byte)
| OutOfRange
| NoFuel.

Arguments Done {A} a rest.
Arguments OutOfRange {A}.
Arguments NoFuel {A}.

Definition Parser (A : Type) : Type := list byte -> outcome A.

Definition ret {A : Type} (a : A) : Parser A := fun buf => Done a buf.

Definition bind {A B : Type} (p : Parser A) (k : A -> Parser B) : Parser B :=
  fun buf =>
    match p buf with
    | Done a rest => k a rest
    | OutOfRange => OutOfRange
    | NoFuel => NoFuel
    end.

Declare Scope parser_scope.
Delimit Scope parser_scope with parser.
Notation "x <- p ;; k" := (bind p (fun x => k))
  (at level 61, p at next level, right associativity) : parser_scope.

Definition u8 (b : byte) : Z := Z.of_N (Byte.to_N b).

(** [dataView.getUint8(offset)] *)
Definition uint8 : Parser Z :=
  fun buf =>
    match buf with
    | b0 :: rest => Done (u8 b0) rest
    | _ => OutOfRange
    end.

(** [dataView.getUint16(offset, true)] *)
Definition uint16le : Parser Z :=
  fun buf =>
    match buf with
    | b0 :: b1 :: rest => Done (Z.lor (u8 b0) (Z.shiftl (u8 b1) 8)) rest
    | _ => OutOfRange
    end.

(** [dataView.getInt16(offset, true)]: the same 16 bits in two's
    complement. *)
Definition to_int16 (u : Z) : Z := if u <? 32768 then u else u - 65536.

Definition int16le : Parser Z :=
  fun buf =>
    match uint16le buf with
    | Done u rest => Done (to_int16 u) rest
    | OutOfRange => OutOfRange
    | NoFuel => NoFuel
    end.

(** [dataView.getUint32(offset, true)] *)
Definition uint32le : Parser Z :=
  fun buf =>
    match buf with
    | b0 :: b1 :: b2 :: b3 :: rest =>
        Done (Z.lor (Z.lor (u8 b0) (Z.shiftl (u8 b1) 8))
                    (Z.lor (Z.shiftl (u8 b2) 16) (Z.shiftl (u8 b3) 24))) rest
    | _ => OutOfRange
    end.

(** [.buffer(name, { length })]:
    [buffer.subarray(offset, offset + length); offset += length]. *)
Definition buffer (length : Z) : Parser (list byte) :=
  fun buf => Done (firstn (Z.to_nat length) buf) (skipn (Z.to_nat length) buf).

(** A run of [.bit1] fields adding up to eight bits is fetched with one
    [getUint8]; under little endianness the k-th field of the run is
    [val >> k & 1]. *)
Definition bit1 (val : Z) (k : Z) : Z := Z.land (Z.shiftr val k) 1.

(** *** Text: [new TextDecoder('utf8').decode(bytes)]

    The decoder of the WHATWG Encoding standard: malformed input yields
    U+FFFD and the offending byte is looked at again as a lead byte; a
    leading U+FEFF is dropped.  For a lead byte [b] in C2..DF, E0..EF,
    F0..F4 the payload [b & 0x1F], [b & 0xF], [b & 0x7] is [b] minus the
    lower end of its range, and [(cp << 6) | (b & 0x3F)] is
    [cp * 64 + (b - 0x80)] for a continuation byte. *)
Record utf8_state : Type := mk_utf8 {
  code_point : Z;
  bytes_left : nat;     (* bytes needed minus bytes seen *)
  lower_boundary : Z;
  upper_boundary : Z
}.

Definition utf8_start : utf8_state := mk_utf8 0 0 128 191.

Definition within (lo b hi : Z) : bool := (lo <=? b) && (b <=? hi).

Definition utf8_lead (b : Z) : list Z * utf8_state :=
  if b <=? 127 then ([b], utf8_start)
  else if within 194 b 223 then ([], mk_utf8 (b - 192) 1 128 191)
  else if within 224 b 239 then
    ([], mk_utf8 (b - 224) 2 (if b =? 224 then 160 else 128)
                             (if b =? 237 then 159 else 191))
  else if within 240 b 244 then
    ([], mk_utf8 (b - 240) 3 (if b =? 240 then 144 else 128)
                             (if b =? 244 then 143 else 191))
  else ([65533], utf8_start).

Definition utf8_step (st : utf8_state) (b : Z) : list Z * utf8_state :=
  match bytes_left st with
  | O => utf8_lead b
  | S k =>
      if within (lower_boundary st) b (upper_boundary st) then
        let cp := code_point st * 64 + (b - 128) in
        match k with
        | O => ([cp], utf8_start)
        | S _ => ([], mk_utf8 cp k 128 191)
        end
      else
        let (out, st') := utf8_lead b in (65533 :: out, st')
  end.

(** Code units of the ASCII range. *)
Definition below128 (c : Z) : bool := c <? 128.

(** The states the decoder goes through: a pending sequence has at most
    three bytes to go and can only end in a code point above U+007F. *)
Definition utf8_pending (st : utf8_state) : Prop :=
  0 <= code_point st /\ 128 <= lower_boundary st /\
  match bytes_left st with
  | 0%nat => True
  | 1%nat => 2 <= code_point st
  | 2%nat => 1 <= code_point st \/ 160 <= lower_boundary st
  | 3%nat => 1 <= code_point st \/ 144 <= lower_boundary st
  | _ => False
  end.

(** The code points of a byte sequence. *)
Fixpoint utf8_code_points (st : utf8_state) (bytes : list byte) : list Z :=
  match bytes with
  | [] => match bytes_left st with O => [] | S _ => [65533] end
  | b :: bytes' =>
      let (out, st') := utf8_step st (u8 b) in
      out ++ utf8_code_points st' bytes'
  end.

(** A code point as UTF-16 code units. *)
Definition utf16_units (cp : Z) : list Z :=
  if cp <? 65536 then [cp]
  else [55296 + (cp - 65536) / 1024; 56320 + (cp - 65536) mod 1024].

Definition drop_bom (cps : list Z) : list Z :=
  match cps with
  | 65279 :: cps' => cps'
  | _ => cps
  end.

Definition TextDecoder_decode (bytes : list byte) : jsstring :=
  flat_map utf16_units (drop_bom (utf8_code_points utf8_start bytes)).

(** [.string(name, { length })] with the default encoding, and the
    [stripNull] and [formatter] options where given (applied in that
    order). *)
Definition string_fixed (length : Z) : Parser jsstring :=
  fun buf =>
    Done (TextDecoder_decode (firstn (Z.to_nat length) buf))
         (skipn (Z.to_nat length) buf).

Definition string_stripNull (length : Z) (formatter : jsstring -> jsstring)
  : Parser jsstring :=
  fun buf =>
    match string_fixed length buf with
    | Done s rest => Done (formatter (stripTrailingNulls s)) rest
    | OutOfRange => OutOfRange
    | NoFuel => NoFuel
    end.

(** [.array(name, { type, readUntil: 'eof' })]:
    [while (offset < buffer.length) { item; push }].  The loop is bounded by
    [fuel]; an element that consumes at least one byte never exhausts
    [fuel = length buf] ([array_loop_fuel], [array_readUntil_eof_unfold]). *)
Fixpoint array_loop {A : Type} (item : Parser A) (fuel : nat) (buf : list byte)
  : outcome (list A) :=
  match buf with
  | [] => Done [] []
  | _ :: _ =>
      match fuel with
      | O => NoFuel
      | S fuel' =>
          match item buf with
          | Done a rest =>
              match array_loop item fuel' rest with
              | Done l rest' => Done (a :: l) rest'
              | OutOfRange => OutOfRange
              | NoFuel => NoFuel
              end
          | OutOfRange => OutOfRange
          | NoFuel => NoFuel
          end
      end
  end.

Definition array_readUntil_eof {A : Type} (item : Parser A) : Parser (list A) :=
  fun buf => array_loop item (List.length buf) buf.

(** An element parser makes progress when it neither loops nor returns
    without having moved the offset. *)
Definition productive {A : Type} (item : Parser A) : Prop :=
  forall buf,
    match item buf with
    | Done _ rest => (List.length rest < List.length buf)%nat
    | OutOfRange => True
    | NoFuel => False
    end.

(** [p.parse(buf)]: run the generated function from offset 0 and return the
    object it built; bytes left over are not looked at.  [name] tells which
    parser a [RangeError] came out of. *)
Definition parse {A : Type} (name : string) (p : Parser A) (buf : list byte)
  : result A :=
  match p buf with
  | Done a _ => Returns a
  | OutOfRange => Throws (RangeError name)
  | NoFuel => Hangs
  end.

End BinaryParser.

(* ===================================================================== *)
(** ** [createAliveCorEcgParser] (src/lib/parser.ts)                     *)
(* ===================================================================== *)

Module AliveCor.
Import JS BinaryParser.

Declare Scope result_scope.
Delimit Scope result_scope with result.
Notation "x <- r ;; k" := (JS.bind r (fun x => k))
  (at level 61, r at next level, right associativity) : result_scope.

(** *** The objects the parser builds *)

Record AliveCorEcgInfo : Type := {
  dateRecorded : jsstring;
  recordingUuid : jsstring;
  mobilePhoneUuid : jsstring;
  mobilePhoneModel : jsstring;
  recorderSoftware : jsstring;
  recorderHardware : jsstring;
  deviceData : jsstring
}.

(** The object [formatBlockParser] returns; besides the fields of the
    interface it carries [unused] and [reserved]. *)
Record AliveCorEcgFormat : Type := {
  ecgFormat : Z;
  samplingRateHz : Z;
  amplitudeResolutionNV : Z;
  polarity : value;
  mainsFrequency : value;
  mainsFilter : value;
  lowPassFilter : value;
  baseLineFilter : value;
  notchMainsFilter : value;
  enhancedFilter : value;
  unused : value;
  reserved : Z
}.

Record Tick : Type := {
  offset : Z;
  beatType : Z
}.

Record AliveCorEcgAnnotation : Type := {
  tickCountFrequencyHz : Z;
  ticks : list Tick
}.

(** The [leads] object: property name to samples, in property order. *)
Definition AliveCorEcgLeads : Type := list (string * list Z).

Record AliveCorEcg : Type := {
  fileVersion : string;
  info : AliveCorEcgInfo;
  format : AliveCorEcgFormat;
  leads : AliveCorEcgLeads;
  annotation : option AliveCorEcgAnnotation
}.

Record AliveCorBlock : Type := {
  identifier : jsstring;
  length : Z;
  contents : list byte;
  checksum : Z
}.

Record AliveCorFile : Type := {
  signature : list byte;
  version : Z;
  blocks : list AliveCorBlock
}.

(** *** Formatters *)

Definition convertToBoolean (bit : Z) : value := Boolean (bit =? 1).

Definition trimString (s : jsstring) : jsstring := trim s.

Definition mainsFrequencyFormatter (f : Z) : value :=
  Num (if truthy_num f then 60 else 50).

(** *** The declarative parsers *)

Definition leadBlockParser : Parser (list Z) :=
  array_readUntil_eof int16le.

Definition tickParser : Parser Tick :=
  (offset <- uint32le ;;
   beatType <- uint16le ;;
   ret {| offset := offset; beatType := beatType |})%parser.

Definition annotationBlockParser : Parser AliveCorEcgAnnotation :=
  (tickCountFrequencyHz <- uint32le ;;
   ticks <- array_readUntil_eof tickParser ;;
   ret {| tickCountFrequencyHz := tickCountFrequencyHz; ticks := ticks |})%parser.

Definition infoBlockParser : Parser AliveCorEcgInfo :=
  (dateRecorded <- string_stripNull 32 trimString ;;
   recordingUuid <- string_stripNull 40 trimString ;;
   mobilePhoneUuid <- string_stripNull 44 trimString ;;
   mobilePhoneModel <- string_stripNull 32 trimString ;;
   recorderSoftware <- string_stripNull 32 trimString ;;
   recorderHardware <- string_stripNull 32 trimString ;;
   deviceData <- string_stripNull 52 trimString ;;
   ret {| dateRecorded := dateRecorded;
          recordingUuid := recordingUuid;
          mobilePhoneUuid := mobilePhoneUuid;
          mobilePhoneModel := mobilePhoneModel;
          recorderSoftware := recorderSoftware;
          recorderHardware := recorderHardware;
          deviceData := deviceData |})%parser.

(** The source spells the first call [.endianess('little')], the older
    name of [.endianness].  The eight [.bit1] fields share one byte
    ([bits]); a field without formatter keeps the number it read. *)
Definition formatBlockParser : Parser AliveCorEcgFormat :=
  (ecgFormat <- uint8 ;;
   samplingRateHz <- uint16le ;;
   amplitudeResolutionNV <- uint16le ;;
   bits <- uint8 ;;
   reserved <- uint16le ;;
   ret {| ecgFormat := ecgFormat;
          samplingRateHz := samplingRateHz;
          amplitudeResolutionNV := amplitudeResolutionNV;
          polarity := Num (bit1 bits 0);
          mainsFrequency := mainsFrequencyFormatter (bit1 bits 1);
          mainsFilter := convertToBoolean (bit1 bits 2);
          lowPassFilter := convertToBoolean (bit1 bits 3);
          baseLineFilter := convertToBoolean (bit1 bits 4);
          notchMainsFilter := convertToBoolean (bit1 bits 5);
          enhancedFilter := convertToBoolean (bit1 bits 6);
          unused := Num (bit1 bits 7);
          reserved := reserved |})%parser.

Definition blockParser : Parser AliveCorBlock :=
  (identifier <- string_fixed 4 ;;
   length <- uint32le ;;
   contents <- buffer length ;;
   checksum <- uint32le ;;
   ret {| identifier := identifier;
          length := length;
          contents := contents;
          checksum := checksum |})%parser.

Definition fileParser : Parser AliveCorFile :=
  (signature <- buffer 8 ;;
   version <- uint32le ;;
   blocks <- array_readUntil_eof blockParser ;;
   ret {| signature := signature; version := version; blocks := blocks |})%parser.

(** *** [parse] and its nested functions *)

Definition parseFileWithBufferBlocks (input : list byte) : result AliveCorFile :=
  (parsed <- BinaryParser.parse "fileParser" fileParser input ;;
   if negb (String.eqb (toString_hex (signature parsed)) "414c495645000000")
   then Throws (Error "Not an AliveCor ECG file")
   else if negb (version parsed =? 4)
   then Throws (Error "Unsupported AliveCor ECG file")
   else Returns parsed)%result.

(** [parsed.blocks.find((b) => b.identifier === type)] *)
Definition findBlock (parsed : AliveCorFile) (type : string)
  : option AliveCorBlock :=
  find (fun b => strict_eq (identifier b) (lit type)) (blocks parsed).

Definition parseInfoBlock (parsed : AliveCorFile) : result AliveCorEcgInfo :=
  match findBlock parsed "info" with
  | None => Throws (Error "No info block in AliveCor ECG file")
  | Some infoBlock =>
      BinaryParser.parse "infoBlockParser" infoBlockParser (contents infoBlock)
  end.

Definition parseFormatBlock (parsed : AliveCorFile) : result AliveCorEcgFormat :=
  match findBlock parsed "fmt " with
  | None => Throws (Error "No format block in AliveCor ECG file")
  | Some formatBlock =>
      BinaryParser.parse "formatBlockParser" formatBlockParser
        (contents formatBlock)
  end.

Definition parseAnnotationBlock (parsed : AliveCorFile)
  : result (option AliveCorEcgAnnotation) :=
  match findBlock parsed "ann " with
  | Some annotationBlock =>
      (a <- BinaryParser.parse "annotationBlockParser" annotationBlockParser
              (contents annotationBlock) ;;
       Returns (Some a))%result
  | None => Returns None
  end.

Definition parseLeadBlock (parsed : AliveCorFile) (type : string)
  : result (option (list Z)) :=
  match findBlock parsed type with
  | Some leadBlock =>
      (data <- BinaryParser.parse "leadBlockParser" leadBlockParser
                 (contents leadBlock) ;;
       Returns (Some data))%result
  | None => Returns None
  end.

(** The table [parse] maps over: block identifier, property name. *)
Definition leadTable : list (string * string) :=
  [ ("ecg ", "leadI"); ("ecg2", "leadII"); ("ecg3", "leadIII");
    ("ecg4", "aVR"); ("ecg5", "aVL"); ("ecg6", "aVF") ]%string.

(** [([type, name]) => ({ name, data: parseLeadBlock(type) })] *)
Definition leadItem (parsed : AliveCorFile) (entry : string * string)
  : result (string * option (list Z)) :=
  let '(type, name) := entry in
  (data <- parseLeadBlock parsed type ;; Returns (name, data))%result.

(** Truthiness of [number[] | undefined]: every array is truthy, the empty
    one included. *)
Definition truthy_data (data : option (list Z)) : bool :=
  match data with Some _ => true | None => false end.

(** [.filter(({ data }) => data).reduce((acc, i) => ({ ...acc, [i.name]: i.data }), {})];
    after the filter every [data] is an array. *)
Definition collectLeads (items : list (string * option (list Z)))
  : AliveCorEcgLeads :=
  fold_left
    (fun acc i =>
       match snd i with
       | Some data => assign acc (fst i) data
       | None => acc
       end)
    (filter (fun i => truthy_data (snd i)) items)
    [].

(** The part of [parse] after [parseFileWithBufferBlocks]. *)
Definition assemble (parsed : AliveCorFile) : result AliveCorEcg :=
  (info <- parseInfoBlock parsed ;;
   format <- parseFormatBlock parsed ;;
   annotation <- parseAnnotationBlock parsed ;;
   if negb (ecgFormat format =? 1)
   then Throws (Error "Unsupported ECG Format in AliveCor ECG file")
   else
     items <- mapM (leadItem parsed) leadTable ;;
     Returns {| fileVersion := "1.6";
                info := info;
                format := format;
                leads := collectLeads items;
                annotation := annotation |})%result.

Definition parse (input : list byte) : result AliveCorEcg :=
  (parsed <- parseFileWithBufferBlocks input ;;
   assemble parsed)%result.

End AliveCor.

(* ===================================================================== *)
(** ** File layout: building inputs                                      *)
(* ===================================================================== *)

(** The byte layout the parsers read, written the other way round; used to
    state properties of files given by their parts. *)
Module Wire.
Import JS BinaryParser AliveCor.

Definition byte_of (z : Z) : byte :=
  match Byte.of_N (Z.to_N (z mod 256)) with
  | Some b => b
  | None => x00
  end.

(** Four bytes, least significant first. *)
Definition le32 (n : Z) : list byte :=
  [byte_of n; byte_of (n / 256); byte_of (n / 65536); byte_of (n / 16777216)].

(** The bytes of an ASCII literal. *)
Definition ascii (s : string) : list byte := list_byte_of_string s.

(** A block as it lies in a file: identifier bytes, content, checksum; the
    length field is the length of the content. *)
Record RawBlock : Type := {
  tag : list byte;
  content : list byte;
  crc : Z
}.

Definition well_formed (b : RawBlock) : Prop :=
  List.length (tag b) = 4%nat /\ Z.of_nat (List.length (content b)) < 2 ^ 32.

(** Block := Identifier(4) Length(u32) Content Checksum(u32) *)
Definition block (b : RawBlock) : list byte :=
  tag b ++ le32 (Z.of_nat (List.length (content b))) ++ content b ++ le32 (crc b).

(** File := Signature(8) Version(u32) Block* *)
Definition file (sig : list byte) (version : Z) (blocks : list RawBlock)
  : list byte :=
  sig ++ le32 version ++ flat_map block blocks.

(** The object [blockParser] builds from the bytes of a well-formed block. *)
Definition decoded (b : RawBlock) : AliveCorBlock :=
  {| identifier := TextDecoder_decode (tag b);
     length := Z.of_nat (List.length (content b));
     contents := content b;
     checksum := crc b mod 2 ^ 32 |}.

(** 41 4C 49 56 45 00 00 00 *)
Definition ALIVE : list byte := [x41; x4c; x49; x56; x45; x00; x00; x00].

(** ecgFormat=1, sampleRateHz=300, amplitudeResNV=1000, flags=0x05,
    reserved=0. *)
Definition fmt_300Hz : list byte := [x01; x2c; x01; xe8; x03; x05; x00; x00].

(** The same with ecgFormat=2. *)
Definition fmt_format2 : list byte := [x02; x2c; x01; xe8; x03; x05; x00; x00].

(** The samples 100, -200, 300 as int16 little-endian: 64 00 38 FF 2C 01. *)
Definition samples_100_m200_300 : list byte := [x64; x00; x38; xff; x2c; x01].

(** [text] followed by zero bytes up to [width]. *)
Definition padded (text : string) (width : nat) : list byte :=
  ascii text ++ repeat x00 (width - List.length (ascii text)).

(** An info block content of 264 bytes. *)
Definition info_264 : list byte :=
  padded "2020-01-01  " 32 ++ padded "2f1e" 40 ++ padded "77aa" 44
  ++ padded "Phone" 32 ++ padded "Kardia" 32 ++ padded "AC-009" 32
  ++ padded "" 52.

Definition fmt_block (content : list byte) (crc : Z) : RawBlock :=
  {| tag := ascii "fmt "; content := content; crc := crc |}.

Definition info_block (content : list byte) (crc : Z) : RawBlock :=
  {| tag := ascii "info"; content := content; crc := crc |}.

Definition ann_block (content : list byte) (crc : Z) : RawBlock :=
  {| tag := ascii "ann "; content := content; crc := crc |}.

Definition ecg_block (content : list byte) (crc : Z) : RawBlock :=
  {| tag := ascii "ecg "; content := content; crc := crc |}.

(** The file of the block round-trip property: signature, version 4, one
    [fmt ] block, one [info] block, one [ecg ] block. *)
Definition roundtrip_file (infoContent : list byte) (c1 c2 c3 : Z) : list byte :=
  file ALIVE 4
    [ fmt_block fmt_300Hz c1;
      info_block infoContent c2;
      ecg_block samples_100_m200_300 c3 ].

(** *** Contents of the typed blocks *)

(** Two bytes, least significant first; a negative sample comes out in
    two's complement. *)
Definition le16 (n : Z) : list byte := [byte_of n; byte_of (n / 256)].

(** ecg* Content := repeating int16 little-endian samples *)
Definition signal_content (samples : list Z) : list byte :=
  flat_map le16 samples.

(** ann Content := tickFreqHz(u32) then repeating {offset(u32) beatType(u16)} *)
Definition tick_content (t : Tick) : list byte :=
  le32 (offset t) ++ le16 (beatType t).

Definition annotation_content (a : AliveCorEcgAnnotation) : list byte :=
  le32 (tickCountFrequencyHz a) ++ flat_map tick_content (ticks a).

(** A text field: the bytes of the text, then zero bytes up to [width]. *)
Definition text_field (text : list byte) (width : nat) : list byte :=
  text ++ repeat x00 (width - List.length text).

(** A block identifier together with its content, the checksum left out. *)
Definition payload (b : RawBlock) : list byte * list byte :=
  (tag b, content b).

(** *** Inputs used as examples *)

(** A wrong signature, version 4, then three bytes that are no block. *)
Definition junk_after_header : list byte :=
  repeat x00 8 ++ le32 4 ++ [x01; x02; x03].

(** A wrong signature in front of a complete file. *)
Definition wrong_signature_file : list byte :=
  file (repeat x00 8) 4
    [ fmt_block fmt_300Hz 0; info_block info_264 0;
      ecg_block samples_100_m200_300 0 ].

(** A [fmt ] block with ecgFormat=2 and no [info] block. *)
Definition format2_without_info : list byte :=
  file ALIVE 4 [ fmt_block fmt_format2 0 ].

(** A [fmt ] block with ecgFormat=2, an [info] block, and an [ecg ] block of
    odd length. *)
Definition format2_with_info : list byte :=
  file ALIVE 4
    [ info_block info_264 0; fmt_block fmt_format2 0; ecg_block [x01] 0 ].

(** The same with an [ann ] block of five content bytes before the lead. *)
Definition format2_bad_annotation : list byte :=
  file ALIVE 4
    [ info_block info_264 0; fmt_block fmt_format2 0;
      ann_block [x01; x02; x03; x04; x05] 0; ecg_block [x01] 0 ].

(** An [info] block, a [fmt ] block of three content bytes and an [ann ]
    block of five. *)
Definition short_format_bad_annotation : list byte :=
  file ALIVE 4
    [ info_block info_264 0; fmt_block [x02; x2c; x01] 0;
      ann_block [x01; x02; x03; x04; x05] 0 ].

(** An [info] block of two content bytes. *)
Definition short_info_file : list byte :=
  file ALIVE 4
    [ fmt_block fmt_300Hz 0; info_block [x41; x00] 0;
      ecg_block samples_100_m200_300 0 ].

(** An [ecg ] block of five content bytes. *)
Definition odd_lead_file : list byte :=
  file ALIVE 4
    [ fmt_block fmt_300Hz 0; info_block info_264 0;
      ecg_block [x64; x00; x38; xff; x2c] 0 ].

(** An [ann ] block of 4 + 6*2 + 3 content bytes. *)
Definition partial_tick_file : list byte :=
  file ALIVE 4
    [ fmt_block fmt_300Hz 0; info_block info_264 0;
      ann_block (le32 300 ++ repeat x01 12 ++ repeat x02 3) 0;
      ecg_block samples_100_m200_300 0 ].

(** An [ecg ] block of declared length 0, and no [ecg2] block. *)
Definition empty_lead_file : list byte :=
  file ALIVE 4
    [ fmt_block fmt_300Hz 0; info_block info_264 0; ecg_block [] 0 ].

(** The round-trip file with a block [xtra] between its blocks. *)
Definition xtra_block : RawBlock :=
  {| tag := ascii "xtra"; content := [x01; x02; x03]; crc := 0 |}.

End Wire.

(* ===================================================================== *)
(** ** Vocabulary of the specification                                   *)
(* ===================================================================== *)

Module Spec.
Import JS BinaryParser AliveCor.

(** The failure kinds of the specification, as the values the code
    throws. *)
Definition InvalidSignature : exn := Error "Not an AliveCor ECG file".
Definition UnsupportedVersion : exn := Error "Unsupported AliveCor ECG file".
Definition TruncatedBlock : exn := RangeError "fileParser".
Definition MissingFormatBlock : exn := Error "No format block in AliveCor ECG file".
Definition UnsupportedFormat : exn := Error "Unsupported ECG Format in AliveCor ECG file".
Definition MissingInfoBlock : exn := Error "No info block in AliveCor ECG file".
Definition MalformedInfoBlock : exn := RangeError "infoBlockParser".
Definition MalformedFormatBlock : exn := RangeError "formatBlockParser".
Definition MalformedSignalBlock : exn := RangeError "leadBlockParser".
Definition MalformedAnnotationBlock : exn := RangeError "annotationBlockParser".

(** [decode] of the specification is [parse]. *)
Definition decode : list byte -> result AliveCorEcg := parse.

(** A container-valid input: the container reader returns. *)
Definition container_valid (input : list byte) (parsed : AliveCorFile) : Prop :=
  parseFileWithBufferBlocks input = Returns parsed.

(** Property lookup in an object kept in property order. *)
Fixpoint lookup {V : Type} (key : string) (obj : list (string * V)) : option V :=
  match obj with
  | [] => None
  | (k, v) :: obj' => if String.eqb k key then Some v else lookup key obj'
  end.

(** The signal decoder in the words of the specification: consecutive byte
    pairs as signed 16-bit little-endian integers. *)
Fixpoint int16_samples (content : list byte) : list Z :=
  match content with
  | lo :: hi :: content' =>
      to_int16 (u8 lo + 256 * u8 hi) :: int16_samples content'
  | _ => []
  end.

(** The annotation records in the words of the specification: 6-byte
    records, a 4-byte little-endian offset then a 2-byte little-endian beat
    type. *)
Fixpoint tick_records (bytes : list byte) : list Tick :=
  match bytes with
  | o0 :: o1 :: o2 :: o3 :: t0 :: t1 :: bytes' =>
      {| offset := u8 o0 + 256 * u8 o1 + 65536 * u8 o2 + 16777216 * u8 o3;
         beatType := u8 t0 + 256 * u8 t1 |} :: tick_records bytes'
  | _ => []
  end.

(** One info field in the words of the amended claim C4: the bytes of the
    field's range that the content really has, decoded, without trailing
    nulls, trimmed. *)
Definition info_field (content : list byte) (start width : nat) : jsstring :=
  trim (stripTrailingNulls
          (TextDecoder_decode (firstn width (skipn start content)))).

(** The identifiers [parse] looks for. *)
Definition recognized : list string :=
  [ "info"; "fmt "; "ann "; "ecg "; "ecg2"; "ecg3"; "ecg4"; "ecg5"; "ecg6" ]%string.

Definition unrecognized (b : AliveCorBlock) : Prop :=
  forall tag, In tag recognized -> identifier b <> lit tag.

(** The samples of the lead block [type] when the file has one. *)
Definition lead_data (parsed : AliveCorFile) (type : string) : option (list Z) :=
  option_map (fun b => int16_samples (contents b)) (findBlock parsed type).

(** Every lead block [parse] locates has an even number of content bytes. *)
Definition leads_decodable (parsed : AliveCorFile) : Prop :=
  forall type name b,
    In (type, name) leadTable ->
    findBlock parsed type = Some b ->
    Nat.even (List.length (contents b)) = true.

(** The little-endian value of four bytes. *)
Definition u32_value (b0 b1 b2 b3 : byte) : Z :=
  u8 b0 + 256 * u8 b1 + 65536 * u8 b2 + 16777216 * u8 b3.

(** The format record in terms of the eight content bytes: two
    little-endian 16-bit numbers after the format code, then the flags byte
    bit by bit from the least significant one, then the reserved number. *)
Definition format_record (b0 b1 b2 b3 b4 flags b6 b7 : byte) : AliveCorEcgFormat :=
  {| ecgFormat := u8 b0;
     samplingRateHz := u8 b1 + 256 * u8 b2;
     amplitudeResolutionNV := u8 b3 + 256 * u8 b4;
     polarity := Num (Z.b2z (Z.testbit (u8 flags) 0));
     mainsFrequency := Num (if Z.testbit (u8 flags) 1 then 60 else 50);
     mainsFilter := Boolean (Z.testbit (u8 flags) 2);
     lowPassFilter := Boolean (Z.testbit (u8 flags) 3);
     baseLineFilter := Boolean (Z.testbit (u8 flags) 4);
     notchMainsFilter := Boolean (Z.testbit (u8 flags) 5);
     enhancedFilter := Boolean (Z.testbit (u8 flags) 6);
     unused := Num (Z.b2z (Z.testbit (u8 flags) 7));
     reserved := u8 b6 + 256 * u8 b7 |}.

(** The info record of a block content. *)
Definition info_record (content : list byte) : AliveCorEcgInfo :=
  {| dateRecorded := info_field content 0 32;
     recordingUuid := info_field content 32 40;
     mobilePhoneUuid := info_field content 72 44;
     mobilePhoneModel := info_field content 116 32;
     recorderSoftware := info_field content 148 32;
     recorderHardware := info_field content 180 32;
     deviceData := info_field content 212 52 |}.

(** A text with nothing for [.trim()] to remove: no white space at either
    end. *)
Definition trimmed (s : jsstring) : Prop :=
  (forall c, hd_error s = Some c -> is_whitespace c = false)
  /\ (forall c, hd_error (rev s) = Some c -> is_whitespace c = false).

(** A text that fits a field of [width] bytes and comes back as written:
    ASCII without null bytes and without white space at either end. *)
Definition clean_text (t : list byte) (width : nat) : Prop :=
  (List.length t <= width)%nat
  /\ Forall (fun b => 0 < u8 b < 128) t
  /\ trimmed (map u8 t).

(** The annotation record of a block content. *)
Definition annotation_record (content : list byte) : AliveCorEcgAnnotation :=
  {| tickCountFrequencyHz :=
       match content with
       | f0 :: f1 :: f2 :: f3 :: _ => u32_value f0 f1 f2 f3
       | _ => 0
       end;
     ticks := tick_records (skipn 4 content) |}.

(** The leads of a file: the entries of the lead table whose block the file
    has, in table order. *)
Definition present_leads (parsed : AliveCorFile) : AliveCorEcgLeads :=
  flat_map
    (fun entry =>
       match lead_data parsed (fst entry) with
       | Some data => [(snd entry, data)]
       | None => []
       end)
    leadTable.

(** The [ann ] block, if the file has one, holds a frequency and whole
    6-byte records. *)
Definition annotation_ok (parsed : AliveCorFile) : bool :=
  match findBlock parsed "ann " with
  | Some b => (Z.of_nat (List.length (contents b)) - 4) mod 6 =? 0
  | None => true
  end.

(** [leads_decodable] as a test. *)
Definition leads_ok (parsed : AliveCorFile) : bool :=
  forallb
    (fun entry =>
       match findBlock parsed (fst entry) with
       | Some b => Nat.even (List.length (contents b))
       | None => true
       end)
    leadTable.

(** The result of decoding the blocks of a container-valid file, case by
    case, in the order in which the failures take precedence. *)
Definition outcome_of (parsed : AliveCorFile) : result AliveCorEcg :=
  match findBlock parsed "info" with
  | None => Throws MissingInfoBlock
  | Some bi =>
      match findBlock parsed "fmt " with
      | None => Throws MissingFormatBlock
      | Some bf =>
          match contents bf with
          | b0 :: b1 :: b2 :: b3 :: b4 :: flags :: b6 :: b7 :: _ =>
              if negb (annotation_ok parsed)
              then Throws MalformedAnnotationBlock
              else if negb (u8 b0 =? 1) then Throws UnsupportedFormat
              else if negb (leads_ok parsed) then Throws MalformedSignalBlock
              else
                Returns
                  {| fileVersion := "1.6";
                     info := info_record (contents bi);
                     format := format_record b0 b1 b2 b3 b4 flags b6 b7;
                     leads := present_leads parsed;
                     annotation :=
                       option_map (fun b => annotation_record (contents b))
                                  (findBlock parsed "ann ") |}
          | _ => Throws MalformedFormatBlock
          end
      end
  end.

(** Everything [parse] can throw. *)
Definition failures : list exn :=
  [ TruncatedBlock; InvalidSignature; UnsupportedVersion; MissingInfoBlock;
    MissingFormatBlock; MalformedFormatBlock; MalformedAnnotationBlock;
    UnsupportedFormat; MalformedSignalBlock ].

(** The bytes one block takes in the file: identifier, length field,
    content, checksum. *)
Definition block_size (b : AliveCorBlock) : nat :=
  (4 + 4 + Z.to_nat (length b) + 4)%nat.

(** At most one block carries the identifier [type]. *)
Definition at_most_one (type : string) (bs : list AliveCorBlock) : Prop :=
  (List.length (filter (fun b => strict_eq (identifier b) (lit type)) bs) <= 1)%nat.

End Spec.

(* ===================================================================== *)
(** ** The parser object across calls                                    *)
(* ===================================================================== *)

(** [createAliveCorEcgParser] builds its declarative parsers once; every
    call of the returned [parse] uses the same [Parser] objects.  A
    [Parser] object keeps one piece of state: [compiled], the function
    generated from its chain, undefined until the first [.parse(buffer)]:

      parse(buffer) { if (!this.compiled) this.compile();
                      return this.compiled(buffer, ...); }

    Here the state of the closure is passed explicitly: every function
    takes the state of the parser objects and returns the new one with its
    result, also when it throws.  [blockParser] is never called on its
    own (it is part of the chain of [fileParser]), so it has no call
    here. *)
Module Stateful.
Import JS BinaryParser AliveCor.

Record Parsers : Type := {
  leadBlockParser_compiled : option (Parser (list Z));
  annotationBlockParser_compiled : option (Parser AliveCorEcgAnnotation);
  infoBlockParser_compiled : option (Parser AliveCorEcgInfo);
  formatBlockParser_compiled : option (Parser AliveCorEcgFormat);
  blockParser_compiled : option (Parser AliveCorBlock);
  fileParser_compiled : option (Parser AliveCorFile)
}.

(** The parser objects as [createAliveCorEcgParser] leaves them: nothing
    compiled yet. *)
Definition createAliveCorEcgParser : Parsers :=
  {| leadBlockParser_compiled := None;
     annotationBlockParser_compiled := None;
     infoBlockParser_compiled := None;
     formatBlockParser_compiled := None;
     blockParser_compiled := None;
     fileParser_compiled := None |}.

(** A computation on the parser objects: a result and the objects after
    it. *)
Definition M (A : Type) : Type := Parsers -> result A * Parsers.

Definition ret {A : Type} (a : A) : M A := fun s => (Returns a, s).

Definition throw {A : Type} (e : exn) : M A := fun s => (Throws e, s).

Definition bind {A B : Type} (m : M A) (k : A -> M B) : M B :=
  fun s =>
    match m s with
    | (Returns a, s') => k a s'
    | (Throws e, s') => (Throws e, s')
    | (Hangs, s') => (Hangs, s')
    end.

Declare Scope stateful_scope.
Delimit Scope stateful_scope with stateful.
Notation "x <- m ;; k" := (bind m (fun x => k))
  (at level 61, m at next level, right associativity) : stateful_scope.

(** [p.parse(buf)] on a parser object: [compiled] is looked up through
    [get]; when it is undefined, [compile()] stores the function of the
    chain through [set] first. *)
Definition Parser_parse {A : Type}
           (get : Parsers -> option (Parser A))
           (set : Parser A -> Parsers -> Parsers)
           (name : string) (chain : Parser A) (buf : list byte) : M A :=
  fun s =>
    match get s with
    | Some compiled => (BinaryParser.parse name compiled buf, s)
    | None => (BinaryParser.parse name chain buf, set chain s)
    end.

Definition set_leadBlockParser (f : Parser (list Z)) (s : Parsers) : Parsers :=
  {| leadBlockParser_compiled := Some f;
     annotationBlockParser_compiled := annotationBlockParser_compiled s;
     infoBlockParser_compiled := infoBlockParser_compiled s;
     formatBlockParser_compiled := formatBlockParser_compiled s;
     blockParser_compiled := blockParser_compiled s;
     fileParser_compiled := fileParser_compiled s |}.

Definition set_annotationBlockParser (f : Parser AliveCorEcgAnnotation)
           (s : Parsers) : Parsers :=
  {| leadBlockParser_compiled := leadBlockParser_compiled s;
     annotationBlockParser_compiled := Some f;
     infoBlockParser_compiled := infoBlockParser_compiled s;
     formatBlockParser_compiled := formatBlockParser_compiled s;
     blockParser_compiled := blockParser_compiled s;
     fileParser_compiled := fileParser_compiled s |}.

Definition set_infoBlockParser (f : Parser AliveCorEcgInfo) (s : Parsers)
  : Parsers :=
  {| leadBlockParser_compiled := leadBlockParser_compiled s;
     annotationBlockParser_compiled := annotationBlockParser_compiled s;
     infoBlockParser_compiled := Some f;
     formatBlockParser_compiled := formatBlockParser_compiled s;
     blockParser_compiled := blockParser_compiled s;
     fileParser_compiled := fileParser_compiled s |}.

Definition set_formatBlockParser (f : Parser AliveCorEcgFormat) (s : Parsers)
  : Parsers :=
  {| leadBlockParser_compiled := leadBlockParser_compiled s;
     annotationBlockParser_compiled := annotationBlockParser_compiled s;
     infoBlockParser_compiled := infoBlockParser_compiled s;
     formatBlockParser_compiled := Some f;
     blockParser_compiled := blockParser_compiled s;
     fileParser_compiled := fileParser_compiled s |}.

Definition set_fileParser (f : Parser AliveCorFile) (s : Parsers) : Parsers :=
  {| leadBlockParser_compiled := leadBlockParser_compiled s;
     annotationBlockParser_compiled := annotationBlockParser_compiled s;
     infoBlockParser_compiled := infoBlockParser_compiled s;
     formatBlockParser_compiled := formatBlockParser_compiled s;
     blockParser_compiled := blockParser_compiled s;
     fileParser_compiled := Some f |}.

(** *** [parse] and its nested functions, on the parser objects *)

Definition parseFileWithBufferBlocks (input : list byte) : M AliveCorFile :=
  (parsed <- Parser_parse fileParser_compiled set_fileParser
               "fileParser" fileParser input ;;
   if negb (String.eqb (toString_hex (signature parsed)) "414c495645000000")
   then throw (Error "Not an AliveCor ECG file")
   else if negb (version parsed =? 4)
   then throw (Error "Unsupported AliveCor ECG file")
   else ret parsed)%stateful.

Definition parseInfoBlock (parsed : AliveCorFile) : M AliveCorEcgInfo :=
  match findBlock parsed "info" with
  | None => throw (Error "No info block in AliveCor ECG file")
  | Some infoBlock =>
      Parser_parse infoBlockParser_compiled set_infoBlockParser
        "infoBlockParser" infoBlockParser (contents infoBlock)
  end.

Definition parseFormatBlock (parsed : AliveCorFile) : M AliveCorEcgFormat :=
  match findBlock parsed "fmt " with
  | None => throw (Error "No format block in AliveCor ECG file")
  | Some formatBlock =>
      Parser_parse formatBlockParser_compiled set_formatBlockParser
        "formatBlockParser" formatBlockParser (contents formatBlock)
  end.

Definition parseAnnotationBlock (parsed : AliveCorFile)
  : M (option AliveCorEcgAnnotation) :=
  match findBlock parsed "ann " with
  | Some annotationBlock =>
      (a <- Parser_parse annotationBlockParser_compiled
              set_annotationBlockParser
              "annotationBlockParser" annotationBlockParser
              (contents annotationBlock) ;;
       ret (Some a))%stateful
  | None => ret None
  end.

Definition parseLeadBlock (parsed : AliveCorFile) (type : string)
  : M (option (list Z)) :=
  match findBlock parsed type with
  | Some leadBlock =>
      (data <- Parser_parse leadBlockParser_compiled set_leadBlockParser
                 "leadBlockParser" leadBlockParser (contents leadBlock) ;;
       ret (Some data))%stateful
  | None => ret None
  end.

Definition leadItem (parsed : AliveCorFile) (entry : string * string)
  : M (string * option (list Z)) :=
  let '(type, name) := entry in
  (data <- parseLeadBlock parsed type ;; ret (name, data))%stateful.

(** [xs.map(f)], left to right, on the parser objects. *)
Fixpoint mapM {A B : Type} (f : A -> M B) (xs : list A) : M (list B) :=
  match xs with
  | [] => ret []
  | x :: xs' =>
      (y <- f x ;; ys <- mapM f xs' ;; ret (y :: ys))%stateful
  end.

Definition parse (input : list byte) : M AliveCorEcg :=
  (parsed <- parseFileWithBufferBlocks input ;;
   info <- parseInfoBlock parsed ;;
   format <- parseFormatBlock parsed ;;
   annotation <- parseAnnotationBlock parsed ;;
   if negb (ecgFormat format =? 1)
   then throw (Error "Unsupported ECG Format in AliveCor ECG file")
   else
     items <- mapM (leadItem parsed) leadTable ;;
     ret {| fileVersion := "1.6";
            info := info;
            format := format;
            leads := collectLeads items;
            annotation := annotation |})%stateful.

(** The parser objects after the calls [parser.parse(i)] for the inputs
    [i] of [history], in that order, on a new parser. *)
Definition after (history : list (list byte)) : Parsers :=
  fold_left (fun s input => snd (parse input s)) history
            createAliveCorEcgParser.

(** What a run of [parser.parse(input)] gives after that history. *)
Definition run (history : list (list byte)) (input : list byte)
  : result AliveCorEcg :=
  fst (parse input (after history)).

(** Every compiled function is the function of its chain. *)
Definition coherent (s : Parsers) : Prop :=
  (leadBlockParser_compiled s = None
   \/ leadBlockParser_compiled s = Some leadBlockParser)
  /\ (annotationBlockParser_compiled s = None
      \/ annotationBlockParser_compiled s = Some annotationBlockParser)
  /\ (infoBlockParser_compiled s = None
      \/ infoBlockParser_compiled s = Some infoBlockParser)
  /\ (formatBlockParser_compiled s = None
      \/ formatBlockParser_compiled s = Some formatBlockParser)
  /\ (fileParser_compiled s = None
      \/ fileParser_compiled s = Some fileParser).

(** A computation gives the result [r] whatever the parser objects have
    compiled so far, and leaves them coherent. *)
Definition agrees {A : Type} (m : M A) (r : result A) : Prop :=
  forall s, coherent s -> fst (m s) = r /\ coherent (snd (m s)).

End Stateful.

(* ===================================================================== *)
(** ** Properties of the combinators                                     *)
(* ===================================================================== *)

Module BinaryParserFacts.
Import JS BinaryParser.

Lemma u8_range (b : byte) : 0 <= u8 b < 256.
Proof.
  unfold u8. pose proof (Byte.to_N_bounded b) as H. lia.
Qed.

Lemma lor_shiftl_add (a b k : Z) :
  0 <= k -> 0 <= a < 2 ^ k -> Z.lor a (Z.shiftl b k) = a + b * 2 ^ k.
Proof.
  intros Hk Ha.
  assert (Hland : Z.land a (Z.shiftl b k) = 0).
  { apply Z.bits_inj'. intros n Hn.
    rewrite Z.land_spec, Z.bits_0.
    destruct (Z.lt_ge_cases n k) as [Hlt | Hge].
    - rewrite (Z.shiftl_spec_low b k n Hlt). apply andb_false_r.
    - rewrite <- (Z.mod_small a (2 ^ k)) by lia.
      rewrite Z.mod_pow2_bits_high by lia. reflexivity. }
  pose proof (Z.add_lor_land a (Z.shiftl b k)) as Hadd.
  rewrite Hland, Z.shiftl_mul_pow2 in Hadd by lia.
  rewrite Z.shiftl_mul_pow2 by lia. lia.
Qed.

Lemma uint16_value (b0 b1 : byte) :
  Z.lor (u8 b0) (Z.shiftl (u8 b1) 8) = u8 b0 + 256 * u8 b1.
Proof.
  pose proof (u8_range b0).
  rewrite lor_shiftl_add by (change (2 ^ 8) with 256; lia).
  change (2 ^ 8) with 256. lia.
Qed.

Lemma uint32_value (b0 b1 b2 b3 : byte) :
  Z.lor (Z.lor (u8 b0) (Z.shiftl (u8 b1) 8))
        (Z.lor (Z.shiftl (u8 b2) 16) (Z.shiftl (u8 b3) 24))
  = u8 b0 + 256 * u8 b1 + 65536 * u8 b2 + 16777216 * u8 b3.
Proof.
  pose proof (u8_range b0). pose proof (u8_range b1).
  pose proof (u8_range b2). pose proof (u8_range b3).
  replace (Z.shiftl (u8 b3) 24) with (Z.shiftl (Z.shiftl (u8 b3) 8) 16)
    by (rewrite Z.shiftl_shiftl by lia; reflexivity).
  rewrite <- Z.shiftl_lor.
  rewrite !uint16_value.
  rewrite lor_shiftl_add by (change (2 ^ 16) with 65536; lia).
  change (2 ^ 16) with 65536. lia.
Qed.

Lemma uint16_range (b0 b1 : byte) :
  0 <= Z.lor (u8 b0) (Z.shiftl (u8 b1) 8) < 65536.
Proof.
  rewrite uint16_value. pose proof (u8_range b0). pose proof (u8_range b1). lia.
Qed.

(** *** The loop bound of [array_readUntil_eof] is never reached *)

Lemma array_loop_fuel {A : Type} (item : Parser A) :
  productive item ->
  forall n fuel buf,
    (List.length buf <= n)%nat -> (n <= fuel)%nat ->
    array_loop item fuel buf = array_loop item n buf.
Proof.
  intros Hprod n. induction n as [| n IH]; intros fuel buf Hlen Hfuel.
  - destruct buf; [| simpl in Hlen; lia]. destruct fuel; reflexivity.
  - destruct buf as [| b buf]; [destruct fuel; reflexivity |].
    destruct fuel as [| fuel]; [lia |].
    cbn [array_loop]. specialize (Hprod (b :: buf)).
    destruct (item (b :: buf)) as [a rest | |]; try reflexivity.
    cbn [List.length] in *. rewrite (IH fuel rest) by lia. reflexivity.
Qed.

(** The loop as the source has it: stop at the end of the buffer, otherwise
    read one element and go on. *)
Lemma array_readUntil_eof_unfold {A : Type} (item : Parser A) (buf : list byte) :
  productive item ->
  array_readUntil_eof item buf =
  match buf with
  | [] => Done [] []
  | _ :: _ =>
      match item buf with
      | Done a rest =>
          match array_readUntil_eof item rest with
          | Done l rest' => Done (a :: l) rest'
          | OutOfRange => OutOfRange
          | NoFuel => NoFuel
          end
      | OutOfRange => OutOfRange
      | NoFuel => NoFuel
      end
  end.
Proof.
  intros Hprod. unfold array_readUntil_eof.
  destruct buf as [| b buf]; [reflexivity |].
  cbn [List.length array_loop]. pose proof (Hprod (b :: buf)) as Hp.
  destruct (item (b :: buf)) as [a rest | |]; try reflexivity.
  cbn [List.length] in Hp.
  rewrite (array_loop_fuel item Hprod (List.length rest) (List.length buf) rest)
    by lia.
  reflexivity.
Qed.

Lemma array_readUntil_eof_terminates {A : Type} (item : Parser A) :
  productive item -> forall buf, array_readUntil_eof item buf <> NoFuel.
Proof.
  intros Hprod buf.
  remember (List.length buf) as n eqn:Hn.
  revert buf Hn. induction n as [n IH] using lt_wf_ind. intros buf Hn.
  rewrite array_readUntil_eof_unfold by assumption.
  destruct buf as [| b buf]; [discriminate |].
  pose proof (Hprod (b :: buf)) as Hp.
  destruct (item (b :: buf)) as [a rest | |]; try discriminate; try contradiction.
  specialize (IH (List.length rest) ltac:(lia) rest eq_refl).
  destruct (array_readUntil_eof item rest); try discriminate. contradiction.
Qed.

(** The loop ends at the end of the buffer. *)
Lemma array_readUntil_eof_rest {A : Type} (item : Parser A) :
  productive item ->
  forall buf l rest, array_readUntil_eof item buf = Done l rest -> rest = [].
Proof.
  intros Hprod buf.
  remember (List.length buf) as n eqn:Hn.
  revert buf Hn. induction n as [n IH] using lt_wf_ind. intros buf Hn l rest.
  rewrite array_readUntil_eof_unfold by assumption.
  destruct buf as [| b buf]; [intros [= _ <-]; reflexivity |].
  pose proof (Hprod (b :: buf)) as Hp.
  destruct (item (b :: buf)) as [a rest0 | |]; try discriminate.
  specialize (IH (List.length rest0) ltac:(lia) rest0 eq_refl).
  destruct (array_readUntil_eof item rest0) as [l0 r0 | |] eqn:E; try discriminate.
  intros [= _ <-]. eapply IH. reflexivity.
Qed.

End BinaryParserFacts.

(* ===================================================================== *)
(** ** Properties of the declarative parsers                             *)
(* ===================================================================== *)

Module ParserFacts.
Import JS BinaryParser AliveCor Spec BinaryParserFacts.

Lemma int16le_productive : productive int16le.
Proof.
  intros [| b0 [| b1 rest]]; cbn; try exact I. lia.
Qed.

Lemma tickParser_productive : productive tickParser.
Proof.
  intros [| b0 [| b1 [| b2 [| b3 [| b4 [| b5 rest]]]]]]; cbn; try exact I. lia.
Qed.

Lemma blockParser_productive : productive blockParser.
Proof.
  intros buf. unfold blockParser, BinaryParser.bind, string_fixed, buffer, ret.
  destruct (uint32le (skipn (Z.to_nat 4) buf)) as [len r1 | |] eqn:E1; try exact I.
  - destruct (uint32le (skipn (Z.to_nat len) r1)) as [cs r2 | |] eqn:E2; try exact I.
    + assert (Hread : forall b v r, uint32le b = Done v r ->
                (List.length r < List.length b)%nat).
      { intros [| c0 [| c1 [| c2 [| c3 r]]]] v r'; cbn; try discriminate.
        intros [= _ <-]. cbn. lia. }
      apply Hread in E1, E2.
      pose proof (length_skipn (Z.to_nat 4) buf).
      pose proof (length_skipn (Z.to_nat len) r1). lia.
    + destruct (skipn (Z.to_nat len) r1) as [| c0 [| c1 [| c2 [| c3 r]]]];
        discriminate.
  - destruct (skipn (Z.to_nat 4) buf) as [| c0 [| c1 [| c2 [| c3 r]]]];
      discriminate.
Qed.

(** *** [leadBlockParser] *)

Lemma leadBlockParser_unfold (buf : list byte) :
  leadBlockParser buf =
  match buf with
  | [] => Done [] []
  | [_] => OutOfRange
  | lo :: hi :: rest =>
      match leadBlockParser rest with
      | Done l rest' => Done (to_int16 (u8 lo + 256 * u8 hi) :: l) rest'
      | OutOfRange => OutOfRange
      | NoFuel => NoFuel
      end
  end.
Proof.
  unfold leadBlockParser.
  rewrite array_readUntil_eof_unfold by exact int16le_productive.
  destruct buf as [| lo [| hi rest]]; try reflexivity.
  unfold int16le, uint16le. cbv beta iota. rewrite uint16_value. reflexivity.
Qed.

Lemma leadBlockParser_spec (content : list byte) :
  leadBlockParser content =
  if Nat.even (List.length content)
  then Done (int16_samples content) []
  else OutOfRange.
Proof.
  remember (List.length content) as n eqn:Hn.
  revert content Hn. induction n as [n IH] using lt_wf_ind. intros content Hn.
  rewrite leadBlockParser_unfold.
  destruct content as [| lo [| hi rest]]; subst n; try reflexivity.
  rewrite (IH (List.length rest) ltac:(cbn; lia) rest eq_refl).
  cbn [List.length Nat.even].
  destruct (Nat.even (List.length rest)); reflexivity.
Qed.

Lemma int16_samples_length (content : list byte) :
  Nat.even (List.length content) = true ->
  (2 * List.length (int16_samples content) = List.length content)%nat.
Proof.
  remember (List.length content) as n eqn:Hn.
  revert content Hn. induction n as [n IH] using lt_wf_ind. intros content Hn.
  destruct content as [| lo [| hi rest]]; subst n; try reflexivity; try discriminate.
  cbn [List.length Nat.even int16_samples]. intros He.
  specialize (IH (List.length rest) ltac:(cbn; lia) rest eq_refl He). lia.
Qed.

Lemma int16_samples_range (content : list byte) :
  Forall (fun s => -32768 <= s < 32768) (int16_samples content).
Proof.
  remember (List.length content) as n eqn:Hn.
  revert content Hn. induction n as [n IH] using lt_wf_ind. intros content Hn.
  destruct content as [| lo [| hi rest]]; subst n; try constructor.
  - unfold to_int16. pose proof (u8_range lo). pose proof (u8_range hi).
    destruct (Z.ltb_spec (u8 lo + 256 * u8 hi) 32768); lia.
  - apply (IH (List.length rest)); [cbn; lia | reflexivity].
Qed.

(** *** [annotationBlockParser] *)

Lemma ticks_unfold (buf : list byte) :
  array_readUntil_eof tickParser buf =
  match buf with
  | [] => Done [] []
  | o0 :: o1 :: o2 :: o3 :: t0 :: t1 :: rest =>
      match array_readUntil_eof tickParser rest with
      | Done l rest' =>
          Done ({| offset := u8 o0 + 256 * u8 o1 + 65536 * u8 o2
                             + 16777216 * u8 o3;
                   beatType := u8 t0 + 256 * u8 t1 |} :: l) rest'
      | OutOfRange => OutOfRange
      | NoFuel => NoFuel
      end
  | _ => OutOfRange
  end.
Proof.
  rewrite array_readUntil_eof_unfold by exact tickParser_productive.
  destruct buf as [| o0 [| o1 [| o2 [| o3 [| t0 [| t1 rest]]]]]]; try reflexivity.
  unfold tickParser, BinaryParser.bind, uint32le, uint16le, ret. cbv beta iota.
  rewrite uint32_value, uint16_value. reflexivity.
Qed.

Lemma ticks_spec (buf : list byte) :
  array_readUntil_eof tickParser buf =
  if Z.of_nat (List.length buf) mod 6 =? 0
  then Done (tick_records buf) []
  else OutOfRange.
Proof.
  remember (List.length buf) as n eqn:Hn.
  revert buf Hn. induction n as [n IH] using lt_wf_ind. intros buf Hn.
  rewrite ticks_unfold.
  destruct buf as [| o0 [| o1 [| o2 [| o3 [| t0 [| t1 rest]]]]]];
    subst n; try reflexivity.
  rewrite (IH (List.length rest) ltac:(cbn; lia) rest eq_refl).
  replace (Z.of_nat (List.length (o0 :: o1 :: o2 :: o3 :: t0 :: t1 :: rest)) mod 6)
    with (Z.of_nat (List.length rest) mod 6).
  - destruct (Z.of_nat (List.length rest) mod 6 =? 0); reflexivity.
  - cbn [List.length].
    replace (Z.of_nat (S (S (S (S (S (S (List.length rest))))))))
      with (Z.of_nat (List.length rest) + 1 * 6) by lia.
    rewrite Z.mod_add by lia. reflexivity.
Qed.

Lemma annotationBlockParser_spec (content : list byte) :
  annotationBlockParser content =
  match content with
  | f0 :: f1 :: f2 :: f3 :: records =>
      if Z.of_nat (List.length records) mod 6 =? 0
      then Done {| tickCountFrequencyHz :=
                     u8 f0 + 256 * u8 f1 + 65536 * u8 f2 + 16777216 * u8 f3;
                   ticks := tick_records records |} []
      else OutOfRange
  | _ => OutOfRange
  end.
Proof.
  unfold annotationBlockParser, BinaryParser.bind.
  destruct content as [| f0 [| f1 [| f2 [| f3 records]]]]; try reflexivity.
  unfold uint32le. cbv beta iota. rewrite ticks_spec, uint32_value.
  destruct (Z.of_nat (List.length records) mod 6 =? 0); reflexivity.
Qed.

(** *** [infoBlockParser] never fails *)

Lemma infoBlockParser_spec (content : list byte) :
  infoBlockParser content =
  Done {| dateRecorded := info_field content 0 32;
          recordingUuid := info_field content 32 40;
          mobilePhoneUuid := info_field content 72 44;
          mobilePhoneModel := info_field content 116 32;
          recorderSoftware := info_field content 148 32;
          recorderHardware := info_field content 180 32;
          deviceData := info_field content 212 52 |}
       (skipn 264 content).
Proof.
  unfold infoBlockParser, BinaryParser.bind, string_stripNull, string_fixed, ret,
    info_field, trimString.
  change (Z.to_nat 32) with 32%nat. change (Z.to_nat 40) with 40%nat.
  change (Z.to_nat 44) with 44%nat. change (Z.to_nat 52) with 52%nat.
  rewrite !skipn_skipn. change (skipn 0 content) with content.
  cbn [Nat.add]. reflexivity.
Qed.

(** *** Sample decodings *)

(** A null-padded date with spaces before the padding is trimmed. *)
Example dateRecorded_trimmed :
  info_field (Wire.padded "2020-01-01  " 32) 0 32 = lit "2020-01-01".
Proof. vm_compute. reflexivity. Qed.

(** Only the nulls at the end of a field are removed. *)
Example inner_null_kept :
  info_field [x61; x00; x62; x00; x00] 0 32 = [97; 0; 98].
Proof. vm_compute. reflexivity. Qed.

(** Flags byte 0x02: the mains frequency bit is set, the polarity bit is
    not. *)
Example mainsFrequency_60 :
  formatBlockParser [x01; x2c; x01; xe8; x03; x02; x00; x00]
  = Done {| ecgFormat := 1; samplingRateHz := 300;
            amplitudeResolutionNV := 1000; polarity := Num 0;
            mainsFrequency := Num 60; mainsFilter := Boolean false;
            lowPassFilter := Boolean false; baseLineFilter := Boolean false;
            notchMainsFilter := Boolean false; enhancedFilter := Boolean false;
            unused := Num 0; reserved := 0 |} [].
Proof. vm_compute. reflexivity. Qed.

(** Fewer than eight bytes of format content. *)
Example format_too_short :
  BinaryParser.parse "formatBlockParser" formatBlockParser
    [x01; x2c; x01; xe8; x03; x02; x00]
  = Throws MalformedFormatBlock.
Proof. vm_compute. reflexivity. Qed.

End ParserFacts.

(* ===================================================================== *)
(** ** The container reader                                              *)
(* ===================================================================== *)

Module ContainerFacts.
Import JS BinaryParser AliveCor Wire Spec BinaryParserFacts ParserFacts.

Lemma to_N_inj (x y : byte) : Byte.to_N x = Byte.to_N y -> x = y.
Proof.
  intros H. pose proof (Byte.of_to_N x) as Hx. rewrite H, Byte.of_to_N in Hx.
  congruence.
Qed.

Lemma hexdigit_inj (m n : N) :
  (m < 16)%N -> (n < 16)%N -> hexdigit m = hexdigit n -> m = n.
Proof.
  intros Hm Hn.
  assert (Em : In m [0; 1; 2; 3; 4; 5; 6; 7; 8; 9; 10; 11; 12; 13; 14; 15]%N).
  { cbn. lia. }
  assert (En : In n [0; 1; 2; 3; 4; 5; 6; 7; 8; 9; 10; 11; 12; 13; 14; 15]%N).
  { cbn. lia. }
  cbn in Em, En.
  repeat (destruct Em as [<- | Em]; [| ]);
    try contradiction;
    repeat (destruct En as [<- | En]; [| ]);
    try contradiction; cbn; intros H; try reflexivity; discriminate H.
Qed.

Lemma toString_hex_inj (a b : list byte) :
  toString_hex a = toString_hex b -> a = b.
Proof.
  revert b. induction a as [| x a IH]; intros [| y b]; cbn; try discriminate.
  - reflexivity.
  - intros [= Hhi Hlo Hrest].
    pose proof (Byte.to_N_bounded x). pose proof (Byte.to_N_bounded y).
    apply hexdigit_inj in Hhi;
      [| apply N.Div0.div_lt_upper_bound; lia
       | apply N.Div0.div_lt_upper_bound; lia].
    apply hexdigit_inj in Hlo; [| apply N.mod_lt; lia | apply N.mod_lt; lia].
    f_equal; [| apply IH; assumption].
    apply to_N_inj.
    rewrite (N.div_mod (Byte.to_N x) 16), (N.div_mod (Byte.to_N y) 16) by lia.
    congruence.
Qed.

(** The signature test of [parseFileWithBufferBlocks], on bytes. *)
Lemma signature_test (sig : list byte) :
  String.eqb (toString_hex sig) "414c495645000000" = true <-> sig = ALIVE.
Proof.
  rewrite String.eqb_eq. split.
  - intros H. apply toString_hex_inj. exact H.
  - intros ->. reflexivity.
Qed.

Lemma fileParser_unfold (input : list byte) :
  fileParser input =
  match uint32le (skipn 8 input) with
  | Done version r =>
      match array_readUntil_eof blockParser r with
      | Done blocks rest =>
          Done {| signature := firstn 8 input;
                  version := version;
                  blocks := blocks |} rest
      | OutOfRange => OutOfRange
      | NoFuel => NoFuel
      end
  | OutOfRange => OutOfRange
  | NoFuel => NoFuel
  end.
Proof. reflexivity. Qed.

Lemma fileParser_signature (input : list byte) (parsed : AliveCorFile) :
  BinaryParser.parse "fileParser" fileParser input = Returns parsed ->
  signature parsed = firstn 8 input.
Proof.
  unfold BinaryParser.parse. rewrite fileParser_unfold.
  destruct (uint32le (skipn 8 input)) as [v r | |]; try discriminate.
  destruct (array_readUntil_eof blockParser r) as [bs rest | |]; try discriminate.
  intros [= <-]. reflexivity.
Qed.

Lemma fileParser_terminates (input : list byte) : fileParser input <> NoFuel.
Proof.
  rewrite fileParser_unfold.
  destruct (uint32le (skipn 8 input)) as [v r | |] eqn:E; try discriminate.
  - pose proof (array_readUntil_eof_terminates blockParser
                  blockParser_productive r) as H.
    destruct (array_readUntil_eof blockParser r); try discriminate. contradiction.
  - destruct (skipn 8 input) as [| c0 [| c1 [| c2 [| c3 r]]]]; discriminate.
Qed.

(** What [parseFileWithBufferBlocks] does with the object of [fileParser]. *)
Lemma parseFileWithBufferBlocks_spec (input : list byte) :
  parseFileWithBufferBlocks input =
  match BinaryParser.parse "fileParser" fileParser input with
  | Returns parsed =>
      if negb (String.eqb (toString_hex (firstn 8 input)) "414c495645000000")
      then Throws InvalidSignature
      else if negb (version parsed =? 4) then Throws UnsupportedVersion
      else Returns parsed
  | Throws e => Throws e
  | Hangs => Hangs
  end.
Proof.
  unfold parseFileWithBufferBlocks, JS.bind.
  destruct (BinaryParser.parse "fileParser" fileParser input) as [parsed | |] eqn:E;
    try reflexivity.
  rewrite (fileParser_signature input parsed E). reflexivity.
Qed.

Lemma container_valid_inv (input : list byte) (parsed : AliveCorFile) :
  container_valid input parsed ->
  BinaryParser.parse "fileParser" fileParser input = Returns parsed
  /\ firstn 8 input = ALIVE /\ version parsed = 4.
Proof.
  unfold container_valid. rewrite parseFileWithBufferBlocks_spec.
  destruct (BinaryParser.parse "fileParser" fileParser input) as [p | |];
    try discriminate.
  destruct (String.eqb (toString_hex (firstn 8 input)) "414c495645000000") eqn:Es;
    cbn [negb]; try discriminate.
  destruct (version p =? 4) eqn:Ev; cbn [negb]; try discriminate.
  intros [= <-]. repeat split.
  - apply signature_test. exact Es.
  - apply Z.eqb_eq. exact Ev.
Qed.

(** *** Reading back what [Wire] lays out *)

Lemma u8_byte_of (z : Z) : u8 (byte_of z) = z mod 256.
Proof.
  unfold u8, byte_of.
  pose proof (Z.mod_pos_bound z 256 ltac:(lia)) as Hb.
  destruct (Byte.of_N (Z.to_N (z mod 256))) as [b |] eqn:E.
  - apply Byte.to_of_N in E. rewrite E. lia.
  - apply Byte.of_N_None_iff in E. lia.
Qed.

Lemma uint32le_le32 (n : Z) (rest : list byte) :
  uint32le (le32 n ++ rest) = Done (n mod 2 ^ 32) rest.
Proof.
  unfold le32. cbn [app]. unfold uint32le.
  rewrite uint32_value, !u8_byte_of. f_equal.
  change (2 ^ 32) with 4294967296.
  Z.div_mod_to_equations. lia.
Qed.

Lemma skipn_app_exact {A : Type} (n : nat) (a l : list A) :
  List.length a = n -> skipn n (a ++ l) = l.
Proof.
  intros <-. rewrite skipn_app, skipn_all, Nat.sub_diag. reflexivity.
Qed.

Lemma firstn_app_exact {A : Type} (n : nat) (a l : list A) :
  List.length a = n -> firstn n (a ++ l) = a.
Proof.
  intros <-. rewrite firstn_app, firstn_all, Nat.sub_diag, firstn_0.
  apply app_nil_r.
Qed.

Lemma blockParser_block (b : RawBlock) (rest : list byte) :
  well_formed b ->
  blockParser (block b ++ rest) = Done (decoded b) rest.
Proof.
  intros [Htag Hlen]. unfold block, blockParser, BinaryParser.bind, string_fixed,
    buffer, ret, decoded.
  change (Z.to_nat 4) with 4%nat.
  rewrite <- !app_assoc.
  rewrite (skipn_app_exact 4 (tag b)), (firstn_app_exact 4 (tag b)) by exact Htag.
  rewrite uint32le_le32.
  rewrite (Z.mod_small (Z.of_nat (List.length (content b)))) by lia.
  rewrite Nat2Z.id.
  rewrite (skipn_app_exact _ (content b)), (firstn_app_exact _ (content b))
    by reflexivity.
  rewrite uint32le_le32. reflexivity.
Qed.

Lemma blocks_flat_map (bs : list RawBlock) (tail : list AliveCorBlock)
      (rest : list byte) :
  Forall well_formed bs ->
  array_readUntil_eof blockParser rest = Done tail [] ->
  array_readUntil_eof blockParser (flat_map block bs ++ rest)
  = Done (map decoded bs ++ tail) [].
Proof.
  intros Hwf Hrest. induction Hwf as [| b bs Hb Hbs IH]; [exact Hrest |].
  cbn [flat_map map app]. rewrite <- app_assoc.
  rewrite array_readUntil_eof_unfold by exact blockParser_productive.
  rewrite blockParser_block by assumption. rewrite IH.
  destruct (block b ++ flat_map block bs ++ rest) eqn:E; [| reflexivity].
  exfalso. destruct Hb as [Htag _]. unfold block in E.
  destruct (tag b); [discriminate Htag | discriminate E].
Qed.

(** The container round trip. *)
Lemma fileParser_file (sig : list byte) (version : Z) (bs : list RawBlock) :
  List.length sig = 8%nat -> Forall well_formed bs ->
  fileParser (file sig version bs)
  = Done {| signature := sig;
            version := version mod 2 ^ 32;
            blocks := map decoded bs |} [].
Proof.
  intros Hsig Hwf. rewrite fileParser_unfold. unfold file.
  rewrite (skipn_app_exact 8 sig), (firstn_app_exact 8 sig) by exact Hsig.
  rewrite uint32le_le32.
  rewrite <- (app_nil_r (flat_map block bs)).
  rewrite (blocks_flat_map bs [] []) by (assumption || reflexivity).
  rewrite app_nil_r. reflexivity.
Qed.

End ContainerFacts.

(* ===================================================================== *)
(** ** The assembler                                                     *)
(* ===================================================================== *)

Module AssemblerFacts.
Import JS BinaryParser AliveCor Wire Spec BinaryParserFacts ParserFacts
  ContainerFacts.

Lemma strict_eq_spec (a b : jsstring) : strict_eq a b = true <-> a = b.
Proof.
  revert b. induction a as [| x a IH]; intros [| y b]; cbn; split;
    try discriminate; try reflexivity.
  - intros H. apply andb_true_iff in H as [Hx Hab].
    apply Z.eqb_eq in Hx. apply IH in Hab. congruence.
  - intros [= -> ->]. rewrite Z.eqb_refl. apply IH. reflexivity.
Qed.

(** [Array.prototype.find]: the first element that satisfies the test. *)
Lemma find_first {A : Type} (p : A -> bool) (l : list A) :
  match find p l with
  | Some x =>
      exists before after,
        l = before ++ x :: after /\ p x = true
        /\ Forall (fun y => p y = false) before
  | None => Forall (fun y => p y = false) l
  end.
Proof.
  induction l as [| a l IH]; cbn; [constructor |].
  destruct (p a) eqn:Ea.
  - exists [], l. repeat split; [assumption | constructor].
  - destruct (find p l) as [x |].
    + destruct IH as (before & after & -> & Hx & Hb).
      exists (a :: before), after. repeat split; [assumption |].
      constructor; assumption.
    + constructor; assumption.
Qed.

Lemma find_skip {A : Type} (p : A -> bool) (before after : list A) (x : A) :
  p x = false -> find p (before ++ x :: after) = find p (before ++ after).
Proof.
  intros Hx. induction before as [| a before IH]; cbn.
  - rewrite Hx. reflexivity.
  - destruct (p a); [reflexivity | exact IH].
Qed.

(** *** The four lookups *)

Lemma parseInfoBlock_spec (parsed : AliveCorFile) :
  parseInfoBlock parsed =
  match findBlock parsed "info" with
  | None => Throws MissingInfoBlock
  | Some b =>
      Returns {| dateRecorded := info_field (contents b) 0 32;
                 recordingUuid := info_field (contents b) 32 40;
                 mobilePhoneUuid := info_field (contents b) 72 44;
                 mobilePhoneModel := info_field (contents b) 116 32;
                 recorderSoftware := info_field (contents b) 148 32;
                 recorderHardware := info_field (contents b) 180 32;
                 deviceData := info_field (contents b) 212 52 |}
  end.
Proof.
  unfold parseInfoBlock. destruct (findBlock parsed "info") as [b |];
    [| reflexivity].
  unfold BinaryParser.parse. rewrite infoBlockParser_spec. reflexivity.
Qed.

Lemma parseLeadBlock_spec (parsed : AliveCorFile) (type : string) :
  parseLeadBlock parsed type =
  match findBlock parsed type with
  | Some b =>
      if Nat.even (List.length (contents b))
      then Returns (Some (int16_samples (contents b)))
      else Throws MalformedSignalBlock
  | None => Returns None
  end.
Proof.
  unfold parseLeadBlock. destruct (findBlock parsed type) as [b |];
    [| reflexivity].
  unfold BinaryParser.parse. rewrite leadBlockParser_spec.
  destruct (Nat.even (List.length (contents b))); reflexivity.
Qed.

Lemma parseAnnotationBlock_spec (parsed : AliveCorFile) :
  parseAnnotationBlock parsed =
  match findBlock parsed "ann " with
  | Some b =>
      match contents b with
      | f0 :: f1 :: f2 :: f3 :: records =>
          if Z.of_nat (List.length records) mod 6 =? 0
          then Returns (Some {| tickCountFrequencyHz := u32_value f0 f1 f2 f3;
                                ticks := tick_records records |})
          else Throws MalformedAnnotationBlock
      | _ => Throws MalformedAnnotationBlock
      end
  | None => Returns None
  end.
Proof.
  unfold parseAnnotationBlock. destruct (findBlock parsed "ann ") as [b |];
    [| reflexivity].
  unfold BinaryParser.parse. rewrite annotationBlockParser_spec.
  destruct (contents b) as [| f0 [| f1 [| f2 [| f3 records]]]]; try reflexivity.
  destruct (Z.of_nat (List.length records) mod 6 =? 0); reflexivity.
Qed.

Lemma formatBlockParser_terminates (buf : list byte) :
  formatBlockParser buf <> NoFuel.
Proof.
  destruct buf as [| b0 [| b1 [| b2 [| b3 [| b4 [| b5 [| b6 [| b7 r]]]]]]]];
    discriminate.
Qed.

(** *** The lead table *)

Lemma leadItems_ok (parsed : AliveCorFile) (table : list (string * string)) :
  (forall type name b,
      In (type, name) table -> findBlock parsed type = Some b ->
      Nat.even (List.length (contents b)) = true) ->
  mapM (leadItem parsed) table
  = Returns (map (fun e => (snd e, lead_data parsed (fst e))) table).
Proof.
  induction table as [| [type name] table IH]; intros H; [reflexivity |].
  cbn [mapM map leadItem fst snd]. rewrite parseLeadBlock_spec.
  unfold lead_data at 1.
  destruct (findBlock parsed type) as [b |] eqn:Eb.
  - rewrite (H type name b (or_introl eq_refl) Eb). cbn [JS.bind option_map].
    rewrite IH by (intros t n b' Hin; apply (H t n b'); right; exact Hin).
    reflexivity.
  - cbn [JS.bind option_map].
    rewrite IH by (intros t n b' Hin; apply (H t n b'); right; exact Hin).
    reflexivity.
Qed.

Lemma leadItems_odd (parsed : AliveCorFile) (table : list (string * string))
      (type name : string) (b : AliveCorBlock) :
  In (type, name) table -> findBlock parsed type = Some b ->
  Nat.even (List.length (contents b)) = false ->
  mapM (leadItem parsed) table = Throws MalformedSignalBlock.
Proof.
  intros Hin Hb Hodd. induction table as [| [t n] table IH]; [contradiction |].
  cbn [mapM leadItem]. rewrite parseLeadBlock_spec.
  destruct Hin as [[= -> ->] | Hin].
  - rewrite Hb, Hodd. reflexivity.
  - destruct (findBlock parsed t) as [b' |].
    + destruct (Nat.even (List.length (contents b'))); [| reflexivity].
      cbn [JS.bind]. rewrite (IH Hin). reflexivity.
    + cbn [JS.bind]. rewrite (IH Hin). reflexivity.
Qed.

Lemma leadItems_terminates (parsed : AliveCorFile) (table : list (string * string)) :
  mapM (leadItem parsed) table <> Hangs.
Proof.
  induction table as [| [t n] table IH]; [discriminate |].
  cbn [mapM leadItem]. rewrite parseLeadBlock_spec.
  destruct (findBlock parsed t) as [b' |].
  - destruct (Nat.even (List.length (contents b'))); [| discriminate].
    cbn [JS.bind]. destruct (mapM (leadItem parsed) table); try discriminate.
    contradiction.
  - cbn [JS.bind]. destruct (mapM (leadItem parsed) table); try discriminate.
    contradiction.
Qed.

(** *** The [leads] object *)

Lemma lookup_assign {V : Type} (acc : list (string * V)) (k n : string) (v : V) :
  lookup n (assign acc k v) = if String.eqb k n then Some v else lookup n acc.
Proof.
  induction acc as [| [k' w] acc IH]; cbn.
  - reflexivity.
  - destruct (String.eqb k' k) eqn:Ek; cbn.
    + apply String.eqb_eq in Ek. subst k'.
      destruct (String.eqb k n); reflexivity.
    + rewrite IH. destruct (String.eqb k' n) eqn:En; [| reflexivity].
      apply String.eqb_eq in En. subst k'.
      rewrite String.eqb_sym in Ek. rewrite Ek. reflexivity.
Qed.

Lemma collectLeads_no_filter (items : list (string * option (list Z)))
      (acc : AliveCorEcgLeads) :
  fold_left
    (fun acc i => match snd i with Some data => assign acc (fst i) data
                              | None => acc end)
    (filter (fun i => truthy_data (snd i)) items) acc
  = fold_left
      (fun acc i => match snd i with Some data => assign acc (fst i) data
                                | None => acc end)
      items acc.
Proof.
  revert acc. induction items as [| [k [d |]] items IH]; intros acc; cbn.
  - reflexivity.
  - apply IH.
  - apply IH.
Qed.

Lemma lookup_fold (items : list (string * option (list Z)))
      (acc : AliveCorEcgLeads) (n : string) :
  NoDup (map fst items) ->
  lookup n
    (fold_left
       (fun acc i => match snd i with Some data => assign acc (fst i) data
                                 | None => acc end)
       items acc)
  = match lookup n items with
    | Some (Some d) => Some d
    | _ => lookup n acc
    end.
Proof.
  revert acc. induction items as [| [k d] items IH]; intros acc Hnd;
    [reflexivity |].
  cbn [map fst] in Hnd. apply NoDup_cons_iff in Hnd as [Hk Hnd].
  cbn [fold_left snd fst lookup]. rewrite IH by exact Hnd.
  destruct (String.eqb k n) eqn:Ek.
  - apply String.eqb_eq in Ek. subst k.
    assert (Hnone : lookup n items = None).
    { clear -Hk. induction items as [| [k' d'] items IH]; [reflexivity |].
      cbn in *. destruct (String.eqb k' n) eqn:E.
      - apply String.eqb_eq in E. tauto.
      - apply IH. tauto. }
    rewrite Hnone. destruct d as [d |]; [| reflexivity].
    rewrite lookup_assign, String.eqb_refl. reflexivity.
  - destruct (lookup n items) as [[d' |] |]; try reflexivity.
    + destruct d as [d |]; [| reflexivity].
      rewrite lookup_assign, Ek. reflexivity.
    + destruct d as [d |]; [| reflexivity].
      rewrite lookup_assign, Ek. reflexivity.
Qed.

Lemma lookup_collectLeads (parsed : AliveCorFile) (type name : string) :
  In (type, name) leadTable ->
  lookup name
    (collectLeads (map (fun e => (snd e, lead_data parsed (fst e))) leadTable))
  = lead_data parsed type.
Proof.
  intros Hin. unfold collectLeads.
  rewrite collectLeads_no_filter, lookup_fold.
  - cbn in Hin.
    repeat (destruct Hin as [[= <- <-] | Hin];
            [cbn; destruct (lead_data parsed _); reflexivity |]).
    contradiction.
  - cbn. repeat constructor; cbn; intuition discriminate.
Qed.

End AssemblerFacts.

(* ===================================================================== *)
(** ** [parse] as a whole                                                *)
(* ===================================================================== *)

Module DecodeFacts.
Import JS BinaryParser AliveCor Wire Spec BinaryParserFacts ParserFacts
  ContainerFacts AssemblerFacts.

Lemma assemble_terminates (parsed : AliveCorFile) : assemble parsed <> Hangs.
Proof.
  unfold assemble. rewrite parseInfoBlock_spec.
  destruct (findBlock parsed "info") as [bi |]; [| discriminate].
  cbn [JS.bind]. unfold parseFormatBlock.
  destruct (findBlock parsed "fmt ") as [bf |]; [| discriminate].
  unfold BinaryParser.parse at 1.
  pose proof (formatBlockParser_terminates (contents bf)) as Hf.
  destruct (formatBlockParser (contents bf)) as [f r | |];
    try discriminate; try contradiction.
  cbn [JS.bind]. rewrite parseAnnotationBlock_spec.
  assert (Hgo : forall (i : AliveCorEcgInfo) (a : option AliveCorEcgAnnotation),
             (if negb (ecgFormat f =? 1)
              then Throws (Error "Unsupported ECG Format in AliveCor ECG file")
              else
                (items <- mapM (leadItem parsed) leadTable ;;
                 Returns {| fileVersion := "1.6"; info := i; format := f;
                            leads := collectLeads items;
                            annotation := a |})%result) <> Hangs).
  { intros i a. destruct (negb (ecgFormat f =? 1)); [discriminate |].
    pose proof (leadItems_terminates parsed leadTable) as Hl.
    destruct (mapM (leadItem parsed) leadTable); try discriminate. contradiction. }
  destruct (findBlock parsed "ann ") as [ba |]; [| apply Hgo].
  destruct (contents ba) as [| f0 [| f1 [| f2 [| f3 records]]]]; try discriminate.
  destruct (Z.of_nat (List.length records) mod 6 =? 0); [apply Hgo | discriminate].
Qed.

Lemma parse_terminates (input : list byte) : parse input <> Hangs.
Proof.
  unfold parse. rewrite parseFileWithBufferBlocks_spec.
  unfold BinaryParser.parse. pose proof (fileParser_terminates input) as Hf.
  destruct (fileParser input) as [parsed r | |]; try discriminate;
    try contradiction.
  destruct (negb _); [discriminate |].
  destruct (negb _); [discriminate |].
  cbn [JS.bind]. apply assemble_terminates.
Qed.

(** [parse] on a file given by its parts. *)
Lemma parse_file (sig : list byte) (version : Z) (bs : list RawBlock) :
  List.length sig = 8%nat -> Forall well_formed bs ->
  parse (file sig version bs) =
  if negb (String.eqb (toString_hex sig) "414c495645000000")
  then Throws InvalidSignature
  else if negb (version mod 2 ^ 32 =? 4) then Throws UnsupportedVersion
  else assemble {| signature := sig;
                   version := version mod 2 ^ 32;
                   blocks := map decoded bs |}.
Proof.
  intros Hsig Hwf. unfold parse, parseFileWithBufferBlocks, BinaryParser.parse.
  rewrite fileParser_file by assumption. cbn [JS.bind signature AliveCor.version].
  destruct (negb (String.eqb (toString_hex sig) "414c495645000000"));
    [reflexivity |].
  destruct (negb (version mod 2 ^ 32 =? 4)); reflexivity.
Qed.

Lemma container_valid_file (sig : list byte) (version : Z) (bs : list RawBlock) :
  sig = ALIVE -> version mod 2 ^ 32 = 4 -> Forall well_formed bs ->
  container_valid (file sig version bs)
    {| signature := ALIVE; version := 4; blocks := map decoded bs |}.
Proof.
  intros -> Hv Hwf. unfold container_valid, parseFileWithBufferBlocks,
    BinaryParser.parse.
  rewrite fileParser_file by (assumption || reflexivity).
  rewrite Hv. reflexivity.
Qed.

(** A container-valid input is decoded by [assemble]. *)
Lemma parse_container_valid (input : list byte) (parsed : AliveCorFile) :
  container_valid input parsed -> parse input = assemble parsed.
Proof.
  unfold container_valid, parse. intros ->. reflexivity.
Qed.

(** [assemble] once the three singleton blocks are decoded and the format
    is the supported one. *)
Lemma assemble_leads_stage (parsed : AliveCorFile) (i : AliveCorEcgInfo)
      (f : AliveCorEcgFormat) (a : option AliveCorEcgAnnotation) :
  parseInfoBlock parsed = Returns i ->
  parseFormatBlock parsed = Returns f ->
  parseAnnotationBlock parsed = Returns a ->
  ecgFormat f = 1 ->
  assemble parsed =
  (items <- mapM (leadItem parsed) leadTable ;;
   Returns {| fileVersion := "1.6"; info := i; format := f;
              leads := collectLeads items; annotation := a |})%result.
Proof.
  intros Hi Hf Ha H1. unfold assemble. rewrite Hi, Hf, Ha. cbn [JS.bind].
  rewrite H1. reflexivity.
Qed.

End DecodeFacts.

(* ===================================================================== *)
(** ** Identifiers are compared byte for byte                            *)
(* ===================================================================== *)

(** [b.identifier] is decoded text, and [===] compares text.  For an ASCII
    tag this is the comparison of the four identifier bytes: the decoder
    copies every byte below 0x80 and produces only code units from 0x80 up
    out of the others. *)
Module TextFacts.
Import JS BinaryParser AliveCor Wire Spec BinaryParserFacts ContainerFacts.

(** Decide one comparison of the goal and drop the impossible branch. *)
Ltac split_cmp :=
  first
    [ match goal with |- context [(?lo <=? ?hi)] => destruct (Z.leb_spec lo hi) end
    | match goal with |- context [(?lo <? ?hi)] => destruct (Z.ltb_spec lo hi) end
    | match goal with |- context [(?x =? ?y)] => destruct (Z.eqb_spec x y) end ];
  try (exfalso; lia).

Lemma utf8_lead_ascii (b : Z) :
  0 <= b ->
  utf8_pending (snd (utf8_lead b))
  /\ filter below128 (fst (utf8_lead b)) = (if below128 b then [b] else [])
  /\ Forall (fun cp => 0 <= cp) (fst (utf8_lead b)).
Proof.
  intros Hb. unfold utf8_lead, within, below128, utf8_pending.
  repeat split_cmp; cbn; repeat split_cmp; cbn;
    repeat split; try lia; try reflexivity; repeat constructor; lia.
Qed.

Lemma utf8_step_ascii (st : utf8_state) (b : Z) :
  utf8_pending st -> 0 <= b ->
  utf8_pending (snd (utf8_step st b))
  /\ filter below128 (fst (utf8_step st b)) = (if below128 b then [b] else [])
  /\ Forall (fun cp => 0 <= cp) (fst (utf8_step st b)).
Proof.
  intros (Hcp & Hlo & Hleft) Hb.
  pose proof (utf8_lead_ascii b Hb) as (Hl1 & Hl2 & Hl3).
  unfold utf8_step.
  destruct (bytes_left st) as [| [| [| [| n]]]] eqn:El; try contradiction.
  - exact (conj Hl1 (conj Hl2 Hl3)).
  - unfold within. destruct (Z.leb_spec (lower_boundary st) b);
      destruct (Z.leb_spec b (upper_boundary st)); cbn [andb];
      try (destruct (utf8_lead b) as [out st']; cbn [fst snd filter] in *;
           change (below128 65533) with false;
           split; [exact Hl1 | split; [exact Hl2 |]];
           constructor; [lia | exact Hl3]).
    cbn [fst snd filter]. unfold below128, utf8_pending. cbn.
    repeat split_cmp. repeat split; try lia; repeat constructor; lia.
  - unfold within. destruct (Z.leb_spec (lower_boundary st) b);
      destruct (Z.leb_spec b (upper_boundary st)); cbn [andb];
      try (destruct (utf8_lead b) as [out st']; cbn [fst snd filter] in *;
           change (below128 65533) with false;
           split; [exact Hl1 | split; [exact Hl2 |]];
           constructor; [lia | exact Hl3]).
    cbn [fst snd filter]. unfold below128, utf8_pending. cbn.
    repeat split_cmp. repeat split; try lia; repeat constructor; lia.
  - unfold within. destruct (Z.leb_spec (lower_boundary st) b);
      destruct (Z.leb_spec b (upper_boundary st)); cbn [andb];
      try (destruct (utf8_lead b) as [out st']; cbn [fst snd filter] in *;
           change (below128 65533) with false;
           split; [exact Hl1 | split; [exact Hl2 |]];
           constructor; [lia | exact Hl3]).
    cbn [fst snd filter]. unfold below128, utf8_pending. cbn.
    repeat split_cmp. repeat split; try lia; repeat constructor; lia.
Qed.

Lemma utf8_code_points_ascii (bytes : list byte) (st : utf8_state) :
  utf8_pending st ->
  filter below128 (utf8_code_points st bytes)
  = filter below128 (map u8 bytes)
  /\ Forall (fun cp => 0 <= cp) (utf8_code_points st bytes).
Proof.
  revert st. induction bytes as [| b bytes IH]; intros st Hst.
  - cbn. destruct (bytes_left st); split; try reflexivity; repeat constructor.
    lia.
  - cbn [utf8_code_points map].
    pose proof (u8_range b) as Hb.
    pose proof (utf8_step_ascii st (u8 b) Hst ltac:(lia)) as (Hst' & Hout & Hpos).
    destruct (utf8_step st (u8 b)) as [out st'] eqn:E. cbn [fst snd] in *.
    destruct (IH st' Hst') as [IHf IHp].
    split.
    + rewrite filter_app, Hout, IHf. cbn [filter].
      destruct (below128 (u8 b)); reflexivity.
    + apply Forall_app. split; assumption.
Qed.

Lemma utf16_units_ascii (cps : list Z) :
  Forall (fun cp => 0 <= cp) cps ->
  filter below128 (flat_map utf16_units cps) = filter below128 cps.
Proof.
  induction 1 as [| cp cps Hcp _ IH]; [reflexivity |].
  cbn [flat_map]. rewrite filter_app, IH. cbn [filter].
  unfold utf16_units, below128.
  destruct (Z.ltb_spec cp 65536).
  { cbn [filter app]. destruct (cp <? 128); reflexivity. }
  cbn [filter app].
  destruct (Z.ltb_spec cp 128); [lia |].
  assert (0 <= (cp - 65536) / 1024) by (apply Z.div_pos; lia).
  assert (0 <= (cp - 65536) mod 1024) by (apply Z.mod_pos_bound; lia).
  destruct (Z.ltb_spec (55296 + (cp - 65536) / 1024) 128); [lia |].
  destruct (Z.ltb_spec (56320 + (cp - 65536) mod 1024) 128); [lia |].
  reflexivity.
Qed.

Lemma drop_bom_ascii (cps : list Z) :
  filter below128 (drop_bom cps) = filter below128 cps
  /\ (Forall (fun cp => 0 <= cp) cps -> Forall (fun cp => 0 <= cp) (drop_bom cps)).
Proof.
  unfold drop_bom. destruct cps as [| cp cps]; [split; auto |].
  destruct (Z.eq_dec cp 65279) as [-> | Hne].
  - split; [reflexivity |]. intros H. inversion H. assumption.
  - assert (E : match cp with 65279 => cps | _ => cp :: cps end = cp :: cps).
    { destruct cp as [| p | p]; try reflexivity.
      do 16 (destruct p as [p | p |]; try reflexivity).
      contradiction Hne. reflexivity. }
    rewrite E. split; auto.
Qed.

(** The code units below 0x80 of the decoded text are the bytes below 0x80,
    in order. *)
Lemma TextDecoder_decode_ascii (bytes : list byte) :
  filter below128 (TextDecoder_decode bytes) = filter below128 (map u8 bytes).
Proof.
  unfold TextDecoder_decode.
  assert (Hstart : utf8_pending utf8_start) by (unfold utf8_pending; cbn; lia).
  destruct (utf8_code_points_ascii bytes utf8_start Hstart) as [Hf Hp].
  destruct (drop_bom_ascii (utf8_code_points utf8_start bytes)) as [Hd Hdp].
  rewrite utf16_units_ascii by (apply Hdp; exact Hp).
  rewrite Hd. exact Hf.
Qed.

Lemma filter_keeps_all {A : Type} (p : A -> bool) (l : list A) :
  List.length (filter p l) = List.length l -> filter p l = l.
Proof.
  induction l as [| a l IH]; [reflexivity |]. cbn.
  destruct (p a); cbn; intros H.
  - f_equal. apply IH. lia.
  - pose proof (filter_length_le p l). lia.
Qed.

Lemma u8_inj (x y : byte) : u8 x = u8 y -> x = y.
Proof.
  unfold u8. intros H. apply to_N_inj. lia.
Qed.

Lemma map_u8_inj (a b : list byte) : map u8 a = map u8 b -> a = b.
Proof.
  revert b. induction a as [| x a IH]; intros [| y b]; cbn; try discriminate.
  - reflexivity.
  - intros [= Hx Hab]. f_equal; [apply u8_inj; exact Hx | apply IH; exact Hab].
Qed.

(** An identifier equals a recognized tag exactly when its four bytes are
    the four ASCII bytes of the tag. *)
Lemma identifier_bytes (raw : list byte) (type : string) :
  In type recognized ->
  List.length raw = 4%nat ->
  (TextDecoder_decode raw = lit type <-> raw = ascii type).
Proof.
  intros Hin Hlen.
  assert (Htag : lit type = map u8 (ascii type)
                 /\ filter below128 (lit type) = lit type
                 /\ List.length (lit type) = 4%nat).
  { cbn in Hin.
    repeat (destruct Hin as [<- | Hin]; [repeat split; reflexivity |]).
    contradiction. }
  destruct Htag as (Hlit & Hfilter & Hlen4).
  split.
  - intros Hd. apply map_u8_inj. rewrite <- Hlit.
    pose proof (TextDecoder_decode_ascii raw) as Hf.
    rewrite Hd, Hfilter in Hf.
    rewrite <- (filter_keeps_all below128 (map u8 raw)); [symmetry; exact Hf |].
    rewrite <- Hf, Hlen4, length_map. symmetry. exact Hlen.
  - intros ->. cbn in Hin.
    repeat (destruct Hin as [<- | Hin]; [vm_compute; reflexivity |]).
    contradiction.
Qed.

End TextFacts.

(* ===================================================================== *)
(** ** What [parse] looks at                                             *)
(* ===================================================================== *)

Module LocatorFacts.
Import JS BinaryParser AliveCor Wire Spec BinaryParserFacts ParserFacts
  ContainerFacts AssemblerFacts DecodeFacts TextFacts.

Lemma mapM_ext {A B : Type} (f g : A -> result B) (xs : list A) :
  (forall x, In x xs -> f x = g x) -> mapM f xs = mapM g xs.
Proof.
  induction xs as [| x xs IH]; intros H; [reflexivity |].
  cbn [mapM]. rewrite (H x (or_introl eq_refl)).
  rewrite IH by (intros y Hy; apply H; right; exact Hy). reflexivity.
Qed.

(** [assemble] reads its argument only through [findBlock] at the nine
    recognized identifiers. *)
Lemma assemble_ext (p1 p2 : AliveCorFile) :
  (forall type, In type recognized -> findBlock p1 type = findBlock p2 type) ->
  assemble p1 = assemble p2.
Proof.
  intros H. unfold assemble, parseInfoBlock, parseFormatBlock,
    parseAnnotationBlock.
  rewrite (H "info"%string), (H "fmt "%string), (H "ann "%string)
    by (cbn; tauto).
  rewrite (mapM_ext (leadItem p1) (leadItem p2) leadTable); [reflexivity |].
  intros [type name] Hin. unfold leadItem, parseLeadBlock.
  rewrite (H type); [reflexivity |].
  cbn in Hin. cbn.
  repeat (destruct Hin as [[= <- <-] | Hin]; [tauto |]). contradiction.
Qed.

Lemma findBlock_skip (sig : list byte) (ver : Z)
      (before after : list AliveCorBlock) (x : AliveCorBlock) (type : string) :
  identifier x <> lit type ->
  findBlock {| signature := sig; version := ver; blocks := before ++ x :: after |}
            type
  = findBlock {| signature := sig; version := ver; blocks := before ++ after |}
              type.
Proof.
  intros Hne. unfold findBlock. cbn [blocks]. apply find_skip.
  destruct (strict_eq (identifier x) (lit type)) eqn:E; [| reflexivity].
  apply strict_eq_spec in E. contradiction.
Qed.

(** *** The blocks of a container-valid input *)

Lemma array_readUntil_eof_Forall {A : Type} (item : Parser A) (P : A -> Prop) :
  productive item ->
  (forall buf a rest, item buf = Done a rest -> P a) ->
  forall buf l rest, array_readUntil_eof item buf = Done l rest -> Forall P l.
Proof.
  intros Hprod HP buf.
  remember (List.length buf) as n eqn:Hn.
  revert buf Hn. induction n as [n IH] using lt_wf_ind. intros buf Hn l rest.
  rewrite array_readUntil_eof_unfold by assumption.
  destruct buf as [| b buf]; [intros [= <- _]; constructor |].
  pose proof (Hprod (b :: buf)) as Hp.
  destruct (item (b :: buf)) as [a rest0 | |] eqn:Ea; try discriminate.
  specialize (IH (List.length rest0) ltac:(lia) rest0 eq_refl).
  destruct (array_readUntil_eof item rest0) as [l0 r0 | |] eqn:E; try discriminate.
  intros [= <- _]. constructor; [eapply HP; exact Ea | eapply IH; reflexivity].
Qed.

(** A block that [blockParser] returns has all the content bytes its length
    field declares. *)
Lemma blockParser_contents (buf : list byte) (b : AliveCorBlock) (rest : list byte) :
  blockParser buf = Done b rest ->
  List.length (contents b) = Z.to_nat (length b).
Proof.
  unfold blockParser, BinaryParser.bind, string_fixed, buffer, ret.
  destruct (uint32le (skipn (Z.to_nat 4) buf)) as [len r1 | |]; try discriminate.
  destruct (uint32le (skipn (Z.to_nat len) r1)) as [cs r2 | |] eqn:E;
    try discriminate.
  intros [= <- _]. cbn [contents length].
  rewrite length_firstn. apply Nat.min_l.
  destruct (Nat.le_gt_cases (Z.to_nat len) (List.length r1)) as [Hle | Hgt];
    [exact Hle |].
  rewrite skipn_all2 in E by lia. discriminate E.
Qed.

Lemma container_valid_blocks (input : list byte) (parsed : AliveCorFile) :
  container_valid input parsed ->
  Forall (fun b => List.length (contents b) = Z.to_nat (length b))
         (blocks parsed).
Proof.
  intros Hv. apply container_valid_inv in Hv as (Hp & _ & _).
  unfold BinaryParser.parse in Hp. rewrite fileParser_unfold in Hp.
  destruct (uint32le (skipn 8 input)) as [v r | |]; try discriminate.
  destruct (array_readUntil_eof blockParser r) as [bs rest | |] eqn:E;
    try discriminate.
  injection Hp as <-. cbn [blocks].
  eapply array_readUntil_eof_Forall;
    [exact blockParser_productive | exact blockParser_contents | exact E].
Qed.

Lemma findBlock_In (parsed : AliveCorFile) (type : string) (b : AliveCorBlock) :
  findBlock parsed type = Some b ->
  In b (blocks parsed) /\ identifier b = lit type.
Proof.
  unfold findBlock. intros H. apply find_some in H as [Hin Heq].
  split; [exact Hin | apply strict_eq_spec; exact Heq].
Qed.

End LocatorFacts.

(* ===================================================================== *)
(** ** Calls on the same parser object                                   *)
(* ===================================================================== *)

Module StatefulFacts.
Import JS BinaryParser AliveCor Spec.
Import Stateful.

Lemma agrees_ret {A : Type} (a : A) : agrees (Stateful.ret a) (Returns a).
Proof. intros s Hs. split; [reflexivity | exact Hs]. Qed.

Lemma agrees_throw {A : Type} (e : exn) :
  agrees (@Stateful.throw A e) (Throws e).
Proof. intros s Hs. split; [reflexivity | exact Hs]. Qed.

Lemma agrees_bind {A B : Type} (m : M A) (r : result A)
      (k : A -> M B) (k' : A -> result B) :
  agrees m r -> (forall a, agrees (k a) (k' a)) ->
  agrees (Stateful.bind m k) (JS.bind r k').
Proof.
  intros Hm Hk s Hs. destruct (Hm s Hs) as [Hr Hs']. unfold Stateful.bind.
  destruct (m s) as [[a | e |] s']; cbn [fst snd] in *; subst r; cbn [JS.bind].
  - apply Hk. exact Hs'.
  - split; [reflexivity | exact Hs'].
  - split; [reflexivity | exact Hs'].
Qed.

Lemma agrees_fileParser (buf : list byte) :
  agrees (Parser_parse fileParser_compiled set_fileParser
            "fileParser" fileParser buf)
         (BinaryParser.parse "fileParser" fileParser buf).
Proof.
  intros s (H1 & H2 & H3 & H4 & H5). unfold Parser_parse.
  destruct H5 as [E | E]; rewrite E; cbn [fst snd]; (split; [reflexivity |]).
  - unfold coherent, set_fileParser. cbn. tauto.
  - unfold coherent. tauto.
Qed.

Lemma agrees_infoBlockParser (buf : list byte) :
  agrees (Parser_parse infoBlockParser_compiled set_infoBlockParser
            "infoBlockParser" infoBlockParser buf)
         (BinaryParser.parse "infoBlockParser" infoBlockParser buf).
Proof.
  intros s (H1 & H2 & H3 & H4 & H5). unfold Parser_parse.
  destruct H3 as [E | E]; rewrite E; cbn [fst snd]; (split; [reflexivity |]).
  - unfold coherent, set_infoBlockParser. cbn. tauto.
  - unfold coherent. tauto.
Qed.

Lemma agrees_formatBlockParser (buf : list byte) :
  agrees (Parser_parse formatBlockParser_compiled set_formatBlockParser
            "formatBlockParser" formatBlockParser buf)
         (BinaryParser.parse "formatBlockParser" formatBlockParser buf).
Proof.
  intros s (H1 & H2 & H3 & H4 & H5). unfold Parser_parse.
  destruct H4 as [E | E]; rewrite E; cbn [fst snd]; (split; [reflexivity |]).
  - unfold coherent, set_formatBlockParser. cbn. tauto.
  - unfold coherent. tauto.
Qed.

Lemma agrees_annotationBlockParser (buf : list byte) :
  agrees (Parser_parse annotationBlockParser_compiled set_annotationBlockParser
            "annotationBlockParser" annotationBlockParser buf)
         (BinaryParser.parse "annotationBlockParser" annotationBlockParser buf).
Proof.
  intros s (H1 & H2 & H3 & H4 & H5). unfold Parser_parse.
  destruct H2 as [E | E]; rewrite E; cbn [fst snd]; (split; [reflexivity |]).
  - unfold coherent, set_annotationBlockParser. cbn. tauto.
  - unfold coherent. tauto.
Qed.

Lemma agrees_leadBlockParser (buf : list byte) :
  agrees (Parser_parse leadBlockParser_compiled set_leadBlockParser
            "leadBlockParser" leadBlockParser buf)
         (BinaryParser.parse "leadBlockParser" leadBlockParser buf).
Proof.
  intros s (H1 & H2 & H3 & H4 & H5). unfold Parser_parse.
  destruct H1 as [E | E]; rewrite E; cbn [fst snd]; (split; [reflexivity |]).
  - unfold coherent, set_leadBlockParser. cbn. tauto.
  - unfold coherent. tauto.
Qed.

Lemma agrees_parseFileWithBufferBlocks (input : list byte) :
  agrees (Stateful.parseFileWithBufferBlocks input)
         (AliveCor.parseFileWithBufferBlocks input).
Proof.
  unfold Stateful.parseFileWithBufferBlocks, AliveCor.parseFileWithBufferBlocks.
  apply agrees_bind; [apply agrees_fileParser |].
  intros parsed.
  destruct (negb (String.eqb (toString_hex (signature parsed))
                             "414c495645000000"));
    [apply agrees_throw |].
  destruct (negb (version parsed =? 4)); [apply agrees_throw | apply agrees_ret].
Qed.

Lemma agrees_parseInfoBlock (parsed : AliveCorFile) :
  agrees (Stateful.parseInfoBlock parsed) (AliveCor.parseInfoBlock parsed).
Proof.
  unfold Stateful.parseInfoBlock, AliveCor.parseInfoBlock.
  destruct (findBlock parsed "info");
    [apply agrees_infoBlockParser | apply agrees_throw].
Qed.

Lemma agrees_parseFormatBlock (parsed : AliveCorFile) :
  agrees (Stateful.parseFormatBlock parsed) (AliveCor.parseFormatBlock parsed).
Proof.
  unfold Stateful.parseFormatBlock, AliveCor.parseFormatBlock.
  destruct (findBlock parsed "fmt ");
    [apply agrees_formatBlockParser | apply agrees_throw].
Qed.

Lemma agrees_parseAnnotationBlock (parsed : AliveCorFile) :
  agrees (Stateful.parseAnnotationBlock parsed)
         (AliveCor.parseAnnotationBlock parsed).
Proof.
  unfold Stateful.parseAnnotationBlock, AliveCor.parseAnnotationBlock.
  destruct (findBlock parsed "ann ") as [annotationBlock |];
    [| apply agrees_ret].
  apply agrees_bind; [apply agrees_annotationBlockParser |].
  intros annotation. apply agrees_ret.
Qed.

Lemma agrees_parseLeadBlock (parsed : AliveCorFile) (type : string) :
  agrees (Stateful.parseLeadBlock parsed type)
         (AliveCor.parseLeadBlock parsed type).
Proof.
  unfold Stateful.parseLeadBlock, AliveCor.parseLeadBlock.
  destruct (findBlock parsed type) as [leadBlock |]; [| apply agrees_ret].
  apply agrees_bind; [apply agrees_leadBlockParser |].
  intros data. apply agrees_ret.
Qed.

Lemma agrees_leadItem (parsed : AliveCorFile) (entry : string * string) :
  agrees (Stateful.leadItem parsed entry) (AliveCor.leadItem parsed entry).
Proof.
  destruct entry as [type name]. unfold Stateful.leadItem, AliveCor.leadItem.
  apply agrees_bind; [apply agrees_parseLeadBlock |].
  intros data. apply agrees_ret.
Qed.

Lemma agrees_mapM {A B : Type} (f : A -> M B) (g : A -> result B)
      (xs : list A) :
  (forall x, agrees (f x) (g x)) ->
  agrees (Stateful.mapM f xs) (JS.mapM g xs).
Proof.
  intros H. induction xs as [| x xs IH]; [apply agrees_ret |].
  cbn [Stateful.mapM JS.mapM].
  apply agrees_bind; [apply H |]. intros y.
  apply agrees_bind; [exact IH |]. intros ys. apply agrees_ret.
Qed.

(** A call of [parse] gives what the function [AliveCor.parse] gives,
    whatever has been compiled before, and keeps the objects coherent. *)
Lemma agrees_parse (input : list byte) :
  agrees (Stateful.parse input) (AliveCor.parse input).
Proof.
  unfold Stateful.parse, AliveCor.parse, assemble.
  apply agrees_bind; [apply agrees_parseFileWithBufferBlocks |]. intros parsed.
  apply agrees_bind; [apply agrees_parseInfoBlock |]. intros i.
  apply agrees_bind; [apply agrees_parseFormatBlock |]. intros f.
  apply agrees_bind; [apply agrees_parseAnnotationBlock |]. intros a.
  destruct (negb (ecgFormat f =? 1)); [apply agrees_throw |].
  apply agrees_bind; [apply agrees_mapM; apply agrees_leadItem |].
  intros items. apply agrees_ret.
Qed.

Lemma coherent_created : coherent createAliveCorEcgParser.
Proof. unfold coherent. cbn. tauto. Qed.

Lemma coherent_calls (history : list (list byte)) (s : Parsers) :
  coherent s ->
  coherent (fold_left (fun s input => snd (Stateful.parse input s)) history s).
Proof.
  revert s. induction history as [| input history IH]; intros s Hs;
    [exact Hs |].
  cbn [fold_left]. apply IH. apply (agrees_parse input s Hs).
Qed.

Lemma run_parse (history : list (list byte)) (input : list byte) :
  run history input = AliveCor.parse input.
Proof.
  unfold run, after.
  apply (agrees_parse input).
  apply coherent_calls. exact coherent_created.
Qed.

End StatefulFacts.

(* ===================================================================== *)
(** ** The claims of the specification                                   *)
(* ===================================================================== *)

Module Claims.
Import JS BinaryParser AliveCor Wire Spec BinaryParserFacts ParserFacts
  ContainerFacts AssemblerFacts DecodeFacts TextFacts LocatorFacts.

(** *** C2: the signature check *)

(** C2, as stated, fails: the input [junk_after_header] has a first 8 bytes
    other than the signature, yet [decode] does not fail with
    InvalidSignature; [fileParser] runs over the whole input before the
    signature is compared and throws its [RangeError] on the incomplete
    block. *)
Lemma C2_counterexample :
  firstn 8 junk_after_header <> ALIVE
  /\ decode junk_after_header = Throws TruncatedBlock
  /\ decode junk_after_header <> Throws InvalidSignature.
Proof.
  split; [| split].
  - intros H. vm_compute in H. discriminate H.
  - vm_compute. reflexivity.
  - vm_compute. discriminate.
Qed.

(** C2, amended: for every input whose first 8 bytes differ from
    41 4C 49 56 45 00 00 00, if the container reader can split the input
    (a complete version field and only complete blocks) then decode fails
    with InvalidSignature, whatever the version and the blocks are; if it
    cannot, decode fails with the reader's own failure (TruncatedBlock),
    raised before the signature is compared. *)
Theorem C2_signature_checked_after_container (input : list byte) :
  firstn 8 input <> ALIVE ->
  (forall parsed,
      BinaryParser.parse "fileParser" fileParser input = Returns parsed ->
      decode input = Throws InvalidSignature)
  /\ (forall e,
         BinaryParser.parse "fileParser" fileParser input = Throws e ->
         e = TruncatedBlock /\ decode input = Throws TruncatedBlock).
Proof.
  intros Hsig. unfold decode, parse. rewrite parseFileWithBufferBlocks_spec.
  split.
  - intros parsed ->.
    destruct (String.eqb (toString_hex (firstn 8 input)) "414c495645000000") eqn:E.
    + apply signature_test in E. contradiction.
    + reflexivity.
  - intros e He. rewrite He. split; [| cbn [JS.bind]].
    + unfold BinaryParser.parse in He.
      destruct (fileParser input); try discriminate. injection He as <-.
      reflexivity.
    + unfold BinaryParser.parse in He.
      destruct (fileParser input); try discriminate. injection He as <-.
      reflexivity.
Qed.

(** The amended C2 at [wrong_signature_file]: a wrong signature in front of
    a complete block sequence. *)
Lemma C2_witness :
  firstn 8 wrong_signature_file <> ALIVE
  /\ decode wrong_signature_file = Throws InvalidSignature.
Proof.
  assert (H : firstn 8 wrong_signature_file <> ALIVE).
  { intros E. vm_compute in E. discriminate E. }
  split; [exact H |].
  eapply (proj1 (C2_signature_checked_after_container wrong_signature_file H)).
  vm_compute. reflexivity.
Defined.

(** *** C3: the order of the assembler's steps *)

(** C3, as stated, fails: [format2_without_info] is container-valid, its
    [fmt ] block decodes with ecgFormat 2 and it has no [info] block, yet
    decode fails with MissingInfoBlock, not UnsupportedFormat. *)
Lemma C3_counterexample :
  (exists parsed f,
      container_valid format2_without_info parsed
      /\ parseFormatBlock parsed = Returns f
      /\ ecgFormat f = 2
      /\ findBlock parsed "info" = None)
  /\ decode format2_without_info = Throws MissingInfoBlock
  /\ decode format2_without_info <> Throws UnsupportedFormat.
Proof.
  split; [| split].
  - eexists. eexists. split; [vm_compute; reflexivity |].
    split; [vm_compute; reflexivity |]. split; reflexivity.
  - vm_compute. reflexivity.
  - vm_compute. discriminate.
Qed.

(** C3, amended: the assembler locates and decodes the [info] block first
    (MissingInfoBlock if absent), then the [fmt ] block (MissingFormatBlock
    if absent, the format decoder's failure if it does not decode), then
    the [ann ] block if there is one (MalformedAnnotationBlock if it does
    not decode), and only then verifies ecgFormat == 1, before any lead
    block is looked at.  Hence, for every container-valid input: without an
    [info] block decode fails with MissingInfoBlock whatever the other
    blocks hold; with an [info] block, a [fmt ] block that is absent or
    does not decode makes decode fail with that failure whatever the
    [ann ] block holds; with [info] and a [fmt ] block that decodes, a
    malformed [ann ] block makes decode fail with MalformedAnnotationBlock
    whatever ecgFormat is; and with [info], a [fmt ] block that decodes
    with ecgFormat other than 1 and an [ann ] block that is absent or
    decodes, decode fails with UnsupportedFormat whatever the lead blocks
    hold. *)
Theorem C3_info_located_before_format (input : list byte) (parsed : AliveCorFile) :
  container_valid input parsed ->
  (findBlock parsed "info" = None -> decode input = Throws MissingInfoBlock)
  /\ (forall bi,
         findBlock parsed "info" = Some bi ->
         findBlock parsed "fmt " = None ->
         decode input = Throws MissingFormatBlock)
  /\ (forall bi e,
         findBlock parsed "info" = Some bi ->
         parseFormatBlock parsed = Throws e ->
         decode input = Throws e)
  /\ (forall bi f ba,
         findBlock parsed "info" = Some bi ->
         parseFormatBlock parsed = Returns f ->
         findBlock parsed "ann " = Some ba ->
         (Z.of_nat (List.length (contents ba)) - 4) mod 6 <> 0 ->
         decode input = Throws MalformedAnnotationBlock)
  /\ (forall bi f a,
         findBlock parsed "info" = Some bi ->
         parseFormatBlock parsed = Returns f ->
         ecgFormat f <> 1 ->
         parseAnnotationBlock parsed = Returns a ->
         decode input = Throws UnsupportedFormat).
Proof.
  intros Hv. unfold decode. rewrite (parse_container_valid input parsed Hv).
  unfold assemble. rewrite parseInfoBlock_spec.
  split; [| split; [| split; [| split]]].
  - intros ->. reflexivity.
  - intros bi -> Hf. cbn [JS.bind]. unfold parseFormatBlock. rewrite Hf.
    reflexivity.
  - intros bi e -> Hf. cbn [JS.bind]. rewrite Hf. reflexivity.
  - intros bi f ba -> Hf Hb Hne. cbn [JS.bind]. rewrite Hf. cbn [JS.bind].
    rewrite parseAnnotationBlock_spec, Hb.
    destruct (contents ba) as [| f0 [| f1 [| f2 [| f3 records]]]];
      try reflexivity.
    replace (Z.of_nat (List.length (f0 :: f1 :: f2 :: f3 :: records)) - 4)
      with (Z.of_nat (List.length records)) in Hne by (cbn [List.length]; lia).
    apply Z.eqb_neq in Hne. rewrite Hne. reflexivity.
  - intros bi f a -> Hf Hne Ha. cbn [JS.bind]. rewrite Hf, Ha. cbn [JS.bind].
    apply Z.eqb_neq in Hne. rewrite Hne. reflexivity.
Qed.

(** The amended C3 at three files with ecgFormat 2 and an [info] block:
    [format2_with_info] (the format check comes before the odd-length lead
    block is looked at), [format2_bad_annotation] (the malformed [ann ]
    block comes before the format check) and [short_format_bad_annotation]
    (the [fmt ] block that does not decode comes before the malformed
    [ann ] block). *)
Lemma C3_witness :
  decode format2_with_info = Throws UnsupportedFormat
  /\ decode format2_bad_annotation = Throws MalformedAnnotationBlock
  /\ decode short_format_bad_annotation = Throws MalformedFormatBlock.
Proof.
  split; [| split].
  - assert (Hv : container_valid format2_with_info
                   {| signature := ALIVE; version := 4;
                      blocks := map decoded [ info_block info_264 0;
                                              fmt_block fmt_format2 0;
                                              ecg_block [x01] 0 ] |}).
    { vm_compute. reflexivity. }
    eapply (proj2 (proj2 (proj2 (proj2
              (C3_info_located_before_format _ _ Hv))))).
    + vm_compute. reflexivity.
    + vm_compute. reflexivity.
    + cbn. discriminate.
    + vm_compute. reflexivity.
  - assert (Hv : container_valid format2_bad_annotation
                   {| signature := ALIVE; version := 4;
                      blocks := map decoded
                        [ info_block info_264 0; fmt_block fmt_format2 0;
                          ann_block [x01; x02; x03; x04; x05] 0;
                          ecg_block [x01] 0 ] |}).
    { vm_compute. reflexivity. }
    eapply (proj1 (proj2 (proj2 (proj2
              (C3_info_located_before_format _ _ Hv))))).
    + vm_compute. reflexivity.
    + vm_compute. reflexivity.
    + vm_compute. reflexivity.
    + vm_compute. discriminate.
  - assert (Hv : container_valid short_format_bad_annotation
                   {| signature := ALIVE; version := 4;
                      blocks := map decoded
                        [ info_block info_264 0; fmt_block [x02; x2c; x01] 0;
                          ann_block [x01; x02; x03; x04; x05] 0 ] |}).
    { vm_compute. reflexivity. }
    eapply (proj1 (proj2 (proj2
              (C3_info_located_before_format _ _ Hv)))).
    + vm_compute. reflexivity.
    + vm_compute. reflexivity.
Defined.

(** *** C4: an [info] block shorter than 264 bytes *)

(** C4, as stated, fails: [short_info_file] is container-valid and its
    [info] block has two content bytes, yet decoding that block returns (the
    text fields are cut short or empty) and decode as a whole returns. *)
Lemma C4_counterexample :
  exists parsed b,
    container_valid short_info_file parsed
    /\ findBlock parsed "info" = Some b
    /\ List.length (contents b) = 2%nat
    /\ parseInfoBlock parsed
       = Returns {| dateRecorded := lit "A"; recordingUuid := [];
                    mobilePhoneUuid := []; mobilePhoneModel := [];
                    recorderSoftware := []; recorderHardware := [];
                    deviceData := [] |}
    /\ parseInfoBlock parsed <> Throws MalformedInfoBlock
    /\ exists r, decode short_info_file = Returns r.
Proof.
  eexists. eexists. split; [vm_compute; reflexivity |].
  split; [vm_compute; reflexivity |].
  split; [reflexivity |].
  split; [vm_compute; reflexivity |].
  split; [vm_compute; discriminate |].
  eexists. vm_compute. reflexivity.
Qed.

(** C4, amended: for every container-valid input containing an [info]
    block whose content is shorter than 264 bytes, decoding that block
    succeeds: each of the seven fields is the text of those bytes of its
    range that the content has (decoded, trailing nulls removed, trimmed),
    so a field that starts at or after the end of the content is the empty
    string.  No MalformedInfoBlock failure is raised. *)
Theorem C4_short_info_block_decodes (input : list byte) (parsed : AliveCorFile)
        (b : AliveCorBlock) :
  container_valid input parsed ->
  findBlock parsed "info" = Some b ->
  (List.length (contents b) < 264)%nat ->
  parseInfoBlock parsed
  = Returns {| dateRecorded := info_field (contents b) 0 32;
               recordingUuid := info_field (contents b) 32 40;
               mobilePhoneUuid := info_field (contents b) 72 44;
               mobilePhoneModel := info_field (contents b) 116 32;
               recorderSoftware := info_field (contents b) 148 32;
               recorderHardware := info_field (contents b) 180 32;
               deviceData := info_field (contents b) 212 52 |}
  /\ (forall start width,
         (List.length (contents b) <= start)%nat ->
         info_field (contents b) start width = []).
Proof.
  intros _ Hb _. rewrite parseInfoBlock_spec, Hb. split; [reflexivity |].
  intros start width Hlen. unfold info_field.
  rewrite skipn_all2 by exact Hlen. rewrite firstn_nil. reflexivity.
Qed.

(** The amended C4 at [short_info_file]: two content bytes give the date
    field [A] and empty fields after it. *)
Lemma C4_witness :
  exists parsed b i,
    container_valid short_info_file parsed
    /\ findBlock parsed "info" = Some b
    /\ parseInfoBlock parsed = Returns i
    /\ dateRecorded i = lit "A"
    /\ deviceData i = [].
Proof.
  pose (parsed := {| signature := ALIVE; version := 4;
                     blocks := map decoded
                                 [ fmt_block fmt_300Hz 0; info_block [x41; x00] 0;
                                   ecg_block samples_100_m200_300 0 ] |}).
  assert (Hv : container_valid short_info_file parsed).
  { vm_compute. reflexivity. }
  assert (Hb : findBlock parsed "info" = Some (decoded (info_block [x41; x00] 0))).
  { vm_compute. reflexivity. }
  assert (Hl : (List.length (contents (decoded (info_block [x41; x00] 0))) < 264)%nat).
  { cbn. lia. }
  destruct (C4_short_info_block_decodes short_info_file parsed _ Hv Hb Hl)
    as [Hi Hempty].
  eexists parsed, _, _. split; [exact Hv |]. split; [exact Hb |].
  split; [exact Hi |]. split; [vm_compute; reflexivity |].
  apply Hempty. cbn. lia.
Defined.

(** *** C5: the signal decoder *)

(** C5: applied to a lead block's content, the signal decoder returns the
    consecutive byte pairs as signed 16-bit little-endian integers, one
    sample for every two bytes of the whole content, when the content
    length is even, and fails with MalformedSignalBlock when it is odd; and
    in a file that is valid up to its lead blocks, a located lead block of
    odd content length makes decode fail with MalformedSignalBlock. *)
Theorem C5_signal_decoder (content : list byte) :
  BinaryParser.parse "leadBlockParser" leadBlockParser content
  = (if Nat.even (List.length content)
     then Returns (int16_samples content)
     else Throws MalformedSignalBlock)
  /\ (Nat.even (List.length content) = true ->
      (2 * List.length (int16_samples content) = List.length content)%nat
      /\ Forall (fun s => -32768 <= s < 32768) (int16_samples content))
  /\ (forall input parsed i f a type name b,
         container_valid input parsed ->
         parseInfoBlock parsed = Returns i ->
         parseFormatBlock parsed = Returns f ->
         parseAnnotationBlock parsed = Returns a ->
         ecgFormat f = 1 ->
         In (type, name) leadTable ->
         findBlock parsed type = Some b ->
         contents b = content ->
         Nat.even (List.length content) = false ->
         decode input = Throws MalformedSignalBlock).
Proof.
  split; [| split].
  - unfold BinaryParser.parse. rewrite leadBlockParser_spec.
    destruct (Nat.even (List.length content)); reflexivity.
  - intros He. split.
    + apply int16_samples_length. exact He.
    + apply int16_samples_range.
  - intros input parsed i f a type name b Hv Hi Hf Ha H1 Hin Hb Hc Hodd.
    unfold decode. rewrite (parse_container_valid input parsed Hv).
    rewrite (assemble_leads_stage parsed i f a Hi Hf Ha H1).
    subst content.
    rewrite (leadItems_odd parsed leadTable type name b Hin Hb Hodd).
    reflexivity.
Qed.

(** C5 at the samples of the round-trip file, at five content bytes, and at
    [odd_lead_file]. *)
Lemma C5_witness :
  BinaryParser.parse "leadBlockParser" leadBlockParser samples_100_m200_300
  = Returns [100; -200; 300]
  /\ BinaryParser.parse "leadBlockParser" leadBlockParser
       [x64; x00; x38; xff; x2c]
     = Throws MalformedSignalBlock
  /\ decode odd_lead_file = Throws MalformedSignalBlock.
Proof.
  split; [| split].
  - exact (proj1 (C5_signal_decoder samples_100_m200_300)).
  - exact (proj1 (C5_signal_decoder [x64; x00; x38; xff; x2c])).
  - eapply (proj2 (proj2 (C5_signal_decoder [x64; x00; x38; xff; x2c]))
              odd_lead_file
              {| signature := ALIVE; version := 4;
                 blocks := map decoded
                             [ fmt_block fmt_300Hz 0; info_block info_264 0;
                               ecg_block [x64; x00; x38; xff; x2c] 0 ] |}
              _ _ _ "ecg "%string "leadI"%string).
    + vm_compute. reflexivity.
    + vm_compute. reflexivity.
    + vm_compute. reflexivity.
    + vm_compute. reflexivity.
    + reflexivity.
    + left. reflexivity.
    + vm_compute. reflexivity.
    + reflexivity.
    + reflexivity.
Defined.

(** *** C6: the annotation decoder *)

(** C6: the annotation decoder reads a 4-byte little-endian tick frequency
    and then 6-byte records (4-byte unsigned little-endian offset, 2-byte
    unsigned little-endian beat type) to the end of the content; when the
    content length minus 4 is not a multiple of 6 it fails with
    MalformedAnnotationBlock, and so does decode on a file that is valid up
    to its [ann ] block. *)
Theorem C6_annotation_decoder (content : list byte) :
  (forall f0 f1 f2 f3 records,
      content = f0 :: f1 :: f2 :: f3 :: records ->
      Z.of_nat (List.length records) mod 6 = 0 ->
      BinaryParser.parse "annotationBlockParser" annotationBlockParser content
      = Returns {| tickCountFrequencyHz := u32_value f0 f1 f2 f3;
                   ticks := tick_records records |}
      /\ (6 * List.length (tick_records records) = List.length records)%nat)
  /\ ((Z.of_nat (List.length content) - 4) mod 6 <> 0 ->
      BinaryParser.parse "annotationBlockParser" annotationBlockParser content
      = Throws MalformedAnnotationBlock)
  /\ (forall input parsed i f b,
         container_valid input parsed ->
         parseInfoBlock parsed = Returns i ->
         parseFormatBlock parsed = Returns f ->
         findBlock parsed "ann " = Some b ->
         contents b = content ->
         (Z.of_nat (List.length content) - 4) mod 6 <> 0 ->
         decode input = Throws MalformedAnnotationBlock).
Proof.
  assert (Hfail : (Z.of_nat (List.length content) - 4) mod 6 <> 0 ->
                  BinaryParser.parse "annotationBlockParser"
                    annotationBlockParser content
                  = Throws MalformedAnnotationBlock).
  { intros Hne. unfold BinaryParser.parse. rewrite annotationBlockParser_spec.
    destruct content as [| f0 [| f1 [| f2 [| f3 records]]]]; try reflexivity.
    replace (Z.of_nat (List.length (f0 :: f1 :: f2 :: f3 :: records)) - 4)
      with (Z.of_nat (List.length records)) in Hne by (cbn [List.length]; lia).
    apply Z.eqb_neq in Hne. rewrite Hne. reflexivity. }
  split; [| split].
  - intros f0 f1 f2 f3 records -> Hmod. split.
    + unfold BinaryParser.parse. rewrite annotationBlockParser_spec.
      apply Z.eqb_eq in Hmod. rewrite Hmod. reflexivity.
    + clear Hfail. remember (List.length records) as n eqn:Hn.
      revert records Hn Hmod. induction n as [n IH] using lt_wf_ind.
      intros records Hn Hmod.
      destruct records as [| o0 [| o1 [| o2 [| o3 [| t0 [| t1 rest]]]]]];
        subst n; cbn [List.length] in Hmod; try reflexivity;
        try (exfalso; cbn in Hmod; discriminate Hmod).
      cbn [tick_records List.length].
      assert (Hrest : Z.of_nat (List.length rest) mod 6 = 0).
      { replace (Z.of_nat (S (S (S (S (S (S (List.length rest))))))))
          with (Z.of_nat (List.length rest) + 1 * 6) in Hmod by lia.
        rewrite Z.mod_add in Hmod by lia. exact Hmod. }
      specialize (IH (List.length rest) ltac:(cbn; lia) rest eq_refl Hrest).
      lia.
  - exact Hfail.
  - intros input parsed i f b Hv Hi Hf Hb Hc Hne.
    unfold decode. rewrite (parse_container_valid input parsed Hv).
    unfold assemble. rewrite Hi, Hf. cbn [JS.bind].
    unfold parseAnnotationBlock. rewrite Hb, Hc, (Hfail Hne). reflexivity.
Qed.

(** C6 at an annotation of two ticks and at [partial_tick_file]. *)
Lemma C6_witness :
  BinaryParser.parse "annotationBlockParser" annotationBlockParser
    (le32 300 ++ [x0a; x00; x00; x00; x01; x00; x2c; x01; x00; x00; x02; x00])
  = Returns {| tickCountFrequencyHz := 300;
               ticks := [ {| offset := 10; beatType := 1 |};
                          {| offset := 300; beatType := 2 |} ] |}
  /\ decode partial_tick_file = Throws MalformedAnnotationBlock.
Proof.
  split.
  - apply (proj1 (C6_annotation_decoder _) (byte_of 300) (byte_of (300 / 256))
             (byte_of (300 / 65536)) (byte_of (300 / 16777216))
             [x0a; x00; x00; x00; x01; x00; x2c; x01; x00; x00; x02; x00]).
    + reflexivity.
    + reflexivity.
  - eapply (proj2 (proj2 (C6_annotation_decoder
                            (le32 300 ++ repeat x01 12 ++ repeat x02 3)))
              partial_tick_file
              {| signature := ALIVE; version := 4;
                 blocks := map decoded
                   [ fmt_block fmt_300Hz 0; info_block info_264 0;
                     ann_block (le32 300 ++ repeat x01 12 ++ repeat x02 3) 0;
                     ecg_block samples_100_m200_300 0 ] |}).
    + vm_compute. reflexivity.
    + vm_compute. reflexivity.
    + vm_compute. reflexivity.
    + vm_compute. reflexivity.
    + reflexivity.
    + vm_compute. discriminate.
Defined.

(** *** C7: block lookup *)

(** C7: block lookup returns the first block in file order whose
    identifier equals the requested tag, and none when no block has it; for
    the tags the parser asks for, an identifier equals the tag exactly when
    its four bytes are the four bytes of the tag; consequently a block with
    an unrecognized identifier, anywhere in the block sequence, changes
    nothing in the result of decode. *)
Theorem C7_block_lookup (parsed : AliveCorFile) (type : string) :
  match findBlock parsed type with
  | Some b =>
      exists before after,
        blocks parsed = before ++ b :: after
        /\ identifier b = lit type
        /\ Forall (fun x => identifier x <> lit type) before
  | None => Forall (fun x => identifier x <> lit type) (blocks parsed)
  end
  /\ (forall raw,
         In type recognized -> List.length (tag raw) = 4%nat ->
         (identifier (decoded raw) = lit type <-> tag raw = ascii type))
  /\ (forall before x after,
         blocks parsed = before ++ x :: after -> unrecognized x ->
         assemble parsed
         = assemble {| signature := signature parsed;
                       version := version parsed;
                       blocks := before ++ after |})
  /\ (forall sig ver bs1 x bs2,
         List.length sig = 8%nat ->
         Forall well_formed (bs1 ++ x :: bs2) ->
         (forall t, In t recognized -> tag x <> ascii t) ->
         decode (file sig ver (bs1 ++ x :: bs2))
         = decode (file sig ver (bs1 ++ bs2))).
Proof.
  assert (Hne : forall l : list AliveCorBlock,
             Forall (fun y => strict_eq (identifier y) (lit type) = false) l ->
             Forall (fun x => identifier x <> lit type) l).
  { intros l Hl. eapply Forall_impl; [| exact Hl]. cbn. intros y Hy E.
    apply strict_eq_spec in E. congruence. }
  assert (Hskip : forall sig ver before x after,
             unrecognized x ->
             assemble {| signature := sig; version := ver;
                         blocks := before ++ x :: after |}
             = assemble {| signature := sig; version := ver;
                           blocks := before ++ after |}).
  { intros sig ver before x after Hx. apply assemble_ext. intros t Ht.
    apply findBlock_skip. apply Hx. exact Ht. }
  split; [| split; [| split]].
  - unfold findBlock.
    pose proof (find_first (fun b => strict_eq (identifier b) (lit type))
                  (blocks parsed)) as H.
    destruct (find _ (blocks parsed)) as [b |].
    + destruct H as (before & after & Hb & Hid & Hfirst).
      exists before, after. split; [exact Hb |].
      split; [apply strict_eq_spec; exact Hid | apply Hne; exact Hfirst].
    + apply Hne. exact H.
  - intros raw Hin Hlen. cbn [decoded identifier].
    apply identifier_bytes; assumption.
  - intros before x after Hb Hx.
    destruct parsed as [sig ver bs]. cbn [blocks signature version] in *.
    subst bs. apply Hskip. exact Hx.
  - intros sig ver bs1 x bs2 Hsig Hwf Htag. unfold decode.
    assert (Hwf' : Forall well_formed (bs1 ++ bs2)).
    { apply Forall_app in Hwf as [H1 H2]. apply Forall_app. split; [exact H1 |].
      inversion H2; assumption. }
    assert (Hx : well_formed x).
    { apply Forall_app in Hwf as [_ H2]. inversion H2; assumption. }
    rewrite !parse_file by assumption.
    destruct (negb (String.eqb (toString_hex sig) "414c495645000000"));
      [reflexivity |].
    destruct (negb (ver mod 2 ^ 32 =? 4)); [reflexivity |].
    rewrite !map_app. cbn [map]. apply Hskip.
    intros t Ht E. apply (Htag t Ht).
    apply (identifier_bytes (tag x) t Ht (proj1 Hx)). exact E.
Qed.

(** C7 at the round-trip file with an [xtra] block after its [fmt ] block. *)
Lemma C7_witness :
  decode (file ALIVE 4
            ([fmt_block fmt_300Hz 0] ++ xtra_block ::
             [info_block info_264 0; ecg_block samples_100_m200_300 0]))
  = decode (roundtrip_file info_264 0 0 0).
Proof.
  apply (proj2 (proj2 (proj2
           (C7_block_lookup {| signature := ALIVE; version := 4; blocks := [] |}
              "info")))
           ALIVE 4 [fmt_block fmt_300Hz 0] xtra_block
           [info_block info_264 0; ecg_block samples_100_m200_300 0]).
  - reflexivity.
  - repeat constructor.
  - intros t Ht. cbn in Ht.
    repeat (destruct Ht as [<- | Ht]; [discriminate |]). contradiction.
Defined.

(** *** C8: determinism *)

(** C8: decode is deterministic.  The declarative parsers are built once
    and shared by all calls of [parse], and each keeps the function
    compiled at its first use; with this state passed explicitly, two runs
    on identical input byte sequences produce identical results (the same
    record on success, the same failure on failure) whatever calls were
    made before each of them, on the same parser or on two parsers; the
    result is that of [decode] as a function of the bytes. *)
Theorem C8_decode_deterministic
        (history1 history2 : list (list byte)) (input : list byte) :
  Stateful.run history1 input = Stateful.run history2 input
  /\ Stateful.run history1 input = decode input.
Proof.
  rewrite !StatefulFacts.run_parse. split; reflexivity.
Qed.

(** C8 at a parser that has decoded the round-trip file and failed on
    [junk_after_header] (its file parser and its lead parser are compiled
    by then) and a new parser (nothing compiled). *)
Lemma C8_witness :
  Stateful.fileParser_compiled
    (Stateful.after [roundtrip_file info_264 0 0 0; junk_after_header])
  = Some fileParser
  /\ Stateful.leadBlockParser_compiled
       (Stateful.after [roundtrip_file info_264 0 0 0; junk_after_header])
     = Some leadBlockParser
  /\ Stateful.fileParser_compiled (Stateful.after []) = None
  /\ Stateful.run [roundtrip_file info_264 0 0 0; junk_after_header]
                  odd_lead_file
     = Stateful.run [] odd_lead_file.
Proof.
  split; [reflexivity |].
  split; [reflexivity |].
  split; [reflexivity |].
  exact (proj1 (C8_decode_deterministic
                  [roundtrip_file info_264 0 0 0; junk_after_header] []
                  odd_lead_file)).
Defined.

(** *** C9: the file version tag *)

(** C9: whenever decode succeeds, the [fileVersion] of the record is the
    constant "1.6", whatever the input bytes are; the version field of the
    container (which is 4 on every input that decodes) has no part in
    it. *)
Theorem C9_fileVersion_constant (input : list byte) (r : AliveCorEcg) :
  decode input = Returns r ->
  fileVersion r = "1.6"%string
  /\ exists parsed, container_valid input parsed /\ version parsed = 4.
Proof.
  unfold decode, parse, container_valid.
  destruct (parseFileWithBufferBlocks input) as [parsed | |] eqn:Ep;
    try discriminate.
  cbn [JS.bind]. intros Ha. split.
  - unfold assemble in Ha.
    destruct (parseInfoBlock parsed); try discriminate.
    destruct (parseFormatBlock parsed); try discriminate.
    destruct (parseAnnotationBlock parsed); try discriminate.
    cbn [JS.bind] in Ha.
    destruct (negb _); try discriminate.
    destruct (mapM (leadItem parsed) leadTable); try discriminate.
    cbn [JS.bind] in Ha. injection Ha as <-. reflexivity.
  - exists parsed. split; [reflexivity |].
    apply (container_valid_inv input parsed Ep).
Qed.

(** C9 at the round-trip file. *)
Lemma C9_witness :
  exists r,
    decode (roundtrip_file info_264 0 0 0) = Returns r
    /\ fileVersion r = "1.6"%string.
Proof.
  assert (H : {r | decode (roundtrip_file info_264 0 0 0) = Returns r}).
  { eexists. vm_compute. reflexivity. }
  destruct H as [r H]. exists r. split; [exact H |].
  exact (proj1 (C9_fileVersion_constant (roundtrip_file info_264 0 0 0) r H)).
Defined.

(** *** C10: a lead block of declared length 0 *)

(** C10: for every input that is valid apart from that (container-valid,
    [info], [fmt ] with ecgFormat 1 and [ann ] decode, every located lead
    block has an even content length) and in which the lead block [type] is
    located with a declared content length of 0, decode succeeds and the
    lead [name] is present in [leads] with an empty sample list; a lead
    whose block is absent is not in [leads] at all. *)
Theorem C10_empty_lead_block_present
        (input : list byte) (parsed : AliveCorFile) (i : AliveCorEcgInfo)
        (f : AliveCorEcgFormat) (a : option AliveCorEcgAnnotation)
        (type name : string) (b : AliveCorBlock) :
  container_valid input parsed ->
  parseInfoBlock parsed = Returns i ->
  parseFormatBlock parsed = Returns f ->
  parseAnnotationBlock parsed = Returns a ->
  ecgFormat f = 1 ->
  leads_decodable parsed ->
  In (type, name) leadTable ->
  findBlock parsed type = Some b ->
  length b = 0 ->
  exists r,
    decode input = Returns r
    /\ lookup name (leads r) = Some []
    /\ (forall type' name',
           In (type', name') leadTable ->
           findBlock parsed type' = None ->
           lookup name' (leads r) = None).
Proof.
  intros Hv Hi Hf Ha H1 Hdec Hin Hb Hlen.
  unfold decode. rewrite (parse_container_valid input parsed Hv).
  rewrite (assemble_leads_stage parsed i f a Hi Hf Ha H1).
  rewrite (leadItems_ok parsed leadTable Hdec). cbn [JS.bind].
  eexists. split; [reflexivity |]. cbn [leads]. split.
  - rewrite (lookup_collectLeads parsed type name Hin).
    unfold lead_data. rewrite Hb. cbn [option_map].
    assert (Hc : contents b = []).
    { pose proof (container_valid_blocks input parsed Hv) as Hall.
      rewrite Forall_forall in Hall.
      specialize (Hall b (proj1 (findBlock_In parsed type b Hb))).
      rewrite Hlen in Hall. destruct (contents b); [reflexivity | discriminate]. }
    rewrite Hc. reflexivity.
  - intros type' name' Hin' Hnone.
    rewrite (lookup_collectLeads parsed type' name' Hin').
    unfold lead_data. rewrite Hnone. reflexivity.
Qed.

(** C10 at [empty_lead_file]: [leadI] is there and empty, [leadII] is not
    there. *)
Lemma C10_witness :
  exists r,
    decode empty_lead_file = Returns r
    /\ lookup "leadI" (leads r) = Some []
    /\ lookup "leadII" (leads r) = None.
Proof.
  pose (parsed := {| signature := ALIVE; version := 4;
                     blocks := map decoded
                                 [ fmt_block fmt_300Hz 0; info_block info_264 0;
                                   ecg_block [] 0 ] |}).
  assert (Hv : container_valid empty_lead_file parsed).
  { vm_compute. reflexivity. }
  assert (Hi : {i | parseInfoBlock parsed = Returns i}).
  { eexists. vm_compute. reflexivity. }
  assert (Hf : {f | parseFormatBlock parsed = Returns f /\ ecgFormat f = 1}).
  { eexists. split; [vm_compute; reflexivity | reflexivity]. }
  assert (Ha : parseAnnotationBlock parsed = Returns None).
  { vm_compute. reflexivity. }
  assert (Hb : findBlock parsed "ecg " = Some (decoded (ecg_block [] 0))).
  { vm_compute. reflexivity. }
  assert (Hdec : leads_decodable parsed).
  { intros type name b Hin Hfind. cbn in Hin.
    repeat (destruct Hin as [[= <- <-] | Hin];
            [vm_compute in Hfind; try discriminate Hfind;
             injection Hfind as <-; reflexivity |]).
    contradiction. }
  destruct Hi as [i Hi]. destruct Hf as [f [Hf H1]].
  destruct (C10_empty_lead_block_present empty_lead_file parsed i f None
              "ecg " "leadI" (decoded (ecg_block [] 0))
              Hv Hi Hf Ha H1 Hdec (or_introl eq_refl) Hb eq_refl)
    as (r & Hr & Hpresent & Habsent).
  exists r. split; [exact Hr |]. split; [exact Hpresent |].
  apply (Habsent "ecg2"%string "leadII"%string).
  - right. left. reflexivity.
  - vm_compute. reflexivity.
Defined.

(** *** C1: the block round trip *)

(** C1, as stated, fails on [format.polarity]: the polarity bit has no
    formatter, so the decoded value is the number 1, which is not the
    boolean true. *)
Lemma C1_counterexample :
  ~ (exists r,
        decode (roundtrip_file info_264 0 0 0) = Returns r
        /\ samplingRateHz (format r) = 300
        /\ mainsFrequency (format r) = Num 50
        /\ polarity (format r) = Boolean true
        /\ leads r = [("leadI"%string, [100; -200; 300])]
        /\ annotation r = None).
Proof.
  intros (r & Hr & _ & _ & Hpol & _).
  vm_compute in Hr. injection Hr as <-. discriminate Hpol.
Qed.

(** C1, amended: for the file built from signature 41 4C 49 56 45 00 00 00,
    version 4, one [fmt ] block with content ecgFormat=1, sampleRateHz=300,
    amplitudeResNV=1000, flags byte=0x05, reserved=0, one [info] block of
    exactly 264 bytes and one [ecg ] block with content 64 00 38 FF 2C 01
    (any checksums), decode succeeds and the record has
    format.samplingRateHz = 300, format.mainsFrequency = 50,
    format.polarity = 1 (the number), leads = { leadI: [100, -200, 300] }
    and no annotation. *)
Theorem C1_block_roundtrip (infoContent : list byte) (c1 c2 c3 : Z) :
  List.length infoContent = 264%nat ->
  decode (roundtrip_file infoContent c1 c2 c3)
  = Returns
      {| fileVersion := "1.6";
         info := {| dateRecorded := info_field infoContent 0 32;
                    recordingUuid := info_field infoContent 32 40;
                    mobilePhoneUuid := info_field infoContent 72 44;
                    mobilePhoneModel := info_field infoContent 116 32;
                    recorderSoftware := info_field infoContent 148 32;
                    recorderHardware := info_field infoContent 180 32;
                    deviceData := info_field infoContent 212 52 |};
         format := {| ecgFormat := 1;
                      samplingRateHz := 300;
                      amplitudeResolutionNV := 1000;
                      polarity := Num 1;
                      mainsFrequency := Num 50;
                      mainsFilter := Boolean true;
                      lowPassFilter := Boolean false;
                      baseLineFilter := Boolean false;
                      notchMainsFilter := Boolean false;
                      enhancedFilter := Boolean false;
                      unused := Num 0;
                      reserved := 0 |};
         leads := [("leadI"%string, [100; -200; 300])];
         annotation := None |}.
Proof.
  intros Hlen. unfold decode, roundtrip_file.
  rewrite parse_file.
  2: reflexivity.
  2: { repeat constructor; cbn [content info_block]. rewrite Hlen. reflexivity. }
  change (negb (String.eqb (toString_hex ALIVE) "414c495645000000")) with false.
  change (negb (4 mod 2 ^ 32 =? 4)) with false. cbv iota.
  set (parsed := {| signature := ALIVE; version := 4 mod 2 ^ 32;
                    blocks := _ |}).
  assert (Hb : findBlock parsed "info" = Some (decoded (info_block infoContent c2))).
  { reflexivity. }
  assert (Hf : parseFormatBlock parsed
               = Returns {| ecgFormat := 1; samplingRateHz := 300;
                            amplitudeResolutionNV := 1000; polarity := Num 1;
                            mainsFrequency := Num 50; mainsFilter := Boolean true;
                            lowPassFilter := Boolean false;
                            baseLineFilter := Boolean false;
                            notchMainsFilter := Boolean false;
                            enhancedFilter := Boolean false;
                            unused := Num 0; reserved := 0 |}).
  { reflexivity. }
  assert (Ha : parseAnnotationBlock parsed = Returns None).
  { reflexivity. }
  assert (Hl : mapM (leadItem parsed) leadTable
               = Returns [ ("leadI"%string, Some [100; -200; 300]);
                           ("leadII"%string, None); ("leadIII"%string, None);
                           ("aVR"%string, None); ("aVL"%string, None);
                           ("aVF"%string, None) ]).
  { reflexivity. }
  unfold assemble. rewrite parseInfoBlock_spec, Hb, Hf, Ha. cbn [JS.bind].
  change (negb (1 =? 1)) with false. cbv iota. rewrite Hl. reflexivity.
Qed.

(** The amended C1 at [info_264] with zero checksums. *)
Lemma C1_witness :
  List.length info_264 = 264%nat
  /\ exists r,
       decode (roundtrip_file info_264 0 0 0) = Returns r
       /\ samplingRateHz (format r) = 300
       /\ mainsFrequency (format r) = Num 50
       /\ polarity (format r) = Num 1
       /\ leads r = [("leadI"%string, [100; -200; 300])]
       /\ annotation r = None.
Proof.
  split; [reflexivity |].
  eexists. split.
  - exact (C1_block_roundtrip info_264 0 0 0 eq_refl).
  - repeat split.
Defined.

End Claims.

(* ===================================================================== *)
(** ** Further properties: the container                                 *)
(* ===================================================================== *)

Module ContainerMore.
Import JS BinaryParser AliveCor Wire Spec BinaryParserFacts ParserFacts
  ContainerFacts AssemblerFacts DecodeFacts TextFacts LocatorFacts.

Lemma uint32le_short (buf : list byte) :
  (List.length buf < 4)%nat -> uint32le buf = OutOfRange.
Proof.
  destruct buf as [| c0 [| c1 [| c2 [| c3 r]]]]; cbn; try reflexivity. lia.
Qed.

Lemma uint32le_length (buf : list byte) (v : Z) (rest : list byte) :
  uint32le buf = Done v rest -> List.length buf = (4 + List.length rest)%nat.
Proof.
  destruct buf as [| c0 [| c1 [| c2 [| c3 r]]]]; cbn; try discriminate.
  intros [= _ <-]. reflexivity.
Qed.

Lemma uint32le_range (buf : list byte) (v : Z) (rest : list byte) :
  uint32le buf = Done v rest -> 0 <= v < 2 ^ 32.
Proof.
  destruct buf as [| c0 [| c1 [| c2 [| c3 r]]]]; unfold uint32le;
    try discriminate.
  intros H. rewrite uint32_value in H.
  assert (Hv : u8 c0 + 256 * u8 c1 + 65536 * u8 c2 + 16777216 * u8 c3 = v)
    by congruence.
  rewrite <- Hv.
  pose proof (u8_range c0). pose proof (u8_range c1).
  pose proof (u8_range c2). pose proof (u8_range c3).
  change (2 ^ 32) with 4294967296. lia.
Qed.

Lemma fileParser_short (input : list byte) :
  (List.length input < 12)%nat -> fileParser input = OutOfRange.
Proof.
  intros H. rewrite fileParser_unfold.
  rewrite uint32le_short; [reflexivity |]. rewrite length_skipn. lia.
Qed.

(** A block whose header is incomplete, or whose declared length runs past
    the end of the input. *)
Lemma blockParser_short (buf : list byte) :
  (List.length buf < 12)%nat -> blockParser buf = OutOfRange.
Proof.
  intros H. unfold blockParser, BinaryParser.bind, string_fixed, buffer, ret.
  change (Z.to_nat 4) with 4%nat.
  destruct (uint32le (skipn 4 buf)) as [len r1 | |] eqn:E1; try reflexivity.
  - apply uint32le_length in E1. rewrite length_skipn in E1.
    rewrite uint32le_short; [reflexivity |]. rewrite length_skipn. lia.
  - destruct (skipn 4 buf) as [| c0 [| c1 [| c2 [| c3 r]]]]; discriminate.
Qed.

Lemma blockParser_overrun (tg : list byte) (len : Z) (rest : list byte) :
  List.length tg = 4%nat ->
  Z.of_nat (List.length rest) < len mod 2 ^ 32 + 4 ->
  blockParser (tg ++ le32 len ++ rest) = OutOfRange.
Proof.
  intros Htg Hlen. unfold blockParser, BinaryParser.bind, string_fixed, buffer, ret.
  change (Z.to_nat 4) with 4%nat.
  rewrite (skipn_app_exact 4 tg) by exact Htg.
  rewrite uint32le_le32.
  rewrite uint32le_short; [reflexivity |]. rewrite length_skipn.
  pose proof (Z.mod_pos_bound len (2 ^ 32) ltac:(lia)). lia.
Qed.

Lemma blocks_flat_map_fail (bs : list RawBlock) (rest : list byte) :
  Forall well_formed bs ->
  array_readUntil_eof blockParser rest = OutOfRange ->
  array_readUntil_eof blockParser (flat_map block bs ++ rest) = OutOfRange.
Proof.
  intros Hwf Hrest. induction Hwf as [| b bs Hb Hbs IH]; [exact Hrest |].
  cbn [flat_map app]. rewrite <- app_assoc.
  rewrite array_readUntil_eof_unfold by exact blockParser_productive.
  rewrite blockParser_block by assumption. rewrite IH.
  destruct (block b ++ flat_map block bs ++ rest) eqn:E; [| reflexivity].
  exfalso. destruct Hb as [Htag _]. unfold block in E.
  destruct (tag b); [discriminate Htag | discriminate E].
Qed.

Lemma fileParser_file_fail (sig : list byte) (ver : Z) (bs : list RawBlock)
      (tail : list byte) :
  List.length sig = 8%nat -> Forall well_formed bs ->
  tail <> [] -> blockParser tail = OutOfRange ->
  fileParser (file sig ver bs ++ tail) = OutOfRange.
Proof.
  intros Hsig Hwf Hne Htail. rewrite fileParser_unfold. unfold file.
  rewrite <- !app_assoc.
  rewrite (skipn_app_exact 8 sig) by exact Hsig.
  rewrite uint32le_le32.
  rewrite blocks_flat_map_fail; [reflexivity | exact Hwf |].
  rewrite array_readUntil_eof_unfold by exact blockParser_productive.
  rewrite Htail. destruct tail; [contradiction | reflexivity].
Qed.

Lemma decode_fileParser_fail (input : list byte) :
  fileParser input = OutOfRange -> decode input = Throws TruncatedBlock.
Proof.
  intros H. unfold decode, parse, parseFileWithBufferBlocks, BinaryParser.parse.
  rewrite H. reflexivity.
Qed.

(** Every block takes its twelve bytes of frame and its content. *)
Lemma blockParser_size (buf : list byte) (b : AliveCorBlock) (rest : list byte) :
  blockParser buf = Done b rest ->
  List.length buf = (block_size b + List.length rest)%nat.
Proof.
  unfold blockParser, BinaryParser.bind, string_fixed, buffer, ret, block_size.
  change (Z.to_nat 4) with 4%nat.
  destruct (uint32le (skipn 4 buf)) as [len r1 | |] eqn:E1; try discriminate.
  destruct (uint32le (skipn (Z.to_nat len) r1)) as [cs r2 | |] eqn:E2;
    try discriminate.
  intros [= <- <-]. cbn [length].
  apply uint32le_length in E1, E2. rewrite length_skipn in E1, E2. lia.
Qed.

Lemma blocks_size (buf : list byte) :
  forall bs rest,
    array_readUntil_eof blockParser buf = Done bs rest ->
    List.length buf = list_sum (map block_size bs).
Proof.
  remember (List.length buf) as n eqn:Hn.
  revert buf Hn. induction n as [n IH] using lt_wf_ind. intros buf Hn bs rest.
  rewrite array_readUntil_eof_unfold by exact blockParser_productive.
  destruct buf as [| c buf]; [intros [= <- _]; subst n; reflexivity |].
  destruct (blockParser (c :: buf)) as [b r | |] eqn:Eb; try discriminate.
  apply blockParser_size in Eb.
  destruct (array_readUntil_eof blockParser r) as [l r' | |] eqn:El;
    try discriminate.
  intros [= <- _]. subst n.
  specialize (IH (List.length r) ltac:(unfold block_size in Eb; lia) r eq_refl
                 l r' El).
  unfold list_sum in *. cbn [map fold_right]. lia.
Qed.

End ContainerMore.

Module ContainerProperties.
Import JS BinaryParser AliveCor Wire Spec BinaryParserFacts ParserFacts
  ContainerFacts AssemblerFacts DecodeFacts TextFacts LocatorFacts ContainerMore.

(** X1: when the container reader can split the input and the signature is
    the right one, a version field other than 4 makes decode fail with
    'Unsupported AliveCor ECG file', whatever the blocks are. *)
Theorem X1_unsupported_version
        (input : list byte) (parsed : AliveCorFile)
        (v0 v1 v2 v3 : byte) (rest : list byte) :
  BinaryParser.parse "fileParser" fileParser input = Returns parsed ->
  firstn 8 input = ALIVE ->
  skipn 8 input = v0 :: v1 :: v2 :: v3 :: rest ->
  u32_value v0 v1 v2 v3 <> 4 ->
  version parsed = u32_value v0 v1 v2 v3
  /\ decode input = Throws UnsupportedVersion.
Proof.
  intros Hp Hsig Hskip Hv.
  assert (Hver : version parsed = u32_value v0 v1 v2 v3).
  { unfold BinaryParser.parse in Hp. rewrite fileParser_unfold, Hskip in Hp.
    unfold uint32le in Hp. rewrite uint32_value in Hp.
    destruct (array_readUntil_eof blockParser rest); try discriminate.
    injection Hp as <-. reflexivity. }
  split; [exact Hver |].
  unfold decode, parse. rewrite parseFileWithBufferBlocks_spec, Hp, Hsig.
  change (negb (String.eqb (toString_hex ALIVE) "414c495645000000")) with false.
  cbv iota. rewrite Hver. apply Z.eqb_neq in Hv. rewrite Hv. reflexivity.
Qed.

(** X1 at a complete file whose version field is 5. *)
Lemma X1_witness :
  decode (file ALIVE 5 [fmt_block fmt_300Hz 0; info_block info_264 0])
  = Throws UnsupportedVersion.
Proof.
  set (f := file ALIVE 5 [fmt_block fmt_300Hz 0; info_block info_264 0]).
  assert (Hp : {parsed | BinaryParser.parse "fileParser" fileParser f
                         = Returns parsed}).
  { eexists. vm_compute. reflexivity. }
  destruct Hp as [parsed Hp].
  assert (Hs : firstn 8 f = ALIVE) by reflexivity.
  assert (Hk : skipn 8 f = x05 :: x00 :: x00 :: x00 :: skipn 12 f)
    by reflexivity.
  assert (Hne : u32_value x05 x00 x00 x00 <> 4) by (vm_compute; discriminate).
  exact (proj2 (X1_unsupported_version f parsed _ _ _ _ _ Hp Hs Hk Hne)).
Defined.

(** X2: the container round trip.  A file laid out as signature, version
    and well-formed blocks is split into exactly that signature, that
    version and those blocks (identifier text, declared length, content,
    checksum), the empty block sequence included; with the ALIVE signature
    and version 4 the container reader accepts it. *)
Theorem X2_container_roundtrip (sig : list byte) (ver : Z) (bs : list RawBlock) :
  List.length sig = 8%nat ->
  0 <= ver < 2 ^ 32 ->
  Forall well_formed bs ->
  BinaryParser.parse "fileParser" fileParser (file sig ver bs)
  = Returns {| signature := sig; version := ver; blocks := map decoded bs |}
  /\ (sig = ALIVE -> ver = 4 ->
      parseFileWithBufferBlocks (file sig ver bs)
      = Returns {| signature := sig; version := ver; blocks := map decoded bs |}).
Proof.
  intros Hsig Hver Hwf.
  assert (H : BinaryParser.parse "fileParser" fileParser (file sig ver bs)
              = Returns {| signature := sig; version := ver;
                           blocks := map decoded bs |}).
  { unfold BinaryParser.parse. rewrite fileParser_file by assumption.
    rewrite Z.mod_small by exact Hver. reflexivity. }
  split; [exact H |].
  intros -> ->. unfold parseFileWithBufferBlocks. rewrite H. reflexivity.
Qed.

(** X2 at the three blocks of the round-trip file. *)
Lemma X2_witness :
  parseFileWithBufferBlocks (roundtrip_file info_264 1 2 3)
  = Returns {| signature := ALIVE; version := 4;
               blocks := map decoded
                           [ fmt_block fmt_300Hz 1; info_block info_264 2;
                             ecg_block samples_100_m200_300 3 ] |}.
Proof.
  apply (proj2 (X2_container_roundtrip ALIVE 4
                  [ fmt_block fmt_300Hz 1; info_block info_264 2;
                    ecg_block samples_100_m200_300 3 ]
                  eq_refl ltac:(lia) ltac:(repeat constructor))).
  - reflexivity.
  - reflexivity.
Defined.

(** X3: an input of fewer than 12 bytes (the empty input included) has no
    complete version field: decode fails with the container reader's
    RangeError, whatever the bytes are. *)
Theorem X3_short_input (input : list byte) :
  (List.length input < 12)%nat -> decode input = Throws TruncatedBlock.
Proof.
  intros H. apply decode_fileParser_fail. apply fileParser_short. exact H.
Qed.

(** X3 at the empty input and at the bare signature. *)
Lemma X3_witness :
  decode [] = Throws TruncatedBlock /\ decode ALIVE = Throws TruncatedBlock.
Proof.
  split.
  - apply (X3_short_input []). cbn. lia.
  - apply (X3_short_input ALIVE). cbn. lia.
Defined.

(** X4: bytes after the last complete block that are not a complete block
    (fewer than 12 of them, or a declared length that runs past the end of
    the input) make decode fail with the container reader's RangeError,
    also when signature, version and all earlier blocks are fine. *)
Theorem X4_incomplete_last_block
        (sig : list byte) (ver : Z) (bs : list RawBlock) (tail : list byte) :
  List.length sig = 8%nat ->
  Forall well_formed bs ->
  tail <> [] ->
  ((List.length tail < 12)%nat
   \/ exists tg len rest,
        tail = tg ++ le32 len ++ rest /\ List.length tg = 4%nat
        /\ Z.of_nat (List.length rest) < len mod 2 ^ 32 + 4) ->
  decode (file sig ver bs ++ tail) = Throws TruncatedBlock.
Proof.
  intros Hsig Hwf Hne Htail. apply decode_fileParser_fail.
  apply fileParser_file_fail; try assumption.
  destruct Htail as [Hshort | (tg & len & rest & -> & Htg & Hlen)].
  - apply blockParser_short. exact Hshort.
  - apply blockParser_overrun; assumption.
Qed.

(** X4 at the round-trip file followed by an [ecg2] block that declares 4
    content bytes and has 2, checksum included. *)
Lemma X4_witness :
  decode (roundtrip_file info_264 0 0 0
          ++ ascii "ecg2" ++ le32 4 ++ [x01; x02; x03; x04; x05; x06])
  = Throws TruncatedBlock.
Proof.
  apply (X4_incomplete_last_block ALIVE 4
           [ fmt_block fmt_300Hz 0; info_block info_264 0;
             ecg_block samples_100_m200_300 0 ]
           (ascii "ecg2" ++ le32 4 ++ [x01; x02; x03; x04; x05; x06])).
  - reflexivity.
  - repeat constructor.
  - discriminate.
  - right. exists (ascii "ecg2"), 4, [x01; x02; x03; x04; x05; x06].
    split; [reflexivity |]. split; [reflexivity |]. vm_compute. reflexivity.
Defined.

(** X5: a container-valid input is used up exactly: its length is the 8
    signature bytes, the 4 version bytes and, for every block, 12 bytes of
    frame plus the declared content length; and every block has exactly
    the content bytes its length field declares. *)
Theorem X5_input_accounted_for (input : list byte) (parsed : AliveCorFile) :
  container_valid input parsed ->
  List.length input = (8 + 4 + list_sum (map block_size (blocks parsed)))%nat
  /\ Forall (fun b => Z.of_nat (List.length (contents b)) = length b)
            (blocks parsed).
Proof.
  intros Hv. split.
  - apply container_valid_inv in Hv as (Hp & _ & _).
    unfold BinaryParser.parse in Hp. rewrite fileParser_unfold in Hp.
    destruct (uint32le (skipn 8 input)) as [v r | |] eqn:Ev; try discriminate.
    destruct (array_readUntil_eof blockParser r) as [bs rest | |] eqn:E;
      try discriminate.
    injection Hp as <-. cbn [blocks].
    apply uint32le_length in Ev. rewrite length_skipn in Ev.
    apply blocks_size in E. lia.
  - pose proof (container_valid_blocks input parsed Hv) as Hall.
    pose proof Hv as Hv'. apply container_valid_inv in Hv' as (Hp & _ & _).
    unfold BinaryParser.parse in Hp. rewrite fileParser_unfold in Hp.
    destruct (uint32le (skipn 8 input)) as [v r | |]; try discriminate.
    destruct (array_readUntil_eof blockParser r) as [bs rest | |] eqn:E;
      try discriminate.
    injection Hp as <-. cbn [blocks] in *.
    assert (Hpos : Forall (fun b => 0 <= length b) bs).
    { eapply array_readUntil_eof_Forall;
        [exact blockParser_productive | | exact E].
      intros buf b rest0. unfold blockParser, BinaryParser.bind, string_fixed,
        buffer, ret.
      destruct (uint32le (skipn (Z.to_nat 4) buf)) as [len r1 | |] eqn:E1;
        try discriminate.
      destruct (uint32le (skipn (Z.to_nat len) r1)); try discriminate.
      intros [= <- _]. cbn [length].
      apply uint32le_range in E1. lia. }
    rewrite Forall_forall in *. intros b Hb.
    specialize (Hall b Hb). specialize (Hpos b Hb). lia.
Qed.

(** X5 at the round-trip file: 12 + (12+8) + (12+264) + (12+6) bytes. *)
Lemma X5_witness :
  List.length (roundtrip_file info_264 0 0 0) = 326%nat.
Proof.
  assert (Hv : container_valid (roundtrip_file info_264 0 0 0)
                 {| signature := ALIVE; version := 4;
                    blocks := map decoded
                                [ fmt_block fmt_300Hz 0; info_block info_264 0;
                                  ecg_block samples_100_m200_300 0 ] |}).
  { vm_compute. reflexivity. }
  exact (proj1 (X5_input_accounted_for _ _ Hv)).
Defined.

End ContainerProperties.

(* ===================================================================== *)
(** ** Further properties: which blocks count                            *)
(* ===================================================================== *)

Module LocatorMore.
Import JS BinaryParser AliveCor Wire Spec BinaryParserFacts ParserFacts
  ContainerFacts AssemblerFacts DecodeFacts TextFacts LocatorFacts.

Lemma filter_length_permutation {A : Type} (p : A -> bool) (l1 l2 : list A) :
  Permutation l1 l2 ->
  List.length (filter p l1) = List.length (filter p l2).
Proof.
  induction 1 as [| x l l' _ IH | x y l | l l' l'' _ IH1 _ IH2]; cbn.
  - reflexivity.
  - destruct (p x); cbn; congruence.
  - destruct (p x), (p y); reflexivity.
  - congruence.
Qed.

Lemma find_permutation {A : Type} (p : A -> bool) (l1 l2 : list A) :
  Permutation l1 l2 ->
  (List.length (filter p l1) <= 1)%nat ->
  find p l1 = find p l2.
Proof.
  induction 1 as [| x l l' _ IH | x y l | l l' l'' H1 IH1 H2 IH2]; intros Hone.
  - reflexivity.
  - cbn in *. destruct (p x); [reflexivity |]. apply IH. exact Hone.
  - cbn in *. destruct (p x), (p y); try reflexivity. cbn in Hone. lia.
  - rewrite IH1 by exact Hone. apply IH2.
    rewrite <- (filter_length_permutation p l l' H1). exact Hone.
Qed.

Lemma find_shadowed {A : Type} (p : A -> bool) (before after : list A) (x : A) :
  (p x = true -> exists y, In y before /\ p y = true) ->
  find p (before ++ x :: after) = find p (before ++ after).
Proof.
  intros Hx. induction before as [| a before IH]; cbn.
  - destruct (p x) eqn:E; [| reflexivity].
    destruct (Hx eq_refl) as (y & [] & _).
  - destruct (p a) eqn:Ea; [reflexivity |]. apply IH.
    intros Hp. destruct (Hx Hp) as (y & [-> | Hin] & Hy).
    + congruence.
    + exists y. split; assumption.
Qed.

(** [assemble] uses of a located block its contents only. *)
Lemma assemble_ext_contents (p1 p2 : AliveCorFile) :
  (forall type, In type recognized ->
                option_map contents (findBlock p1 type)
                = option_map contents (findBlock p2 type)) ->
  assemble p1 = assemble p2.
Proof.
  intros H.
  assert (Hi : parseInfoBlock p1 = parseInfoBlock p2).
  { unfold parseInfoBlock. specialize (H "info"%string ltac:(cbn; tauto)).
    destruct (findBlock p1 "info"), (findBlock p2 "info"); cbn in H;
      try discriminate; try reflexivity.
    injection H as ->. reflexivity. }
  assert (Hf : parseFormatBlock p1 = parseFormatBlock p2).
  { unfold parseFormatBlock. specialize (H "fmt "%string ltac:(cbn; tauto)).
    destruct (findBlock p1 "fmt "), (findBlock p2 "fmt "); cbn in H;
      try discriminate; try reflexivity.
    injection H as ->. reflexivity. }
  assert (Ha : parseAnnotationBlock p1 = parseAnnotationBlock p2).
  { unfold parseAnnotationBlock. specialize (H "ann "%string ltac:(cbn; tauto)).
    destruct (findBlock p1 "ann "), (findBlock p2 "ann "); cbn in H;
      try discriminate; try reflexivity.
    injection H as ->. reflexivity. }
  assert (Hl : mapM (leadItem p1) leadTable = mapM (leadItem p2) leadTable).
  { apply mapM_ext. intros [type name] Hin. unfold leadItem, parseLeadBlock.
    assert (Hr : In type recognized).
    { cbn in Hin. cbn.
      repeat (destruct Hin as [[= <- <-] | Hin]; [tauto |]). contradiction. }
    specialize (H type Hr).
    destruct (findBlock p1 type), (findBlock p2 type); cbn in H;
      try discriminate; try reflexivity.
    injection H as ->. reflexivity. }
  unfold assemble. rewrite Hi, Hf, Ha, Hl. reflexivity.
Qed.

Lemma find_payload (p : jsstring -> bool) (bs bs' : list RawBlock) :
  map payload bs = map payload bs' ->
  option_map contents (find (fun b => p (identifier b)) (map decoded bs))
  = option_map contents (find (fun b => p (identifier b)) (map decoded bs')).
Proof.
  revert bs'. induction bs as [| b bs IH]; intros [| b' bs']; cbn [map];
    try discriminate; [reflexivity |].
  intros H.
  assert (Hb : payload b = payload b') by congruence.
  assert (Hbs : map payload bs = map payload bs') by congruence.
  assert (Ht : tag b = tag b') by (unfold payload in Hb; congruence).
  assert (Hc : content b = content b') by (unfold payload in Hb; congruence).
  cbn [find decoded identifier]. rewrite Ht.
  destruct (p (TextDecoder_decode (tag b'))).
  - cbn. rewrite Hc. reflexivity.
  - apply IH. exact Hbs.
Qed.

Lemma well_formed_payload (bs bs' : list RawBlock) :
  map payload bs = map payload bs' ->
  Forall well_formed bs -> Forall well_formed bs'.
Proof.
  revert bs'. induction bs as [| b bs IH]; intros [| b' bs']; cbn [map];
    try discriminate; [constructor |].
  intros H Hwf.
  assert (Hb : payload b = payload b') by congruence.
  assert (Hbs : map payload bs = map payload bs') by congruence.
  assert (Ht : tag b = tag b') by (unfold payload in Hb; congruence).
  assert (Hc : content b = content b') by (unfold payload in Hb; congruence).
  inversion Hwf as [| ? ? Hb0 Hbs0]; subst.
  constructor; [| apply IH; assumption].
  unfold well_formed in *. rewrite <- Ht, <- Hc. exact Hb0.
Qed.

End LocatorMore.

Module LocatorProperties.
Import JS BinaryParser AliveCor Wire Spec BinaryParserFacts ParserFacts
  ContainerFacts AssemblerFacts DecodeFacts TextFacts LocatorFacts LocatorMore.

(** X6: blocks may come in any order.  When no two blocks of a file carry
    the same recognized identifier, decode gives the same result, record
    or failure, for every order of the blocks. *)
Theorem X6_block_order_irrelevant
        (sig : list byte) (ver : Z) (bs bs' : list RawBlock) :
  List.length sig = 8%nat ->
  Forall well_formed bs ->
  Permutation bs bs' ->
  (forall type, In type recognized -> at_most_one type (map decoded bs)) ->
  decode (file sig ver bs) = decode (file sig ver bs').
Proof.
  intros Hsig Hwf Hperm Hone. unfold decode.
  assert (Hwf' : Forall well_formed bs').
  { eapply Permutation_Forall; eassumption. }
  rewrite !parse_file by assumption.
  destruct (negb (String.eqb (toString_hex sig) "414c495645000000"));
    [reflexivity |].
  destruct (negb (ver mod 2 ^ 32 =? 4)); [reflexivity |].
  apply assemble_ext. intros type Ht. unfold findBlock. cbn [blocks].
  apply find_permutation.
  - apply Permutation_map. exact Hperm.
  - apply Hone. exact Ht.
Qed.

(** X6 at the round-trip file with its blocks in the order ecg, info, fmt. *)
Lemma X6_witness :
  decode (roundtrip_file info_264 0 0 0)
  = decode (file ALIVE 4
              [ ecg_block samples_100_m200_300 0; info_block info_264 0;
                fmt_block fmt_300Hz 0 ]).
Proof.
  apply (X6_block_order_irrelevant ALIVE 4
           [ fmt_block fmt_300Hz 0; info_block info_264 0;
             ecg_block samples_100_m200_300 0 ]).
  - reflexivity.
  - repeat constructor.
  - apply Permutation_rev.
  - intros type Ht. cbn in Ht.
    repeat (destruct Ht as [<- | Ht]; [vm_compute; lia |]). contradiction.
Defined.

(** X7: of several blocks with the same identifier only the first is ever
    looked at: a block that follows a block with the same identifier bytes
    can be dropped from the file, whatever it contains, without changing
    the result of decode. *)
Theorem X7_later_duplicate_ignored
        (sig : list byte) (ver : Z) (before : list RawBlock) (x : RawBlock)
        (after : list RawBlock) :
  List.length sig = 8%nat ->
  Forall well_formed (before ++ x :: after) ->
  (exists y, In y before /\ tag y = tag x) ->
  decode (file sig ver (before ++ x :: after))
  = decode (file sig ver (before ++ after)).
Proof.
  intros Hsig Hwf (y & Hy & Htag). unfold decode.
  assert (Hwf' : Forall well_formed (before ++ after)).
  { apply Forall_app in Hwf as [H1 H2]. apply Forall_app. split; [exact H1 |].
    inversion H2; assumption. }
  rewrite !parse_file by assumption.
  destruct (negb (String.eqb (toString_hex sig) "414c495645000000"));
    [reflexivity |].
  destruct (negb (ver mod 2 ^ 32 =? 4)); [reflexivity |].
  apply assemble_ext. intros type Ht. unfold findBlock. cbn [blocks].
  rewrite !map_app. cbn [map]. apply find_shadowed.
  intros Hx. exists (decoded y). split; [apply in_map; exact Hy |].
  cbn [decoded identifier] in *. rewrite Htag. exact Hx.
Qed.

(** X7 at the round-trip file with a second [ecg ] block of odd length
    after the first. *)
Lemma X7_witness :
  decode (file ALIVE 4
            ([ fmt_block fmt_300Hz 0; info_block info_264 0;
               ecg_block samples_100_m200_300 0 ]
             ++ ecg_block [x01; x02; x03] 0 :: []))
  = decode (file ALIVE 4
              ([ fmt_block fmt_300Hz 0; info_block info_264 0;
                 ecg_block samples_100_m200_300 0 ] ++ [])).
Proof.
  apply (X7_later_duplicate_ignored ALIVE 4
           [ fmt_block fmt_300Hz 0; info_block info_264 0;
             ecg_block samples_100_m200_300 0 ]
           (ecg_block [x01; x02; x03] 0) []).
  - reflexivity.
  - repeat constructor.
  - exists (ecg_block samples_100_m200_300 0). split; [| reflexivity].
    right. right. left. reflexivity.
Defined.

(** X8: checksums are read and never used: two files that differ only in
    the checksum fields of their blocks decode to the same result. *)
Theorem X8_checksums_ignored
        (sig : list byte) (ver : Z) (bs bs' : list RawBlock) :
  List.length sig = 8%nat ->
  Forall well_formed bs ->
  map payload bs = map payload bs' ->
  decode (file sig ver bs) = decode (file sig ver bs').
Proof.
  intros Hsig Hwf Hp. unfold decode.
  pose proof (well_formed_payload bs bs' Hp Hwf) as Hwf'.
  rewrite !parse_file by assumption.
  destruct (negb (String.eqb (toString_hex sig) "414c495645000000"));
    [reflexivity |].
  destruct (negb (ver mod 2 ^ 32 =? 4)); [reflexivity |].
  apply assemble_ext_contents. intros type Ht. unfold findBlock. cbn [blocks].
  apply (find_payload (fun i => strict_eq i (lit type))). exact Hp.
Qed.

(** X8 at the round-trip file with two different sets of checksums. *)
Lemma X8_witness :
  decode (roundtrip_file info_264 0 0 0)
  = decode (roundtrip_file info_264 4294967295 17 3735928559).
Proof.
  apply (X8_checksums_ignored ALIVE 4
           [ fmt_block fmt_300Hz 0; info_block info_264 0;
             ecg_block samples_100_m200_300 0 ]
           [ fmt_block fmt_300Hz 4294967295; info_block info_264 17;
             ecg_block samples_100_m200_300 3735928559 ]).
  - reflexivity.
  - repeat constructor.
  - reflexivity.
Defined.

End LocatorProperties.

(* ===================================================================== *)
(** ** Further properties: the field decoders                            *)
(* ===================================================================== *)

Module DecoderMore.
Import JS BinaryParser AliveCor Wire Spec BinaryParserFacts ParserFacts
  ContainerFacts AssemblerFacts DecodeFacts TextFacts LocatorFacts.

(** *** Bits *)

Lemma bit1_testbit (v k : Z) : 0 <= k -> bit1 v k = Z.b2z (Z.testbit v k).
Proof.
  intros Hk. unfold bit1.
  change 1 with (Z.ones 1) at 1. rewrite Z.land_ones by lia.
  change (2 ^ 1) with 2. rewrite <- Z.bit0_mod.
  rewrite Z.shiftr_spec by lia. reflexivity.
Qed.

Lemma convertToBoolean_bit (v k : Z) :
  0 <= k -> convertToBoolean (bit1 v k) = Boolean (Z.testbit v k).
Proof.
  intros Hk. rewrite bit1_testbit by exact Hk. unfold convertToBoolean.
  destruct (Z.testbit v k); reflexivity.
Qed.

Lemma mainsFrequency_bit (v : Z) :
  mainsFrequencyFormatter (bit1 v 1)
  = Num (if Z.testbit v 1 then 60 else 50).
Proof.
  rewrite bit1_testbit by lia. unfold mainsFrequencyFormatter.
  destruct (Z.testbit v 1); reflexivity.
Qed.

Lemma formatBlockParser_spec (content : list byte) :
  formatBlockParser content =
  match content with
  | b0 :: b1 :: b2 :: b3 :: b4 :: flags :: b6 :: b7 :: rest =>
      Done (format_record b0 b1 b2 b3 b4 flags b6 b7) rest
  | _ => OutOfRange
  end.
Proof.
  destruct content as [| b0 [| b1 [| b2 [| b3 [| b4 [| b5 [| b6 [| b7 r]]]]]]]];
    try reflexivity.
  unfold formatBlockParser, BinaryParser.bind, uint8, uint16le, ret, format_record.
  cbv beta iota.
  rewrite !uint16_value, mainsFrequency_bit, !convertToBoolean_bit by lia.
  rewrite !bit1_testbit by lia. reflexivity.
Qed.

(** *** Little-endian layout *)

Lemma le16_value (n : Z) :
  u8 (byte_of n) + 256 * u8 (byte_of (n / 256)) = n mod 65536.
Proof.
  rewrite !u8_byte_of. Z.div_mod_to_equations. lia.
Qed.

Lemma le32_value (n : Z) :
  u32_value (byte_of n) (byte_of (n / 256)) (byte_of (n / 65536))
            (byte_of (n / 16777216))
  = n mod 2 ^ 32.
Proof.
  unfold u32_value. rewrite !u8_byte_of. change (2 ^ 32) with 4294967296.
  Z.div_mod_to_equations. lia.
Qed.

Lemma byte_of_unique (z : Z) (b : byte) : u8 b = z mod 256 -> byte_of z = b.
Proof.
  intros H. apply u8_inj. rewrite u8_byte_of. symmetry. exact H.
Qed.

Lemma to_int16_le16 (n : Z) :
  -32768 <= n < 32768 ->
  to_int16 (u8 (byte_of n) + 256 * u8 (byte_of (n / 256))) = n.
Proof.
  intros Hn. rewrite le16_value. unfold to_int16.
  destruct (Z.ltb_spec (n mod 65536) 32768); Z.div_mod_to_equations; lia.
Qed.

Lemma le16_to_int16 (lo hi : byte) :
  le16 (to_int16 (u8 lo + 256 * u8 hi)) = [lo; hi].
Proof.
  pose proof (u8_range lo). pose proof (u8_range hi).
  unfold le16. f_equal; [| f_equal]; apply byte_of_unique; unfold to_int16;
    destruct (Z.ltb_spec (u8 lo + 256 * u8 hi) 32768);
    Z.div_mod_to_equations; lia.
Qed.

(** *** Text *)

Lemma dropWhile_all {A : Type} (p : A -> bool) (a l : list A) :
  Forall (fun x => p x = true) a -> dropWhile p (a ++ l) = dropWhile p l.
Proof.
  induction 1 as [| x a Hx _ IH]; [reflexivity |]. cbn. rewrite Hx. exact IH.
Qed.

Lemma dropWhile_none {A : Type} (p : A -> bool) (l : list A) :
  (forall c, hd_error l = Some c -> p c = false) -> dropWhile p l = l.
Proof.
  destruct l as [| x l]; [reflexivity |]. cbn. intros H.
  rewrite (H x eq_refl). reflexivity.
Qed.

Lemma dropWhile_head {A : Type} (p : A -> bool) (l : list A) (c : A) :
  hd_error (dropWhile p l) = Some c -> p c = false.
Proof.
  induction l as [| x l IH]; cbn; [discriminate |].
  destruct (p x) eqn:E; [exact IH |]. cbn. intros [= <-]. exact E.
Qed.

Lemma dropWhile_suffix {A : Type} (p : A -> bool) (l : list A) :
  exists a, l = a ++ dropWhile p l.
Proof.
  induction l as [| x l [a IH]]; [exists []; reflexivity |]. cbn.
  destruct (p x).
  - exists (x :: a). cbn. rewrite <- IH. reflexivity.
  - exists []. reflexivity.
Qed.

Lemma dropWhileEnd_prefix {A : Type} (p : A -> bool) (l : list A) :
  exists r, l = dropWhileEnd p l ++ r.
Proof.
  unfold dropWhileEnd. destruct (dropWhile_suffix p (rev l)) as [a Ha].
  exists (rev a). rewrite <- rev_app_distr, <- Ha, rev_involutive. reflexivity.
Qed.

Lemma dropWhileEnd_none {A : Type} (p : A -> bool) (l : list A) :
  (forall c, hd_error (rev l) = Some c -> p c = false) -> dropWhileEnd p l = l.
Proof.
  intros H. unfold dropWhileEnd. rewrite dropWhile_none by exact H.
  apply rev_involutive.
Qed.

Lemma dropWhileEnd_all {A : Type} (p : A -> bool) (l r : list A) :
  Forall (fun x => p x = true) r ->
  dropWhileEnd p (l ++ r) = dropWhileEnd p l.
Proof.
  intros Hr. unfold dropWhileEnd. rewrite rev_app_distr.
  rewrite dropWhile_all; [reflexivity |]. apply Forall_rev. exact Hr.
Qed.

(** What [.trim()] returns has no white space at either end. *)
Lemma trim_trimmed (s : jsstring) : trimmed (trim s).
Proof.
  unfold trimmed, trim. split.
  - intros c Hc.
    destruct (dropWhileEnd_prefix is_whitespace (dropWhile is_whitespace s))
      as [r Hr].
    apply (dropWhile_head is_whitespace s). rewrite Hr.
    destruct (dropWhileEnd is_whitespace (dropWhile is_whitespace s));
      [discriminate Hc | exact Hc].
  - intros c. unfold dropWhileEnd. rewrite rev_involutive.
    apply dropWhile_head.
Qed.

Lemma trim_id (s : jsstring) : trimmed s -> trim s = s.
Proof.
  intros [Hfront Hback]. unfold trim.
  rewrite dropWhile_none by exact Hfront. apply dropWhileEnd_none. exact Hback.
Qed.

Lemma utf8_step_ascii_byte (v : Z) :
  v <= 127 -> utf8_step utf8_start v = ([v], utf8_start).
Proof.
  intros Hv. unfold utf8_step, utf8_start, utf8_lead. cbn [bytes_left].
  destruct (Z.leb_spec v 127); [reflexivity | lia].
Qed.

Lemma drop_bom_other (cp : Z) (cps : list Z) :
  cp <> 65279 -> drop_bom (cp :: cps) = cp :: cps.
Proof.
  intros Hne. unfold drop_bom.
  destruct cp as [| q | q]; try reflexivity.
  do 16 (destruct q as [q | q |]; try reflexivity).
  contradiction Hne. reflexivity.
Qed.

(** ASCII bytes decode to themselves. *)
Lemma TextDecoder_decode_ascii_bytes (bytes : list byte) :
  Forall (fun b => u8 b < 128) bytes ->
  TextDecoder_decode bytes = map u8 bytes.
Proof.
  intros Hall. unfold TextDecoder_decode.
  assert (Hcp : utf8_code_points utf8_start bytes = map u8 bytes).
  { induction Hall as [| b bytes Hb _ IH]; [reflexivity |].
    cbn [utf8_code_points map]. rewrite utf8_step_ascii_byte by lia.
    rewrite IH. reflexivity. }
  rewrite Hcp.
  assert (Hbom : drop_bom (map u8 bytes) = map u8 bytes).
  { destruct Hall as [| b bytes Hb _]; [reflexivity |]. cbn [map].
    apply drop_bom_other. lia. }
  rewrite Hbom. clear Hcp Hbom.
  induction Hall as [| b bytes Hb _ IH]; [reflexivity |].
  cbn [map flat_map]. rewrite IH. unfold utf16_units.
  destruct (Z.ltb_spec (u8 b) 65536); [reflexivity | lia].
Qed.

Lemma text_field_length (t : list byte) (width : nat) :
  (List.length t <= width)%nat -> List.length (text_field t width) = width.
Proof.
  intros H. unfold text_field. rewrite length_app, repeat_length. lia.
Qed.

(** A clean text written into a field comes back. *)
Lemma info_field_clean (t : list byte) (width : nat) (post : list byte) :
  clean_text t width ->
  info_field (text_field t width ++ post) 0 width = map u8 t.
Proof.
  intros (Hlen & Hascii & Htrim). unfold info_field.
  rewrite skipn_0, firstn_app_exact by (apply text_field_length; exact Hlen).
  unfold text_field.
  rewrite TextDecoder_decode_ascii_bytes.
  2: { apply Forall_app. split.
       - eapply Forall_impl; [| exact Hascii]. cbn. intros b Hb. lia.
       - apply Forall_forall. intros b Hb. apply repeat_spec in Hb. subst b.
         cbn. lia. }
  rewrite map_app. unfold stripTrailingNulls.
  rewrite dropWhileEnd_all.
  2: { apply Forall_forall. intros c Hc. apply in_map_iff in Hc as (b & <- & Hb).
       apply repeat_spec in Hb. subst b. reflexivity. }
  rewrite dropWhileEnd_none.
  - apply trim_id. exact Htrim.
  - intros c Hc.
    assert (Hin : In c (map u8 t)).
    { apply in_rev. destruct (rev (map u8 t)); [discriminate Hc |].
      injection Hc as ->. left. reflexivity. }
    apply in_map_iff in Hin as (b & <- & Hb).
    rewrite Forall_forall in Hascii. specialize (Hascii b Hb).
    apply Z.eqb_neq. lia.
Qed.

Lemma info_field_skip (pre rest : list byte) (n start width : nat) :
  List.length pre = n ->
  info_field (pre ++ rest) (n + start) width = info_field rest start width.
Proof.
  intros Hn. unfold info_field. rewrite Nat.add_comm, <- skipn_skipn.
  rewrite skipn_app_exact by exact Hn. reflexivity.
Qed.

Lemma info_field_skip_to (pre rest : list byte) (n start start' width : nat) :
  List.length pre = n -> start' = (n + start)%nat ->
  info_field (pre ++ rest) start' width = info_field rest start width.
Proof.
  intros Hn ->. apply info_field_skip. exact Hn.
Qed.

Lemma info_field_prefix (content : list byte) (n start width : nat) :
  (start + width <= n)%nat ->
  info_field (firstn n content) start width = info_field content start width.
Proof.
  intros H. unfold info_field. do 3 f_equal.
  rewrite skipn_firstn_comm, firstn_firstn. f_equal. lia.
Qed.

End DecoderMore.

Module DecoderProperties.
Import JS BinaryParser AliveCor Wire Spec BinaryParserFacts ParserFacts
  ContainerFacts AssemblerFacts DecodeFacts TextFacts LocatorFacts DecoderMore.

(** X9: the format decoder needs eight content bytes and looks at no more:
    with fewer it fails (RangeError of the format parser); otherwise it
    returns the format code, two little-endian 16-bit numbers, the flags
    bit by bit from the least significant one (polarity as the number 0 or
    1, mains frequency 50 or 60, five booleans, the unused bit as a number)
    and the reserved number, whatever follows the eighth byte. *)
Theorem X9_format_decoder (content : list byte) :
  BinaryParser.parse "formatBlockParser" formatBlockParser content =
  match content with
  | b0 :: b1 :: b2 :: b3 :: b4 :: flags :: b6 :: b7 :: _ =>
      Returns (format_record b0 b1 b2 b3 b4 flags b6 b7)
  | _ => Throws MalformedFormatBlock
  end.
Proof.
  unfold BinaryParser.parse. rewrite formatBlockParser_spec.
  destruct content as [| b0 [| b1 [| b2 [| b3 [| b4 [| b5 [| b6 [| b7 r]]]]]]]];
    reflexivity.
Qed.

(** X10: the text round trip of the info block.  Seven texts of ASCII
    bytes without nulls and without white space at either end, each
    written into its field (32, 40, 44, 32, 32, 32, 52 bytes) and padded
    with zero bytes, are decoded to exactly those texts, whatever follows
    the 264th byte. *)
Theorem X10_info_text_roundtrip (t1 t2 t3 t4 t5 t6 t7 surplus : list byte) :
  clean_text t1 32 -> clean_text t2 40 -> clean_text t3 44 ->
  clean_text t4 32 -> clean_text t5 32 -> clean_text t6 32 ->
  clean_text t7 52 ->
  BinaryParser.parse "infoBlockParser" infoBlockParser
    (text_field t1 32 ++ text_field t2 40 ++ text_field t3 44
     ++ text_field t4 32 ++ text_field t5 32 ++ text_field t6 32
     ++ text_field t7 52 ++ surplus)
  = Returns {| dateRecorded := map u8 t1;
               recordingUuid := map u8 t2;
               mobilePhoneUuid := map u8 t3;
               mobilePhoneModel := map u8 t4;
               recorderSoftware := map u8 t5;
               recorderHardware := map u8 t6;
               deviceData := map u8 t7 |}.
Proof.
  intros H1 H2 H3 H4 H5 H6 H7.
  pose proof (text_field_length t1 32 (proj1 H1)) as L1.
  pose proof (text_field_length t2 40 (proj1 H2)) as L2.
  pose proof (text_field_length t3 44 (proj1 H3)) as L3.
  pose proof (text_field_length t4 32 (proj1 H4)) as L4.
  pose proof (text_field_length t5 32 (proj1 H5)) as L5.
  pose proof (text_field_length t6 32 (proj1 H6)) as L6.
  unfold BinaryParser.parse. rewrite infoBlockParser_spec.
  rewrite (info_field_clean t1 32 _ H1).
  rewrite (info_field_skip_to (text_field t1 32) _ 32 0 32 40 L1 eq_refl).
  rewrite (info_field_clean t2 40 _ H2).
  rewrite (info_field_skip_to (text_field t1 32) _ 32 40 72 44 L1 eq_refl).
  rewrite (info_field_skip_to (text_field t2 40) _ 40 0 40 44 L2 eq_refl).
  rewrite (info_field_clean t3 44 _ H3).
  rewrite (info_field_skip_to (text_field t1 32) _ 32 84 116 32 L1 eq_refl).
  rewrite (info_field_skip_to (text_field t2 40) _ 40 44 84 32 L2 eq_refl).
  rewrite (info_field_skip_to (text_field t3 44) _ 44 0 44 32 L3 eq_refl).
  rewrite (info_field_clean t4 32 _ H4).
  rewrite (info_field_skip_to (text_field t1 32) _ 32 116 148 32 L1 eq_refl).
  rewrite (info_field_skip_to (text_field t2 40) _ 40 76 116 32 L2 eq_refl).
  rewrite (info_field_skip_to (text_field t3 44) _ 44 32 76 32 L3 eq_refl).
  rewrite (info_field_skip_to (text_field t4 32) _ 32 0 32 32 L4 eq_refl).
  rewrite (info_field_clean t5 32 _ H5).
  rewrite (info_field_skip_to (text_field t1 32) _ 32 148 180 32 L1 eq_refl).
  rewrite (info_field_skip_to (text_field t2 40) _ 40 108 148 32 L2 eq_refl).
  rewrite (info_field_skip_to (text_field t3 44) _ 44 64 108 32 L3 eq_refl).
  rewrite (info_field_skip_to (text_field t4 32) _ 32 32 64 32 L4 eq_refl).
  rewrite (info_field_skip_to (text_field t5 32) _ 32 0 32 32 L5 eq_refl).
  rewrite (info_field_clean t6 32 _ H6).
  rewrite (info_field_skip_to (text_field t1 32) _ 32 180 212 52 L1 eq_refl).
  rewrite (info_field_skip_to (text_field t2 40) _ 40 140 180 52 L2 eq_refl).
  rewrite (info_field_skip_to (text_field t3 44) _ 44 96 140 52 L3 eq_refl).
  rewrite (info_field_skip_to (text_field t4 32) _ 32 64 96 52 L4 eq_refl).
  rewrite (info_field_skip_to (text_field t5 32) _ 32 32 64 52 L5 eq_refl).
  rewrite (info_field_skip_to (text_field t6 32) _ 32 0 32 52 L6 eq_refl).
  rewrite (info_field_clean t7 52 _ H7).
  reflexivity.
Qed.

Ltac clean_text_example :=
  split; [cbn; lia |];
  split; [repeat constructor |];
  split; intros c Hc; vm_compute in Hc;
  first [discriminate Hc | injection Hc as <-; reflexivity].

(** X10 at six short texts and an empty device data field, followed by
    two surplus bytes. *)
Lemma X10_witness :
  BinaryParser.parse "infoBlockParser" infoBlockParser
    (text_field (ascii "2020-01-01") 32 ++ text_field (ascii "2f1e") 40
     ++ text_field (ascii "77aa") 44 ++ text_field (ascii "Phone 7") 32
     ++ text_field (ascii "Kardia") 32 ++ text_field (ascii "AC-009") 32
     ++ text_field [] 52 ++ [xff; xfe])
  = Returns {| dateRecorded := lit "2020-01-01";
               recordingUuid := lit "2f1e";
               mobilePhoneUuid := lit "77aa";
               mobilePhoneModel := lit "Phone 7";
               recorderSoftware := lit "Kardia";
               recorderHardware := lit "AC-009";
               deviceData := [] |}.
Proof.
  apply (X10_info_text_roundtrip
           (ascii "2020-01-01") (ascii "2f1e") (ascii "77aa") (ascii "Phone 7")
           (ascii "Kardia") (ascii "AC-009") [] [xff; xfe]);
    clean_text_example.
Defined.

(** X11: the info decoder reads the first 264 content bytes only: the
    record of a content is the record of its first 264 bytes. *)
Theorem X11_info_surplus_ignored (content : list byte) :
  BinaryParser.parse "infoBlockParser" infoBlockParser content
  = BinaryParser.parse "infoBlockParser" infoBlockParser (firstn 264 content).
Proof.
  unfold BinaryParser.parse. rewrite !infoBlockParser_spec.
  rewrite !(info_field_prefix content 264) by lia. reflexivity.
Qed.

(** X12: the signal round trip.  Samples within the signed 16-bit range,
    written as consecutive little-endian byte pairs, are decoded to the
    same samples; and the samples decoded from a content, written back,
    give that content. *)
Theorem X12_signal_roundtrip :
  (forall samples : list Z,
      Forall (fun s => -32768 <= s < 32768) samples ->
      BinaryParser.parse "leadBlockParser" leadBlockParser
        (signal_content samples)
      = Returns samples)
  /\ (forall (content : list byte) (samples : list Z),
         BinaryParser.parse "leadBlockParser" leadBlockParser content
         = Returns samples ->
         signal_content samples = content).
Proof.
  split.
  - intros samples Hall. unfold BinaryParser.parse.
    assert (H : leadBlockParser (signal_content samples) = Done samples []).
    { induction Hall as [| s samples Hs _ IH]; [reflexivity |].
      unfold signal_content. cbn [flat_map le16 app].
      rewrite leadBlockParser_unfold. fold (signal_content samples).
      rewrite IH, to_int16_le16 by exact Hs. reflexivity. }
    rewrite H. reflexivity.
  - intros content samples. unfold BinaryParser.parse.
    rewrite leadBlockParser_spec.
    destruct (Nat.even (List.length content)) eqn:Heven; [| discriminate].
    intros [= <-].
    remember (List.length content) as n eqn:Hn.
    revert content Hn Heven. induction n as [n IH] using lt_wf_ind.
    intros content Hn Heven.
    destruct content as [| lo [| hi rest]]; subst n;
      try reflexivity; try discriminate.
    cbn [int16_samples]. unfold signal_content. cbn [flat_map].
    rewrite le16_to_int16. cbn [app]. do 2 f_equal.
    apply (IH (List.length rest)); [cbn; lia | reflexivity | exact Heven].
Qed.

(** X12 at the samples -32768, -1, 0, 32767 and at the content of the
    round-trip file. *)
Lemma X12_witness :
  BinaryParser.parse "leadBlockParser" leadBlockParser
    (signal_content [-32768; -1; 0; 32767])
  = Returns [-32768; -1; 0; 32767]
  /\ signal_content [100; -200; 300] = samples_100_m200_300.
Proof.
  split.
  - apply (proj1 X12_signal_roundtrip). repeat constructor; discriminate.
  - apply (proj2 X12_signal_roundtrip samples_100_m200_300).
    vm_compute. reflexivity.
Defined.

(** X13: the annotation round trip.  A tick frequency and offsets within
    32 bits and beat types within 16 bits, written as a 4-byte frequency
    followed by 6-byte records, are decoded to the same annotation. *)
Theorem X13_annotation_roundtrip (a : AliveCorEcgAnnotation) :
  0 <= tickCountFrequencyHz a < 2 ^ 32 ->
  Forall (fun t => 0 <= offset t < 2 ^ 32 /\ 0 <= beatType t < 65536) (ticks a) ->
  BinaryParser.parse "annotationBlockParser" annotationBlockParser
    (annotation_content a)
  = Returns a.
Proof.
  intros Hf Hall. unfold BinaryParser.parse.
  rewrite annotationBlockParser_spec. destruct a as [freq tks].
  unfold annotation_content. cbn [tickCountFrequencyHz ticks] in *.
  unfold le32 at 1. cbn [app].
  assert (Hlen : Z.of_nat (List.length (flat_map tick_content tks)) mod 6 = 0).
  { clear Hall. induction tks as [| t tks IH]; [reflexivity |].
    cbn [flat_map]. unfold tick_content at 1.
    cbn [le32 le16 app List.length].
    replace (Z.of_nat (S (S (S (S (S (S (List.length
               (flat_map tick_content tks)))))))))
      with (Z.of_nat (List.length (flat_map tick_content tks)) + 1 * 6) by lia.
    rewrite Z.mod_add by lia. exact IH. }
  apply Z.eqb_eq in Hlen. rewrite Hlen.
  fold (u32_value (byte_of freq) (byte_of (freq / 256)) (byte_of (freq / 65536))
          (byte_of (freq / 16777216))).
  rewrite le32_value, Z.mod_small by exact Hf.
  do 2 f_equal. clear Hlen Hf.
  induction Hall as [| t tks [Ho Hb] _ IH]; [reflexivity |].
  cbn [flat_map]. unfold tick_content at 1. cbn [le32 le16 app tick_records].
  fold (u32_value (byte_of (offset t)) (byte_of (offset t / 256))
          (byte_of (offset t / 65536)) (byte_of (offset t / 16777216))).
  rewrite le32_value, le16_value, IH, !Z.mod_small by assumption.
  destruct t. reflexivity.
Qed.

(** X13 at a frequency of 300 Hz with two ticks. *)
Lemma X13_witness :
  BinaryParser.parse "annotationBlockParser" annotationBlockParser
    (annotation_content
       {| tickCountFrequencyHz := 300;
          ticks := [ {| offset := 70000; beatType := 1 |};
                     {| offset := 4294967295; beatType := 65535 |} ] |})
  = Returns {| tickCountFrequencyHz := 300;
               ticks := [ {| offset := 70000; beatType := 1 |};
                          {| offset := 4294967295; beatType := 65535 |} ] |}.
Proof.
  apply X13_annotation_roundtrip.
  - cbn. lia.
  - repeat constructor; cbn; lia.
Defined.

End DecoderProperties.

(* ===================================================================== *)
(** ** Further properties: decode as a whole                             *)
(* ===================================================================== *)

Module DecodeMore.
Import JS BinaryParser AliveCor Wire Spec BinaryParserFacts ParserFacts
  ContainerFacts AssemblerFacts DecodeFacts TextFacts LocatorFacts DecoderMore.

Lemma parseAnnotationBlock_outcome (parsed : AliveCorFile) :
  parseAnnotationBlock parsed =
  if annotation_ok parsed
  then Returns (option_map (fun b => annotation_record (contents b))
                           (findBlock parsed "ann "))
  else Throws MalformedAnnotationBlock.
Proof.
  rewrite parseAnnotationBlock_spec. unfold annotation_ok.
  destruct (findBlock parsed "ann ") as [b |]; [| reflexivity].
  cbn [option_map]. unfold annotation_record.
  destruct (contents b) as [| f0 [| f1 [| f2 [| f3 records]]]]; try reflexivity.
  replace (Z.of_nat (List.length (f0 :: f1 :: f2 :: f3 :: records)) - 4)
    with (Z.of_nat (List.length records)) by (cbn [List.length]; lia).
  destruct (Z.of_nat (List.length records) mod 6 =? 0); reflexivity.
Qed.

Lemma leads_ok_spec (parsed : AliveCorFile) :
  leads_ok parsed = true <-> leads_decodable parsed.
Proof.
  unfold leads_ok, leads_decodable. rewrite forallb_forall. split.
  - intros H type name b Hin Hb. specialize (H (type, name) Hin).
    cbn [fst] in H. rewrite Hb in H. exact H.
  - intros H [type name] Hin. cbn [fst].
    destruct (findBlock parsed type) as [b |] eqn:Hb; [| reflexivity].
    apply (H type name b Hin Hb).
Qed.

Lemma leadItems_outcome (parsed : AliveCorFile) :
  mapM (leadItem parsed) leadTable =
  if leads_ok parsed
  then Returns (map (fun e => (snd e, lead_data parsed (fst e))) leadTable)
  else Throws MalformedSignalBlock.
Proof.
  destruct (leads_ok parsed) eqn:E.
  - apply leadItems_ok. apply leads_ok_spec. exact E.
  - unfold leads_ok in E.
    assert (Hex : exists e, In e leadTable
                            /\ match findBlock parsed (fst e) with
                               | Some b => Nat.even (List.length (contents b))
                               | None => true
                               end = false).
    { clear -E. induction leadTable as [| e l IH]; [discriminate E |].
      cbn [forallb] in E. apply andb_false_iff in E as [E | E].
      - exists e. split; [left; reflexivity | exact E].
      - destruct (IH E) as (e' & Hin & He'). exists e'. split; [right |]; assumption. }
    destruct Hex as ([type name] & Hin & He). cbn [fst] in He.
    destruct (findBlock parsed type) as [b |] eqn:Hb; [| discriminate He].
    apply (leadItems_odd parsed leadTable type name b Hin Hb He).
Qed.

Lemma collectLeads_present (parsed : AliveCorFile) :
  collectLeads (map (fun e => (snd e, lead_data parsed (fst e))) leadTable)
  = present_leads parsed.
Proof.
  unfold present_leads, leadTable. cbn [map flat_map fst snd].
  generalize (lead_data parsed "ecg ") (lead_data parsed "ecg2")
             (lead_data parsed "ecg3") (lead_data parsed "ecg4")
             (lead_data parsed "ecg5") (lead_data parsed "ecg6").
  intros [d1 |] [d2 |] [d3 |] [d4 |] [d5 |] [d6 |]; reflexivity.
Qed.

(** [assemble], case by case. *)
Lemma assemble_outcome (parsed : AliveCorFile) :
  assemble parsed = outcome_of parsed.
Proof.
  unfold assemble, outcome_of. rewrite parseInfoBlock_spec.
  destruct (findBlock parsed "info") as [bi |]; [| reflexivity].
  cbn [JS.bind]. unfold parseFormatBlock.
  destruct (findBlock parsed "fmt ") as [bf |]; [| reflexivity].
  unfold BinaryParser.parse at 1. rewrite formatBlockParser_spec.
  destruct (contents bf)
    as [| b0 [| b1 [| b2 [| b3 [| b4 [| b5 [| b6 [| b7 r]]]]]]]];
    try reflexivity.
  cbn [JS.bind]. rewrite parseAnnotationBlock_outcome.
  destruct (annotation_ok parsed); [| reflexivity].
  cbn [JS.bind negb]. cbn [format_record ecgFormat].
  destruct (u8 b0 =? 1); [| reflexivity].
  cbn [negb]. rewrite leadItems_outcome.
  destruct (leads_ok parsed); [| reflexivity].
  cbn [JS.bind negb]. rewrite collectLeads_present. reflexivity.
Qed.

Lemma decode_outcome (input : list byte) (parsed : AliveCorFile) :
  container_valid input parsed -> decode input = outcome_of parsed.
Proof.
  intros Hv. unfold decode. rewrite (parse_container_valid input parsed Hv).
  apply assemble_outcome.
Qed.

(** What [decode] does splits on the container reader. *)
Lemma decode_cases (input : list byte) :
  decode input = Throws TruncatedBlock
  \/ decode input = Throws InvalidSignature
  \/ decode input = Throws UnsupportedVersion
  \/ exists parsed, container_valid input parsed
                    /\ decode input = outcome_of parsed.
Proof.
  unfold decode, parse, container_valid.
  rewrite parseFileWithBufferBlocks_spec. unfold BinaryParser.parse.
  pose proof (fileParser_terminates input) as Ht.
  destruct (fileParser input) as [parsed r | |]; try contradiction.
  - destruct (negb _); [right; left; reflexivity |].
    destruct (negb _); [right; right; left; reflexivity |].
    right. right. right. exists parsed. split; [reflexivity |].
    cbn [JS.bind]. apply assemble_outcome.
  - left. reflexivity.
Qed.

Lemma u8_is_1 (b : byte) : u8 b = 1 -> b = x01.
Proof.
  intros H. apply u8_inj. rewrite H. reflexivity.
Qed.

Lemma outcome_returns_inv (parsed : AliveCorFile) (r : AliveCorEcg) :
  outcome_of parsed = Returns r ->
  exists bi bf b0 b1 b2 b3 b4 flags b6 b7 surplus,
    findBlock parsed "info" = Some bi
    /\ findBlock parsed "fmt " = Some bf
    /\ contents bf = b0 :: b1 :: b2 :: b3 :: b4 :: flags :: b6 :: b7 :: surplus
    /\ u8 b0 = 1
    /\ annotation_ok parsed = true
    /\ leads_ok parsed = true
    /\ r = {| fileVersion := "1.6";
              info := info_record (contents bi);
              format := format_record b0 b1 b2 b3 b4 flags b6 b7;
              leads := present_leads parsed;
              annotation :=
                option_map (fun b => annotation_record (contents b))
                           (findBlock parsed "ann ") |}.
Proof.
  unfold outcome_of.
  destruct (findBlock parsed "info") as [bi |]; [| discriminate].
  destruct (findBlock parsed "fmt ") as [bf |]; [| discriminate].
  destruct (contents bf)
    as [| b0 [| b1 [| b2 [| b3 [| b4 [| b5 [| b6 [| b7 surplus]]]]]]]] eqn:Ec;
    try discriminate.
  destruct (annotation_ok parsed); [| discriminate].
  destruct (u8 b0 =? 1) eqn:E1; [| discriminate].
  destruct (leads_ok parsed); [| discriminate].
  cbn [negb]. intros [= <-].
  exists bi, bf, b0, b1, b2, b3, b4, b5, b6, b7, surplus.
  split; [reflexivity |]. split; [reflexivity |]. split; [exact Ec |].
  split; [apply Z.eqb_eq; exact E1 |]. repeat split.
Qed.

Lemma decode_returns_inv (input : list byte) (r : AliveCorEcg) :
  decode input = Returns r ->
  exists parsed, container_valid input parsed /\ outcome_of parsed = Returns r.
Proof.
  intros Hr.
  destruct (decode_cases input) as [H | [H | [H | (parsed & Hv & H)]]];
    rewrite H in Hr; try discriminate.
  exists parsed. split; assumption.
Qed.

Lemma container_valid_unique (input : list byte) (p1 p2 : AliveCorFile) :
  container_valid input p1 -> container_valid input p2 -> p1 = p2.
Proof.
  unfold container_valid. congruence.
Qed.

Lemma tick_records_length (l : list byte) :
  Z.of_nat (List.length l) mod 6 = 0 ->
  (6 * List.length (tick_records l) = List.length l)%nat.
Proof.
  remember (List.length l) as n eqn:Hn.
  revert l Hn. induction n as [n IH] using lt_wf_ind. intros l Hn Hmod.
  destruct l as [| o0 [| o1 [| o2 [| o3 [| t0 [| t1 rest]]]]]];
    subst n; cbn [List.length] in Hmod; try reflexivity;
    try (exfalso; cbn in Hmod; discriminate Hmod).
  cbn [tick_records List.length].
  assert (Hrest : Z.of_nat (List.length rest) mod 6 = 0).
  { replace (Z.of_nat (S (S (S (S (S (S (List.length rest))))))))
      with (Z.of_nat (List.length rest) + 1 * 6) in Hmod by lia.
    rewrite Z.mod_add in Hmod by lia. exact Hmod. }
  specialize (IH (List.length rest) ltac:(cbn; lia) rest eq_refl Hrest). lia.
Qed.

Lemma tick_records_range (l : list byte) :
  Forall (fun t => 0 <= offset t < 2 ^ 32 /\ 0 <= beatType t < 65536)
         (tick_records l).
Proof.
  remember (List.length l) as n eqn:Hn.
  revert l Hn. induction n as [n IH] using lt_wf_ind. intros l Hn.
  destruct l as [| o0 [| o1 [| o2 [| o3 [| t0 [| t1 rest]]]]]];
    subst n; try constructor.
  - cbn [offset beatType].
    pose proof (u8_range o0). pose proof (u8_range o1).
    pose proof (u8_range o2). pose proof (u8_range o3).
    pose proof (u8_range t0). pose proof (u8_range t1).
    change (2 ^ 32) with 4294967296. lia.
  - apply (IH (List.length rest)); [cbn; lia | reflexivity].
Qed.

Lemma present_leads_NoDup (parsed : AliveCorFile) :
  NoDup (map fst (present_leads parsed)).
Proof.
  unfold present_leads, leadTable. cbn [flat_map fst snd].
  generalize (lead_data parsed "ecg ") (lead_data parsed "ecg2")
             (lead_data parsed "ecg3") (lead_data parsed "ecg4")
             (lead_data parsed "ecg5") (lead_data parsed "ecg6").
  intros [d1 |] [d2 |] [d3 |] [d4 |] [d5 |] [d6 |]; cbn;
    repeat constructor; cbn; intuition discriminate.
Qed.

Lemma present_leads_In (parsed : AliveCorFile) (name : string) (data : list Z) :
  In (name, data) (present_leads parsed) <->
  exists type, In (type, name) leadTable /\ lead_data parsed type = Some data.
Proof.
  unfold present_leads. rewrite in_flat_map. split.
  - intros ([type name'] & Hin & Hd). cbn [fst snd] in Hd.
    destruct (lead_data parsed type) as [d |] eqn:E; [| contradiction].
    destruct Hd as [[= <- <-] | []]. exists type. split; assumption.
  - intros (type & Hin & Hd). exists (type, name). split; [exact Hin |].
    cbn [fst snd]. rewrite Hd. left. reflexivity.
Qed.

End DecodeMore.

Module DecodeProperties.
Import JS BinaryParser AliveCor Wire Spec BinaryParserFacts ParserFacts
  ContainerFacts AssemblerFacts DecodeFacts TextFacts LocatorFacts DecoderMore
  DecodeMore.

(** X14: the precedence of the failures on a container-valid input: a
    missing [info] block, then a missing [fmt ] block, then a [fmt ] block
    of fewer than 8 content bytes, then an [ann ] block that is not a
    frequency and whole records, then a format code other than 1, then a
    lead block of odd length; when none applies, decode returns the record
    made of the info fields, the format fields, the leads present and the
    annotation if there is an [ann ] block. *)
Theorem X14_failure_precedence (input : list byte) (parsed : AliveCorFile) :
  container_valid input parsed -> decode input = outcome_of parsed.
Proof.
  intros Hv. unfold decode. rewrite (parse_container_valid input parsed Hv).
  apply assemble_outcome.
Qed.

(** X14 at a file whose [fmt ] block has ecgFormat 2, whose [ann ] block
    has a partial record and whose [ecg ] block has odd length: the
    annotation failure wins. *)
Lemma X14_witness :
  decode (file ALIVE 4
            [ info_block info_264 0; fmt_block fmt_format2 0;
              ann_block [x01; x02; x03; x04; x05] 0; ecg_block [x01] 0 ])
  = Throws MalformedAnnotationBlock.
Proof.
  rewrite (X14_failure_precedence _
             {| signature := ALIVE; version := 4;
                blocks := map decoded
                            [ info_block info_264 0; fmt_block fmt_format2 0;
                              ann_block [x01; x02; x03; x04; x05] 0;
                              ecg_block [x01] 0 ] |}).
  - vm_compute. reflexivity.
  - vm_compute. reflexivity.
Defined.

(** X15: the failures of decode are a closed set: whenever decode throws,
    it throws one of the nine values of [failures]; in particular it never
    fails on the content of an [info] block. *)
Theorem X15_failures_closed (input : list byte) (e : exn) :
  decode input = Throws e -> In e failures /\ e <> MalformedInfoBlock.
Proof.
  intros He.
  assert (Hin : In e failures).
  { destruct (decode_cases input) as [H | [H | [H | (parsed & _ & H)]]];
      rewrite H in He.
    - injection He as <-. cbn. tauto.
    - injection He as <-. cbn. tauto.
    - injection He as <-. cbn. tauto.
    - revert He. unfold outcome_of.
      destruct (findBlock parsed "info") as [bi |];
        [| intros [= <-]; cbn; tauto].
      destruct (findBlock parsed "fmt ") as [bf |];
        [| intros [= <-]; cbn; tauto].
      destruct (contents bf)
        as [| b0 [| b1 [| b2 [| b3 [| b4 [| b5 [| b6 [| b7 r]]]]]]]];
        try (intros [= <-]; cbn; tauto).
      destruct (negb (annotation_ok parsed)); [intros [= <-]; cbn; tauto |].
      destruct (negb (u8 b0 =? 1)); [intros [= <-]; cbn; tauto |].
      destruct (negb (leads_ok parsed)); [intros [= <-]; cbn; tauto |].
      discriminate. }
  split; [exact Hin |].
  intros ->. cbn in Hin. intuition discriminate.
Qed.

(** X15 at [junk_after_header]. *)
Lemma X15_witness :
  In TruncatedBlock failures /\ TruncatedBlock <> MalformedInfoBlock.
Proof.
  apply (X15_failures_closed junk_after_header). vm_compute. reflexivity.
Defined.

(** X16: decode succeeds exactly on the inputs that are container-valid
    (every block complete, signature ALIVE, version 4), have an [info]
    block, have a [fmt ] block of at least 8 content bytes whose first
    byte is 1, have no [ann ] block or one of 4 + 6k content bytes, and in
    which every lead block located has an even content length. *)
Theorem X16_decode_succeeds_iff (input : list byte) :
  (exists r, decode input = Returns r) <->
  (exists parsed bi bf rest,
      container_valid input parsed
      /\ findBlock parsed "info" = Some bi
      /\ findBlock parsed "fmt " = Some bf
      /\ contents bf = x01 :: rest
      /\ (7 <= List.length rest)%nat
      /\ annotation_ok parsed = true
      /\ leads_decodable parsed).
Proof.
  split.
  - intros (r & Hr).
    destruct (decode_returns_inv input r Hr) as (parsed & Hv & Ho).
    destruct (outcome_returns_inv parsed r Ho)
      as (bi & bf & b0 & b1 & b2 & b3 & b4 & b5 & b6 & b7 & surplus
          & Hbi & Hbf & Hc & H1 & Ha & Hl & _).
    exists parsed, bi, bf, (b1 :: b2 :: b3 :: b4 :: b5 :: b6 :: b7 :: surplus).
    apply u8_is_1 in H1. subst b0.
    repeat split; try assumption.
    + cbn. lia.
    + apply leads_ok_spec. exact Hl.
  - intros (parsed & bi & bf & rest & Hv & Hbi & Hbf & Hc & Hlen & Ha & Hl).
    unfold decode. rewrite (parse_container_valid input parsed Hv).
    rewrite assemble_outcome. unfold outcome_of. rewrite Hbi, Hbf, Hc, Ha.
    apply leads_ok_spec in Hl. rewrite Hl.
    destruct rest as [| b1 [| b2 [| b3 [| b4 [| b5 [| b6 [| b7 surplus]]]]]]];
      cbn in Hlen; try lia.
    eexists. reflexivity.
Qed.

(** X16 at the round-trip file, from right to left. *)
Lemma X16_witness : exists r, decode (roundtrip_file info_264 0 0 0) = Returns r.
Proof.
  apply (proj2 (X16_decode_succeeds_iff (roundtrip_file info_264 0 0 0))).
  exists {| signature := ALIVE; version := 4;
            blocks := map decoded
                        [ fmt_block fmt_300Hz 0; info_block info_264 0;
                          ecg_block samples_100_m200_300 0 ] |},
    (decoded (info_block info_264 0)), (decoded (fmt_block fmt_300Hz 0)),
    [x2c; x01; xe8; x03; x05; x00; x00].
  split; [vm_compute; reflexivity |].
  split; [vm_compute; reflexivity |].
  split; [vm_compute; reflexivity |].
  split; [reflexivity |].
  split; [cbn; lia |].
  split; [vm_compute; reflexivity |].
  apply leads_ok_spec. vm_compute. reflexivity.
Defined.

(** X17: every text field of a decoded record is trimmed: none of the
    seven info fields starts or ends with white space. *)
Theorem X17_info_fields_trimmed (input : list byte) (r : AliveCorEcg) :
  decode input = Returns r ->
  Forall trimmed
         [ dateRecorded (info r); recordingUuid (info r);
           mobilePhoneUuid (info r); mobilePhoneModel (info r);
           recorderSoftware (info r); recorderHardware (info r);
           deviceData (info r) ].
Proof.
  intros Hr.
  destruct (decode_returns_inv input r Hr) as (parsed & _ & Ho).
  destruct (outcome_returns_inv parsed r Ho)
    as (bi & bf & b0 & b1 & b2 & b3 & b4 & b5 & b6 & b7 & surplus
        & _ & _ & _ & _ & _ & _ & ->).
  cbn [info info_record dateRecorded recordingUuid mobilePhoneUuid
       mobilePhoneModel recorderSoftware recorderHardware deviceData].
  unfold info_field. repeat constructor; apply trim_trimmed.
Qed.

(** X17 at the round-trip file, whose date field is written with two
    spaces before the padding. *)
Lemma X17_witness :
  exists r,
    decode (roundtrip_file info_264 0 0 0) = Returns r
    /\ dateRecorded (info r) = lit "2020-01-01"
    /\ trimmed (dateRecorded (info r)).
Proof.
  assert (H : {r | decode (roundtrip_file info_264 0 0 0) = Returns r
                   /\ dateRecorded (info r) = lit "2020-01-01"}).
  { eexists. split; vm_compute; reflexivity. }
  destruct H as (r & Hr & Hd). exists r. split; [exact Hr |].
  split; [exact Hd |].
  pose proof (X17_info_fields_trimmed _ r Hr) as Hall.
  inversion Hall. assumption.
Defined.

(** X18: the format of a decoded record: the format code is 1, the
    sampling rate, the amplitude resolution and the reserved field are
    16-bit numbers, the polarity is the number 0 or 1, the mains frequency
    is 50 or 60, and the five filter flags are booleans. *)
Theorem X18_format_of_decoded_record (input : list byte) (r : AliveCorEcg) :
  decode input = Returns r ->
  ecgFormat (format r) = 1
  /\ 0 <= samplingRateHz (format r) < 65536
  /\ 0 <= amplitudeResolutionNV (format r) < 65536
  /\ 0 <= reserved (format r) < 65536
  /\ (polarity (format r) = Num 0 \/ polarity (format r) = Num 1)
  /\ (mainsFrequency (format r) = Num 50 \/ mainsFrequency (format r) = Num 60)
  /\ Forall (fun v => exists b, v = Boolean b)
            [ mainsFilter (format r); lowPassFilter (format r);
              baseLineFilter (format r); notchMainsFilter (format r);
              enhancedFilter (format r) ].
Proof.
  intros Hr.
  destruct (decode_returns_inv input r Hr) as (parsed & _ & Ho).
  destruct (outcome_returns_inv parsed r Ho)
    as (bi & bf & b0 & b1 & b2 & b3 & b4 & b5 & b6 & b7 & surplus
        & _ & _ & _ & H1 & _ & _ & ->).
  cbn [format format_record ecgFormat samplingRateHz amplitudeResolutionNV
       reserved polarity mainsFrequency mainsFilter lowPassFilter
       baseLineFilter notchMainsFilter enhancedFilter].
  pose proof (u8_range b1). pose proof (u8_range b2). pose proof (u8_range b3).
  pose proof (u8_range b4). pose proof (u8_range b6). pose proof (u8_range b7).
  split; [exact H1 |]. split; [lia |]. split; [lia |]. split; [lia |].
  split; [destruct (Z.testbit (u8 b5) 0); [right | left]; reflexivity |].
  split; [destruct (Z.testbit (u8 b5) 1); [right | left]; reflexivity |].
  repeat constructor; eexists; reflexivity.
Qed.

(** X18 at the round-trip file. *)
Lemma X18_witness :
  exists r,
    decode (roundtrip_file info_264 0 0 0) = Returns r
    /\ ecgFormat (format r) = 1
    /\ samplingRateHz (format r) = 300.
Proof.
  assert (H : {r | decode (roundtrip_file info_264 0 0 0) = Returns r
                   /\ samplingRateHz (format r) = 300}).
  { eexists. split; vm_compute; reflexivity. }
  destruct H as (r & Hr & Hs). exists r. split; [exact Hr |].
  split; [| exact Hs].
  exact (proj1 (X18_format_of_decoded_record _ r Hr)).
Defined.

(** X19: the leads of a decoded record are the entries of the lead table
    whose block the file has, in table order: no name occurs twice, and
    under each name are the samples of the first block with the
    corresponding identifier, one sample for every two content bytes, each
    within the signed 16-bit range.  A lead whose block is absent, [leadI]
    included, is not in the record. *)
Theorem X19_leads_of_decoded_record
        (input : list byte) (parsed : AliveCorFile) (r : AliveCorEcg) :
  container_valid input parsed ->
  decode input = Returns r ->
  leads r = present_leads parsed
  /\ NoDup (map fst (leads r))
  /\ (forall name data,
         In (name, data) (leads r) <->
         exists type b,
           In (type, name) leadTable
           /\ findBlock parsed type = Some b
           /\ data = int16_samples (contents b))
  /\ (forall name data,
         In (name, data) (leads r) ->
         Forall (fun s => -32768 <= s < 32768) data
         /\ exists type b,
              In (type, name) leadTable
              /\ findBlock parsed type = Some b
              /\ (2 * List.length data = List.length (contents b))%nat).
Proof.
  intros Hv Hr.
  destruct (decode_returns_inv input r Hr) as (parsed' & Hv' & Ho).
  rewrite (container_valid_unique input parsed' parsed Hv' Hv) in Ho.
  destruct (outcome_returns_inv parsed r Ho)
    as (bi & bf & b0 & b1 & b2 & b3 & b4 & b5 & b6 & b7 & surplus
        & _ & _ & _ & _ & _ & Hl & ->).
  cbn [leads].
  assert (Hiff : forall name data,
             In (name, data) (present_leads parsed) <->
             exists type b,
               In (type, name) leadTable
               /\ findBlock parsed type = Some b
               /\ data = int16_samples (contents b)).
  { intros name data. rewrite present_leads_In. unfold lead_data. split.
    - intros (type & Hin & Hd).
      destruct (findBlock parsed type) as [b |] eqn:Hb; [| discriminate Hd].
      cbn in Hd. injection Hd as <-. exists type, b. repeat split; assumption.
    - intros (type & b & Hin & Hb & ->). exists type. split; [exact Hin |].
      rewrite Hb. reflexivity. }
  split; [reflexivity |]. split; [apply present_leads_NoDup |].
  split; [exact Hiff |].
  intros name data Hin. apply Hiff in Hin as (type & b & Hin & Hb & ->).
  split; [apply int16_samples_range |].
  exists type, b. repeat split; try assumption.
  apply int16_samples_length.
  apply leads_ok_spec in Hl. apply (Hl type name b Hin Hb).
Qed.

(** X19 at a file with an [ecg3] and an [ecg ] block, in that order, and
    no other lead block. *)
Lemma X19_witness :
  exists r,
    decode (file ALIVE 4
              [ fmt_block fmt_300Hz 0; info_block info_264 0;
                {| tag := ascii "ecg3"; content := [xff; xff]; crc := 0 |};
                ecg_block samples_100_m200_300 0 ])
    = Returns r
    /\ leads r = [ ("leadI"%string, [100; -200; 300]);
                   ("leadIII"%string, [-1]) ].
Proof.
  set (bs := [ fmt_block fmt_300Hz 0; info_block info_264 0;
               {| tag := ascii "ecg3"; content := [xff; xff]; crc := 0 |};
               ecg_block samples_100_m200_300 0 ]).
  assert (Hv : container_valid (file ALIVE 4 bs)
                 {| signature := ALIVE; version := 4;
                    blocks := map decoded bs |}).
  { vm_compute. reflexivity. }
  assert (H : {r | decode (file ALIVE 4 bs) = Returns r}).
  { eexists. vm_compute. reflexivity. }
  destruct H as [r Hr]. exists r. split; [exact Hr |].
  rewrite (proj1 (X19_leads_of_decoded_record _ _ r Hv Hr)).
  vm_compute. reflexivity.
Defined.

(** X20: the annotation of a decoded record: there is one exactly when the
    file has an [ann ] block; it then holds one tick for every 6 content
    bytes after the first 4, a frequency and offsets within 32 bits and
    beat types within 16 bits. *)
Theorem X20_annotation_of_decoded_record
        (input : list byte) (parsed : AliveCorFile) (r : AliveCorEcg) :
  container_valid input parsed ->
  decode input = Returns r ->
  match findBlock parsed "ann " with
  | None => annotation r = None
  | Some b =>
      exists a,
        annotation r = Some a
        /\ (4 + 6 * List.length (ticks a) = List.length (contents b))%nat
        /\ 0 <= tickCountFrequencyHz a < 2 ^ 32
        /\ Forall (fun t => 0 <= offset t < 2 ^ 32 /\ 0 <= beatType t < 65536)
                  (ticks a)
  end.
Proof.
  intros Hv Hr.
  destruct (decode_returns_inv input r Hr) as (parsed' & Hv' & Ho).
  rewrite (container_valid_unique input parsed' parsed Hv' Hv) in Ho.
  destruct (outcome_returns_inv parsed r Ho)
    as (bi & bf & b0 & b1 & b2 & b3 & b4 & b5 & b6 & b7 & surplus
        & _ & _ & _ & _ & Ha & _ & ->).
  cbn [annotation]. unfold annotation_ok in Ha.
  destruct (findBlock parsed "ann ") as [b |]; [| reflexivity].
  cbn [option_map]. eexists. split; [reflexivity |].
  apply Z.eqb_eq in Ha. unfold annotation_record.
  destruct (contents b) as [| f0 [| f1 [| f2 [| f3 records]]]];
    try (exfalso; cbn in Ha; discriminate Ha).
  cbn [tickCountFrequencyHz ticks skipn].
  replace (Z.of_nat (List.length (f0 :: f1 :: f2 :: f3 :: records)) - 4)
    with (Z.of_nat (List.length records)) in Ha by (cbn [List.length]; lia).
  split; [| split].
  - pose proof (tick_records_length records Ha). cbn [List.length]. lia.
  - unfold u32_value.
    pose proof (u8_range f0). pose proof (u8_range f1).
    pose proof (u8_range f2). pose proof (u8_range f3).
    change (2 ^ 32) with 4294967296. lia.
  - apply tick_records_range.
Qed.

(** X20 at a file with an annotation of two ticks. *)
Lemma X20_witness :
  exists r a,
    decode (file ALIVE 4
              [ fmt_block fmt_300Hz 0; info_block info_264 0;
                ann_block (le32 300 ++ repeat x01 12) 0 ])
    = Returns r
    /\ annotation r = Some a
    /\ List.length (ticks a) = 2%nat.
Proof.
  set (bs := [ fmt_block fmt_300Hz 0; info_block info_264 0;
               ann_block (le32 300 ++ repeat x01 12) 0 ]).
  assert (Hv : container_valid (file ALIVE 4 bs)
                 {| signature := ALIVE; version := 4;
                    blocks := map decoded bs |}).
  { vm_compute. reflexivity. }
  assert (H : {r | decode (file ALIVE 4 bs) = Returns r}).
  { eexists. vm_compute. reflexivity. }
  destruct H as [r Hr].
  pose proof (X20_annotation_of_decoded_record _ _ r Hv Hr) as Ha.
  change (findBlock {| signature := ALIVE; version := 4;
                       blocks := map decoded bs |} "ann ")
    with (Some (decoded (ann_block (le32 300 ++ repeat x01 12) 0))) in Ha.
  destruct Ha as (a & Ha & Hlen & _).
  exists r, a. split; [exact Hr |]. split; [exact Ha |].
  cbn in Hlen. lia.
Defined.

End DecodeProperties.

(* ===================================================================== *)
(** ** Further properties: from the bytes of a lead to the record        *)
(* ===================================================================== *)

Module EndToEnd.
Import JS BinaryParser AliveCor Wire Spec BinaryParserFacts ParserFacts
  ContainerFacts AssemblerFacts DecodeFacts TextFacts LocatorFacts DecoderMore
  DecodeMore.

Lemma signal_content_length (samples : list Z) :
  List.length (signal_content samples) = (2 * List.length samples)%nat.
Proof.
  induction samples as [| s samples IH]; [reflexivity |].
  unfold signal_content in *. cbn [flat_map le16 app List.length].
  rewrite IH. lia.
Qed.

Lemma signal_content_even (samples : list Z) :
  Nat.even (List.length (signal_content samples)) = true.
Proof.
  rewrite signal_content_length. apply Nat.even_spec. exists (List.length samples).
  reflexivity.
Qed.

Lemma int16_samples_signal (samples : list Z) :
  Forall (fun s => -32768 <= s < 32768) samples ->
  int16_samples (signal_content samples) = samples.
Proof.
  induction 1 as [| s samples Hs _ IH]; [reflexivity |].
  unfold signal_content in *. cbn [flat_map le16 app int16_samples].
  rewrite IH, to_int16_le16 by exact Hs. reflexivity.
Qed.

(** X21: a lead from its bytes to the record.  For each of the six entries
    of the lead table, a file made of a [fmt ] block with format code 1, an
    [info] block and one lead block with that entry's identifier, whose
    content is the samples as little-endian 16-bit pairs, decodes to a
    record that has these samples under that entry's name, no other lead
    and no annotation. *)
Theorem X21_lead_end_to_end
        (type name : string) (infoContent : list byte)
        (b1 b2 b3 b4 flags b6 b7 : byte) (samples : list Z) (c1 c2 c3 : Z) :
  In (type, name) leadTable ->
  Z.of_nat (List.length infoContent) < 2 ^ 32 ->
  2 * Z.of_nat (List.length samples) < 2 ^ 32 ->
  Forall (fun s => -32768 <= s < 32768) samples ->
  decode (file ALIVE 4
            [ fmt_block [x01; b1; b2; b3; b4; flags; b6; b7] c1;
              info_block infoContent c2;
              {| tag := ascii type; content := signal_content samples;
                 crc := c3 |} ])
  = Returns {| fileVersion := "1.6";
               info := info_record infoContent;
               format := format_record x01 b1 b2 b3 b4 flags b6 b7;
               leads := [(name, samples)];
               annotation := None |}.
Proof.
  intros Hin Hinfo Hlen Hrange. unfold decode.
  pose proof (signal_content_length samples) as Hsl.
  pose proof (signal_content_even samples) as Heven.
  pose proof (int16_samples_signal samples Hrange) as Hback.
  cbn in Hin.
  repeat (destruct Hin as [[= <- <-] | Hin];
    [ rewrite parse_file;
      [ | reflexivity
        | repeat constructor; cbn [content fmt_block info_block List.length];
          try lia; reflexivity ];
      change (negb (String.eqb (toString_hex ALIVE) "414c495645000000"))
        with false;
      change (negb (4 mod 2 ^ 32 =? 4)) with false; cbv iota;
      rewrite assemble_outcome;
      match goal with
      | |- outcome_of ?P = _ =>
          unfold outcome_of, annotation_ok, leads_ok, present_leads, lead_data,
            leadTable;
          cbn [forallb flat_map fst snd];
          repeat match goal with
                 | |- context [findBlock P ?t] =>
                     first
                       [ change (findBlock P t) with (@None AliveCorBlock)
                       | match P with
                         | {| blocks := map decoded [?x; ?y; ?z] |} =>
                             first
                               [ change (findBlock P t) with (Some (decoded x))
                               | change (findBlock P t) with (Some (decoded y))
                               | change (findBlock P t) with (Some (decoded z)) ]
                         end ]
                 end
      end;
      cbn [decoded contents content fmt_block info_block option_map app];
      rewrite Heven, Hback; reflexivity
    | ]).
  contradiction.
Qed.

(** X21 at the [ecg5] entry. *)
Lemma X21_witness :
  decode (file ALIVE 4
            [ fmt_block fmt_300Hz 0; info_block info_264 0;
              {| tag := ascii "ecg5"; content := signal_content [7; -7];
                 crc := 0 |} ])
  = Returns {| fileVersion := "1.6";
               info := info_record info_264;
               format := format_record x01 x2c x01 xe8 x03 x05 x00 x00;
               leads := [("aVL"%string, [7; -7])];
               annotation := None |}.
Proof.
  apply (X21_lead_end_to_end "ecg5" "aVL" info_264
           x2c x01 xe8 x03 x05 x00 x00 [7; -7] 0 0 0).
  - right. right. right. right. left. reflexivity.
  - vm_compute. reflexivity.
  - vm_compute. reflexivity.
  - repeat constructor; discriminate.
Defined.

End EndToEnd.
